(** * IntelliNews: the ingestion-and-retrieval engine

    A shallow embedding of [src/managers/newsKnowledgeManager.ts]
    (class NewsKnowledgeManager) and of the scheduling and ingestion parts of
    [NewsMemoryService], with the properties of the engine stated over it.

    Conventions of the embedding.
    - Epoch milliseconds, limits and counts are integers ([Z]).  A [Date]
      held in search options is a valid date and is represented by its time
      value.
    - An optional field ([x?: T], or a metadata entry that may be missing) is
      an [option]; JavaScript truthiness of a string is "present and not
      empty".
    - The knowledge store (RAGKnowledgeManager of the host framework) and the
      wall clock are external: they are an interface, and every operation of
      the manager is a state transformer over an arbitrary implementation of
      it.  Each store call is recorded in a trace together with its outcome.
    - An [await]ed call either completes normally or throws; [try]/[catch]
      blocks are written where the source has them. *)

From Stdlib Require Import ZArith QArith Lia Ascii String.
From stdpp Require Import base decidable option list sorting gmap strings pretty.
Close Scope Q_scope.
Local Open Scope Z_scope.

(** ** Data model ([src/types.ts] and the framework's RAGKnowledgeItem) *)

Definition UUID := string.

(** [content.metadata] of a stored entry.  Every entry of the metadata bag can
    be missing.  [md_publishedAt = None] stands for a value that is missing or
    is NaN (the time value of an invalid date): the source treats the two
    alike everywhere it reads the field. *)
Record Metadata := mkMetadata {
  md_title : option string;
  md_source : option string;
  md_url : option string;
  md_publishedAt : option Z;
  md_type : option string;
  md_topics : option (list string);
  md_isMain : bool;
  md_isShared : bool
}.

Record RAGKnowledgeItem := mkItem {
  item_id : UUID;
  content_text : string;
  content_metadata : option Metadata;
  similarity : option Q;
  createdAt : option Z
}.

(** A JavaScript [Date]: a time value, or an invalid date. *)
Inductive JsDate :=
| InvalidDate
| DateAt (ms : Z).

(** [Date.prototype.getTime]: [None] is NaN. *)
Definition getTime (d : JsDate) : option Z :=
  match d with
  | InvalidDate => None
  | DateAt ms => Some ms
  end.

(** [publishedAt] is declared [Date], but the ingestion pipeline can put
    [null] there, so the field is nullable in the model. *)
Record NewsItem := mkNewsItem {
  title : string;
  content : string;
  source : string;
  url : option string;
  publishedAt : option JsDate;
  topics : list string
}.

Record NewsSearchOptions := mkOptions {
  query : option string;
  conversationContext : option string;
  limit : option Z;
  fromDate : option Z;
  toDate : option Z;
  opt_sources : option (list string);
  opt_topics : option (list string)
}.

Record TopicConfig := mkTopic {
  topic_name : string;
  topic_interval : Z
}.

(** ** JavaScript helpers *)

(** Truthiness of [string | undefined]. *)
Definition truthyStr (o : option string) : bool :=
  match o with
  | Some s => negb (bool_decide (s = EmptyString))
  | None => false
  end.

(** [xs && xs.length > 0]. *)
Definition nonEmptyArr {A} (o : option (list A)) : bool :=
  match o with
  | Some (_ :: _) => true
  | _ => false
  end.

(** [Array.prototype.includes] on strings. *)
Definition includes (xs : list string) (x : string) : bool :=
  bool_decide (x ∈ xs).

(** [Array.prototype.some]. *)
Definition some {A} (f : A → bool) (xs : list A) : bool := existsb f xs.

(** [Array.prototype.slice(0, end)]: a negative [end] counts from the end of
    the array. *)
Definition slice0 {A} (xs : list A) (end_ : Z) : list A :=
  if end_ <? 0
  then take (Z.to_nat (Z.max 0 (Z.of_nat (length xs) + end_))) xs
  else take (Z.to_nat end_) xs.

(** [Array.prototype.sort] with a comparator: the sort is stable, and [x] is
    placed after [y] exactly when [cmp x y > 0]. *)
Fixpoint insertBy {A} (cmp : A → A → Z) (x : A) (xs : list A) : list A :=
  match xs with
  | [] => [x]
  | y :: ys => if 0 <? cmp x y then y :: insertBy cmp x ys else x :: y :: ys
  end.

Definition sortBy {A} (cmp : A → A → Z) (xs : list A) : list A :=
  foldr (insertBy cmp) [] xs.

(** [String.prototype.toLowerCase].  Strings are sequences of code units
    below 256; among these the capitals are A-Z (65-90) and the Latin-1
    letters À-Ö and Ø-Þ (192-214 and 216-222, the multiplication sign 215
    is none), each 32 below its small letter; no other code unit changes. *)
Definition isCapital (n : nat) : bool :=
  ((65 <=? n) && (n <=? 90) || (192 <=? n) && (n <=? 214) ||
   (216 <=? n) && (n <=? 222))%nat.

Definition lowerAscii (c : ascii) : ascii :=
  let n := nat_of_ascii c in
  if isCapital n then ascii_of_nat (n + 32) else c.

Fixpoint toLowerCase (s : string) : string :=
  match s with
  | EmptyString => EmptyString
  | String c s' => String (lowerAscii c) (toLowerCase s')
  end.

(** ** Pure parts of NewsKnowledgeManager *)

Definition CACHE_TTL : Z := 5 * 60 * 1000.

Definition emptyMetadata : Metadata :=
  mkMetadata None None None None None None false false.

(** [item.content.metadata || {}]. *)
Definition metadataOf (item : RAGKnowledgeItem) : Metadata :=
  default emptyMetadata (content_metadata item).

Definition msPerDay : Z := 1000 * 60 * 60 * 24.

(** [(toDate.getTime() - fromDate.getTime()) / (1000 * 60 * 60 * 24)], a
    quotient that need not be an integer. *)
Definition daysBetween (from to : Z) : Q :=
  (inject_Z (to - from) / inject_Z msPerDay)%Q.

Definition Qltb (a b : Q) : bool := negb (Qle_bool b a).

Definition estimateFilterComplexity (options : NewsSearchOptions) : Z :=
  let complexity := 1 in
  let complexity :=
    match fromDate options, toDate options with
    | Some from, Some to =>
        let d := daysBetween from to in
        if Qltb d (inject_Z 7) then complexity + 5
        else if Qltb d (inject_Z 30) then complexity + 4
        else complexity + 3
    | Some _, None | None, Some _ => complexity + 2
    | None, None => complexity
    end in
  let complexity :=
    if nonEmptyArr (opt_topics options) then complexity + 1 else complexity in
  let complexity :=
    if nonEmptyArr (opt_sources options) then complexity + 1 else complexity in
  complexity.

(** The callback of [filterNewsResults].  Nothing in it can throw on the data
    model above, so the [catch] branch of the source is not reachable here. *)
Definition keepNewsItem (options : NewsSearchOptions) (item : RAGKnowledgeItem) : bool :=
  let metadata := metadataOf item in
  if negb (bool_decide (md_type metadata = Some "news"%string)) then false
  else if
    match fromDate options, md_publishedAt metadata with
    | Some from, Some publishedAt => publishedAt <? from
    | _, _ => false
    end then false
  else if
    match toDate options, md_publishedAt metadata with
    | Some to, Some publishedAt => to <? publishedAt
    | _, _ => false
    end then false
  else if
    nonEmptyArr (opt_sources options) &&
    (negb (truthyStr (md_source metadata)) ||
     negb (includes (default [] (opt_sources options))
                    (default EmptyString (md_source metadata)))) then false
  else if
    nonEmptyArr (opt_topics options) &&
    (let topics := default [] (md_topics metadata) in
     bool_decide (topics = []) ||
     negb (some (includes (default [] (opt_topics options))) topics)) then false
  else true.

Definition filterNewsResults (results : list RAGKnowledgeItem)
    (options : NewsSearchOptions) : list RAGKnowledgeItem :=
  List.filter (keepNewsItem options) results.

(** [a.content.metadata?.publishedAt as number || 0]. *)
Definition publishedAtOrZero (item : RAGKnowledgeItem) : Z :=
  default 0 (md_publishedAt (metadataOf item)).

(** The comparator of both sorts in [searchNews]: [dateB - dateA]. *)
Definition newestFirst (a b : RAGKnowledgeItem) : Z :=
  publishedAtOrZero b - publishedAtOrZero a.

(** [options.limit || 10]. *)
Definition desiredCountOf (options : NewsSearchOptions) : Z :=
  match limit options with
  | Some n => if n =? 0 then 10 else n
  | None => 10
  end.

(** The cache key.  The source serialises
    [{query, fromDate: iso, toDate: iso, sources, topics}] with
    [JSON.stringify], which drops the undefined fields and is injective on
    what remains, as [toISOString] is on valid dates; the key is therefore
    kept as the tuple of the five normalised fields. *)
Definition CacheKey : Type :=
  option string * option Z * option Z * option (list string) * option (list string).

Definition generateCacheKey (options : NewsSearchOptions) : CacheKey :=
  (query options, fromDate options, toDate options,
   opt_sources options, opt_topics options).

Record CacheEntry := mkCacheEntry {
  timestamp : Z;
  results : list RAGKnowledgeItem
}.

#[global] Instance CacheKey_eq_dec : EqDecision CacheKey.
Proof. unfold CacheKey. apply _. Defined.

#[global] Instance CacheKey_countable : Countable CacheKey.
Proof. unfold CacheKey. apply _. Defined.

(** ** The external collaborators *)

Definition Error := string.

(** How an awaited call ends. *)
Inductive Completion (A : Type) :=
| Normal (a : A)
| Throw (e : Error).

Arguments Normal {A} a.
Arguments Throw {A} e.

(** The argument of [ragKnowledgeManager.getKnowledge]; [agentId] is the same
    in every call and is left out. *)
Record GetKnowledgeParams := mkParams {
  p_query : option string;
  p_limit : Z;
  p_conversationContext : option string
}.

(** The host: the knowledge store with the four calls the manager makes, and
    [Date.now()].  [W] is the state of the outside world; a store call may
    change it in any way (and let time pass), reading the clock does not. *)
Class Host (W : Type) := {
  getKnowledge : GetKnowledgeParams → W → Completion (list RAGKnowledgeItem) * W;
  listAllKnowledge : W → Completion (list RAGKnowledgeItem) * W;
  createKnowledge : RAGKnowledgeItem → W → Completion () * W;
  removeKnowledge : UUID → W → Completion () * W;
  dateNow : W → Z
}.

Inductive StoreCall :=
| GetKnowledge (p : GetKnowledgeParams)
| ListAllKnowledge
| CreateKnowledge (item : RAGKnowledgeItem)
| RemoveKnowledge (id : UUID).

Inductive Outcome := Completed | Threw.

Definition outcomeOf {A} (r : Completion A) : Outcome :=
  match r with
  | Normal _ => Completed
  | Throw _ => Threw
  end.

(** The state a manager operation runs in: the world, the store calls issued
    so far, and the manager's own [newsCache]. *)
Record State (W : Type) := mkState {
  world : W;
  trace : list (StoreCall * Outcome);
  newsCache : gmap CacheKey CacheEntry
}.

Arguments mkState {W} _ _ _.
Arguments world {W} _.
Arguments trace {W} _.
Arguments newsCache {W} _.

(** ** A state and exception monad *)

Definition M (W A : Type) : Type := State W → Completion A * State W.

#[global] Instance M_ret {W} : MRet (M W) := λ A a s, (Normal a, s).

#[global] Instance M_bind {W} : MBind (M W) := λ A B f m s,
  match m s with
  | (Normal a, s') => f a s'
  | (Throw e, s') => (Throw e, s')
  end.

Definition throw {W A} (e : Error) : M W A := λ s, (Throw e, s).

(** [try { m } catch (error) { h error }]. *)
Definition tryCatch {W A} (m : M W A) (h : Error → M W A) : M W A := λ s,
  match m s with
  | (Normal a, s') => (Normal a, s')
  | (Throw e, s') => h e s'
  end.

Definition getCache {W} : M W (gmap CacheKey CacheEntry) :=
  λ s, (Normal (newsCache s), s).

Definition putCache {W} (c : gmap CacheKey CacheEntry) : M W () :=
  λ s, (Normal (), mkState (world s) (trace s) c).

Section Manager.
Context {W : Type} `{Host W}.

(** [stringToUuid] of the host framework: some function of the string. *)
Variable stringToUuid : string → UUID.

(** [Date.now()]. *)
Definition now : M W Z := λ s, (Normal (dateNow (world s)), s).

(** An awaited store call, recorded in the trace with its outcome. *)
Definition call {A} (c : StoreCall) (f : W → Completion A * W) : M W A := λ s,
  let '(r, w') := f (world s) in
  (r, mkState w' (trace s ++ [(c, outcomeOf r)]) (newsCache s)).

Definition newline : string := String (ascii_of_nat 10) EmptyString.

(** [newsItem.url || `${newsItem.title}-${newsItem.source}`]. *)
Definition idBase (newsItem : NewsItem) : string :=
  if truthyStr (url newsItem) then default EmptyString (url newsItem)
  else (title newsItem ++ "-" ++ source newsItem)%string.

Definition storeNewsItem (newsItem : NewsItem) (type : option string)
    : M W (option RAGKnowledgeItem) :=
  tryCatch
    (let id := stringToUuid (idBase newsItem) in
     publishedAtMs ←
       match publishedAt newsItem with
       | Some d => mret (getTime d)
       | None => throw "TypeError: Cannot read properties of null"%string
       end;
     createdAtMs ← now;
     let knowledgeItem :=
       mkItem id
         (title newsItem ++ newline ++ newline ++ content newsItem)%string
         (Some (mkMetadata
                  (Some (title newsItem))
                  (Some (source newsItem))
                  (url newsItem)
                  publishedAtMs
                  (Some (if truthyStr type then default EmptyString type
                         else "news"%string))
                  (Some (topics newsItem))
                  true false))
         None
         (Some createdAtMs) in
     _ ← call (CreateKnowledge knowledgeItem) (createKnowledge knowledgeItem);
     mret (Some knowledgeItem))
    (λ _, mret None).

(** [metadata[key]] when compared with [===] against a string: only the
    string-valued entries can be equal to it. *)
Definition metadataStringField (key : string) (metadata : Metadata) : option string :=
  if bool_decide (key = "title"%string) then md_title metadata
  else if bool_decide (key = "source"%string) then md_source metadata
  else if bool_decide (key = "url"%string) then md_url metadata
  else if bool_decide (key = "type"%string) then md_type metadata
  else None.

Definition searchNewsByMetadata (key value : string) (limit : Z)
    : M W (list RAGKnowledgeItem) :=
  tryCatch
    (let p := mkParams None (limit * 10) None in
     results ← call (GetKnowledge p) (getKnowledge p);
     mret (slice0
             (List.filter
                (λ item, bool_decide
                   (metadataStringField key (metadataOf item) = Some value))
                results)
             limit))
    (λ _, mret []).

(** The callback of [results.some] in [checkForDuplicate]. *)
Definition verySimilar (newsItem : NewsItem) (item : RAGKnowledgeItem) : bool :=
  let itemTitle := default EmptyString (md_title (metadataOf item)) in
  bool_decide (toLowerCase itemTitle = toLowerCase (title newsItem)) ||
  match similarity item with
  | Some s => Qltb (95 # 100) s
  | None => false
  end.

Definition checkForDuplicate (newsItem : NewsItem) : M W bool :=
  tryCatch
    (foundByUrl ←
       (if truthyStr (url newsItem) then
          results ← searchNewsByMetadata "url"
                      (default EmptyString (url newsItem)) 10;
          mret (bool_decide (0 < length results)%nat)
        else mret false);
     if (foundByUrl : bool) then mret true
     else
       let p := mkParams (Some (title newsItem)) 5 None in
       results ← call (GetKnowledge p) (getKnowledge p);
       mret (some (verySimilar newsItem) results))
    (λ _, mret false).

Definition getCachedNews (options : NewsSearchOptions)
    : M W (option (list RAGKnowledgeItem)) :=
  let cacheKey := generateCacheKey options in
  cache ← getCache;
  t ← now;
  match cache !! cacheKey with
  | Some cachedItem =>
      if t - timestamp cachedItem <? CACHE_TTL
      then mret (Some (results cachedItem))
      else mret None
  | None => mret None
  end.

Definition cleanExpiredCache : M W () :=
  t ← now;
  cache ← getCache;
  putCache (filter (λ kv, ¬ (CACHE_TTL < t - timestamp kv.2)) cache).

Definition setCachedNews (options : NewsSearchOptions)
    (rs : list RAGKnowledgeItem) : M W () :=
  let cacheKey := generateCacheKey options in
  t ← now;
  cache ← getCache;
  _ ← putCache (<[cacheKey := mkCacheEntry t rs]> cache);
  cleanExpiredCache.

(** [options.query || ""]. *)
Definition queryOrEmpty (options : NewsSearchOptions) : string :=
  if truthyStr (query options) then default EmptyString (query options)
  else EmptyString.

(** [!options.query && !options.conversationContext]. *)
Definition noQueryNoContext (options : NewsSearchOptions) : bool :=
  negb (truthyStr (query options)) &&
  negb (truthyStr (conversationContext options)).

Definition firstBatchParams (options : NewsSearchOptions) : GetKnowledgeParams :=
  mkParams (Some (queryOrEmpty options))
           (desiredCountOf options * estimateFilterComplexity options)
           (conversationContext options).

Definition largerBatchParams (options : NewsSearchOptions) : GetKnowledgeParams :=
  mkParams (Some (queryOrEmpty options))
           (desiredCountOf options * estimateFilterComplexity options * 10)
           (conversationContext options).

Definition searchNews (options : NewsSearchOptions) : M W (list RAGKnowledgeItem) :=
  tryCatch
    (cachedNews ← getCachedNews options;
     match cachedNews with
     | Some rs => mret rs
     | None =>
         let desiredCount := desiredCountOf options in
         if noQueryNoContext options then
           allItems ← call ListAllKnowledge listAllKnowledge;
           let rs := filterNewsResults allItems options in
           let _r := slice0 (sortBy newestFirst rs) desiredCount in
           _ ← setCachedNews options _r;
           mret _r
         else
           let p := firstBatchParams options in
           result ← call (GetKnowledge p) (getKnowledge p);
           if bool_decide (length result = 0%nat) then mret []
           else
             let matchingResults := filterNewsResults result options in
             matchingResults ←
               (if Z.of_nat (length matchingResults) <? desiredCount then
                  let p' := largerBatchParams options in
                  largerBatch ← call (GetKnowledge p') (getKnowledge p');
                  let largerResults := filterNewsResults largerBatch options in
                  mret (matchingResults ++ largerResults)
                else mret matchingResults);
             let _r := slice0 (sortBy newestFirst matchingResults) desiredCount in
             _ ← setCachedNews options _r;
             mret _r
     end)
    (λ _, mret []).

(** The callback selecting the expired items in [purgeOldNews]. *)
Definition isExpired (cutoffTime : Z) (item : RAGKnowledgeItem) : bool :=
  let metadata := metadataOf item in
  bool_decide (md_type metadata = Some "news"%string) &&
  match md_publishedAt metadata with
  | Some publishedAt => publishedAt <? cutoffTime
  | None => false
  end.

(** The deletion loop of [purgeOldNews]. *)
Fixpoint removeEach (items : list RAGKnowledgeItem) (deletedCount : Z) : M W Z :=
  match items with
  | [] => mret deletedCount
  | item :: rest =>
      _ ← call (RemoveKnowledge (item_id item)) (removeKnowledge (item_id item));
      removeEach rest (deletedCount + 1)
  end.

Definition purgeOldNews (retentionDays : Z) : M W Z :=
  tryCatch
    (t ← now;
     let cutoffTime := t - retentionDays * 24 * 60 * 60 * 1000 in
     let p := mkParams None 1000 None in
     allItems ← call (GetKnowledge p) (getKnowledge p);
     let expiredItems := List.filter (isExpired cutoffTime) allItems in
     removeEach expiredItems 0)
    (λ _, mret 0).

End Manager.

(** ** The ingestion pipeline of NewsMemoryService *)

(** A hit of the search provider ([SearchResult] of webSearch.ts). *)
Record SearchResult := mkSearchResult {
  r_title : string;
  r_url : option string;
  r_content : string;
  r_rawContent : option string;
  r_publishedDate : option string;
  r_source : option string
}.

Section Ingestion.
Context {W : Type} `{Host W}.
Variable stringToUuid : string → UUID.

(** What the pipeline takes from the JavaScript engine and the provider.
    The regular expressions of [extractDateFromContent] and the engine's
    date parser are not modelled: the heuristic is any function of the text
    and of the current time, [parseDate] is [new Date(text)] and [hostname]
    is [new URL(url).hostname], which throws on a malformed url. *)
Variable extractDateFromContent : string → Z → option JsDate.
Variable parseDate : string → JsDate.
Variable hostname : string → Completion string.
Variable webSearch : string → W → Completion (option (list SearchResult)) * W.

Definition liftCompletion {A} (r : Completion A) : M W A := λ s, (r, s).

Definition callSearch (q : string) : M W (option (list SearchResult)) := λ s,
  let '(r, w') := webSearch q (world s) in
  (r, mkState w' (trace s) (newsCache s)).

(** Lines 391-410 of the loop body: the value of [extractedDate]. *)
Definition derivePublishedAt (result : SearchResult) : M W (option JsDate) :=
  if negb (truthyStr (r_publishedDate result)) then
    tryCatch
      (if truthyStr (r_rawContent result) then
         t ← now;
         let extractedDate :=
           extractDateFromContent (default EmptyString (r_rawContent result)) t in
         let extractedDate :=
           match extractedDate with
           | None => extractDateFromContent (r_content result) t
           | Some d => Some d
           end in
         let extractedDate :=
           match extractedDate with
           | None => Some (DateAt t)
           | Some d => Some d
           end in
         mret extractedDate
       else mret None)
      (λ _, t ← now; mret (Some (DateAt t)))
  else mret (Some (parseDate (default EmptyString (r_publishedDate result)))).

(** One iteration of the loop of [fetchNewsForTopic]; [storedItems] is the
    accumulator the loop pushes to. *)
Definition ingestResult (topic : string) (result : SearchResult)
    (storedItems : list RAGKnowledgeItem) : M W (list RAGKnowledgeItem) :=
  if negb (truthyStr (Some (r_title result))) ||
     negb (truthyStr (Some (r_content result)))
  then mret storedItems
  else
    extractedDate ← derivePublishedAt result;
    src ← (if truthyStr (r_source result)
           then mret (default EmptyString (r_source result))
           else if truthyStr (r_url result)
           then liftCompletion (hostname (default EmptyString (r_url result)))
           else mret "unknown"%string);
    let newsItem :=
      mkNewsItem (r_title result) (r_content result) src (r_url result)
                 extractedDate [topic] in
    isDuplicate ← checkForDuplicate newsItem;
    if (isDuplicate : bool) then mret storedItems
    else
      storedItem ← storeNewsItem stringToUuid newsItem None;
      match storedItem with
      | Some item => mret (storedItems ++ [item])
      | None => mret storedItems
      end.

Fixpoint ingestAll (topic : string) (rs : list SearchResult)
    (storedItems : list RAGKnowledgeItem) : M W (list RAGKnowledgeItem) :=
  match rs with
  | [] => mret storedItems
  | result :: rest =>
      storedItems' ← ingestResult topic result storedItems;
      ingestAll topic rest storedItems'
  end.

Definition fetchNewsForTopic (topic : string) : M W (list RAGKnowledgeItem) :=
  tryCatch
    (let searchQuery := ("latest news about " ++ topic)%string in
     searchResults ← callSearch searchQuery;
     match searchResults with
     | Some rs => ingestAll topic rs []
     | None => mret []
     end)
    (λ e, throw e).

(** [NewsMemoryService.purgeOldNews]; [configured] is
    [config.NEWS_RETENTION_DAYS]. *)
Definition DEFAULT_RETENTION_DAYS : Z := 30.

Definition servicePurgeOldNews (configured : Z) : M W Z :=
  tryCatch
    (let retentionDays :=
       if configured =? 0 then DEFAULT_RETENTION_DAYS else configured in
     purgeOldNews retentionDays)
    (λ _, mret 0).

End Ingestion.

(** ** The scheduler of NewsMemoryService

    Timers live in the timer table of the JavaScript runtime; the service
    keeps the handles of the ones it can cancel in [fetchIntervals]. *)
Module Scheduler.

Inductive TimerCallback :=
| FetchNewsForTopic (topic : string)
| PurgeOldNews.

Record Timer := mkTimer {
  timer_id : nat;
  timer_callback : TimerCallback;
  timer_delay : Z
}.

Record Service := mkService {
  svc_topics : list TopicConfig;
  fetchIntervals : gmap string nat;
  initialized : bool;
  activeTimers : list Timer;
  nextTimerId : nat
}.

(** [new NewsMemoryService()] in a runtime with no timer installed. *)
Definition newService : Service := mkService [] ∅ false [] 0.

(** [setInterval(callback, delay)]: installs a repeating timer and returns
    its handle. *)
Definition setInterval (cb : TimerCallback) (delay : Z) (s : Service) : nat * Service :=
  let id := nextTimerId s in
  (id, mkService (svc_topics s) (fetchIntervals s) (initialized s)
                 (activeTimers s ++ [mkTimer id cb delay]) (S id)).

(** [clearInterval(handle)]. *)
Definition clearInterval (id : nat) (s : Service) : Service :=
  mkService (svc_topics s) (fetchIntervals s) (initialized s)
            (List.filter (λ t, negb (bool_decide (timer_id t = id))) (activeTimers s))
            (nextTimerId s).

Definition stopFetchIntervals (s : Service) : Service :=
  let s' := foldr clearInterval s (map_to_list (fetchIntervals s)).*2 in
  mkService (svc_topics s') ∅ (initialized s') (activeTimers s') (nextTimerId s').

(** The loop of [startFetchIntervals]. *)
Fixpoint scheduleTopics (ts : list TopicConfig) (s : Service) : Service :=
  match ts with
  | [] => s
  | topic :: rest =>
      let '(intervalId, s1) :=
        setInterval (FetchNewsForTopic (topic_name topic))
                    (topic_interval topic * 60 * 1000) s in
      let s2 := mkService (svc_topics s1)
                          (<[topic_name topic := intervalId]> (fetchIntervals s1))
                          (initialized s1) (activeTimers s1) (nextTimerId s1) in
      scheduleTopics rest s2
  end.

Definition startFetchIntervals (s : Service) : Service :=
  scheduleTopics (svc_topics s) (stopFetchIntervals s).

Definition ONE_DAY : Z := 24 * 60 * 60 * 1000.

(** The handle returned by [setInterval] is dropped. *)
Definition scheduleNewsCleanup (s : Service) : Service :=
  (setInterval PurgeOldNews ONE_DAY s).2.

(** [initialize], as far as timers go: [configured] is what
    [initializeTopics] stores in [this.topics]; the first [fetchNews()]
    installs no timer and is left out. *)
Definition initialize (configured : list TopicConfig) (s : Service) : Service :=
  if initialized s then s
  else
    let s := mkService configured (fetchIntervals s) (initialized s)
                       (activeTimers s) (nextTimerId s) in
    let s := startFetchIntervals s in
    let s := scheduleNewsCleanup s in
    mkService (svc_topics s) (fetchIntervals s) true (activeTimers s) (nextTimerId s).

Definition stop (s : Service) : Service := stopFetchIntervals s.

End Scheduler.

(** ** A reference host: an in-memory store

    The store keeps its entries in a list; a listing or query returns the
    first [limit] of them.  Two switches inject faults: [mem_failListing]
    makes a [getKnowledge] call without query text throw, and removing an
    entry whose id is in [mem_failRemove] throws. *)
Record MemWorld := mkMem {
  mem_entries : list RAGKnowledgeItem;
  mem_now : Z;
  mem_failListing : bool;
  mem_failRemove : list UUID
}.

#[global] Instance MemHost : Host MemWorld := {|
  getKnowledge p w :=
    if mem_failListing w && bool_decide (p_query p = None)
    then (Throw "store unavailable"%string, w)
    else (Normal (take (Z.to_nat (p_limit p)) (mem_entries w)), w);
  listAllKnowledge w := (Normal (mem_entries w), w);
  createKnowledge item w :=
    (Normal (),
     mkMem (mem_entries w ++ [item]) (mem_now w) (mem_failListing w) (mem_failRemove w));
  removeKnowledge id w :=
    if bool_decide (id ∈ mem_failRemove w)
    then (Throw "delete failed"%string, w)
    else (Normal (),
          mkMem (List.filter (λ item, negb (bool_decide (item_id item = id)))
                             (mem_entries w))
                (mem_now w) (mem_failListing w) (mem_failRemove w));
  dateNow w := mem_now w
|}.

(** A manager created on a given world: no store call yet, empty cache. *)
Definition freshState {W} (w : W) : State W := mkState w [] ∅.

Definition newsEntry (id ttl src : string) (t : Z) (tps : list string) : RAGKnowledgeItem :=
  mkItem id ttl
    (Some (mkMetadata (Some ttl) (Some src) None (Some t) (Some "news"%string)
                      (Some tps) true false))
    None None.

Definition noOptions : NewsSearchOptions :=
  mkOptions None None None None None None None.

(** * Specification-side definitions

    The properties below are stated with the following predicates, which
    follow the wording of the specification, and checked on the sample data
    that closes this part. *)

(** The multiplier as the specification words it, on whole milliseconds. *)
Definition complexityBonusForDates (options : NewsSearchOptions) : Z :=
  match fromDate options, toDate options with
  | Some from, Some to =>
      if decide (to - from < 7 * msPerDay) then 5
      else if decide (to - from < 30 * msPerDay) then 4
      else 3
  | Some _, None | None, Some _ => 2
  | None, None => 0
  end.

(** The multiplier as the specification words it. *)
Definition complexityMultiplier (options : NewsSearchOptions) : Z :=
  1 + complexityBonusForDates options
    + (if nonEmptyArr (opt_topics options) then 1 else 0)
    + (if nonEmptyArr (opt_sources options) then 1 else 0).

(** The limit of a search: [options.limit], or 10 when it is absent or 0. *)
Definition effectiveLimit (options : NewsSearchOptions) : Z :=
  match limit options with
  | Some n => if decide (n = 0) then 10 else n
  | None => 10
  end.

(** The two store queries of a search on the query path: both carry the
    query text (the empty string when there is none) and the conversation
    context; the first asks for limit × complexity entries, the escalated
    one for limit × complexity × 10. *)
Definition firstQuery (options : NewsSearchOptions) : GetKnowledgeParams :=
  mkParams (Some (default EmptyString (query options)))
           (effectiveLimit options * complexityMultiplier options)
           (conversationContext options).

Definition escalatedQuery (options : NewsSearchOptions) : GetKnowledgeParams :=
  mkParams (Some (default EmptyString (query options)))
           (effectiveLimit options * complexityMultiplier options * 10)
           (conversationContext options).

(** The post-filter in words: the entry is news; its publishedAt, when it is
    a number, lies within the bounds that are set; with a non-empty sources
    filter its source is present, not empty and among the sources; with a
    non-empty topics filter one of its topics is among the topics. *)
Definition matchesFilters (options : NewsSearchOptions) (item : RAGKnowledgeItem) : Prop :=
  let m := metadataOf item in
  md_type m = Some "news"%string
  ∧ (∀ p from, md_publishedAt m = Some p → fromDate options = Some from → from ≤ p)
  ∧ (∀ p to, md_publishedAt m = Some p → toDate options = Some to → p ≤ to)
  ∧ (∀ srcs, opt_sources options = Some srcs → srcs ≠ [] →
       ∃ src, md_source m = Some src ∧ src ≠ EmptyString ∧ src ∈ srcs)
  ∧ (∀ tps, opt_topics options = Some tps → tps ≠ [] →
       ∃ tp mine, md_topics m = Some mine ∧ tp ∈ mine ∧ tp ∈ tps).




(** The listing the url lookup scans: [searchNewsByMetadata] asks for
    [limit * 10] entries with its default limit of 10, without query text. *)
Definition urlLookupParams : GetKnowledgeParams := mkParams None (10 * 10) None.

Definition titleQueryParams (newsItem : NewsItem) : GetKnowledgeParams :=
  mkParams (Some (title newsItem)) 5 None.

(** Two code units are the same letter up to case: they are equal, or one
    is a capital (A-Z, À-Ö, Ø-Þ) and the other its small letter, 32 above. *)
Definition capital (n : nat) : Prop :=
  (65 ≤ n ≤ 90 ∨ 192 ≤ n ≤ 214 ∨ 216 ≤ n ≤ 222)%nat.

Definition sameLetter (c d : ascii) : Prop :=
  let n := nat_of_ascii c in
  let m := nat_of_ascii d in
  n = m ∨ (capital n ∧ m = (n + 32)%nat) ∨ (capital m ∧ n = (m + 32)%nat).

(** Two titles are equal case-insensitively: the same length, and the same
    letter up to case at every position. *)
Fixpoint equalIgnoringCase (a b : string) : Prop :=
  match a, b with
  | EmptyString, EmptyString => True
  | String c a', String d b' => sameLetter c d ∧ equalIgnoringCase a' b'
  | _, _ => False
  end.


Definition purgeListingParams : GetKnowledgeParams := mkParams None 1000 None.

(** An entry the purge selects: news with a numeric publishedAt strictly
    before the cutoff. *)
Definition expiredAt (cutoff : Z) (item : RAGKnowledgeItem) : Prop :=
  md_type (metadataOf item) = Some "news"%string
  ∧ ∃ p, md_publishedAt (metadataOf item) = Some p ∧ p < cutoff.

(** The trace of deletions that all completed. *)
Definition deleted (items : list RAGKnowledgeItem) : list (StoreCall * Outcome) :=
  (λ item, (RemoveKnowledge (item_id item), Completed)) <$> items.

(** How a purge ends: every selected entry was deleted, or the deletion of
    the [k]-th one threw after the [k] before it were deleted. *)
Inductive PurgeRun (selected : list RAGKnowledgeItem)
    : Completion Z → list (StoreCall * Outcome) → Prop :=
| PurgeAll :
    PurgeRun selected (Normal (Z.of_nat (length selected))) (deleted selected)
| PurgeAborted (k : nat) (item : RAGKnowledgeItem) :
    selected !! k = Some item →
    PurgeRun selected (Normal 0)
      (deleted (take k selected) ++ [(RemoveKnowledge (item_id item), Threw)]).

(** Two news items for the same article, as C3 words it: the same non-empty
    url, or no url and the same title and source. *)
Definition sameArticleKey (n1 n2 : NewsItem) : Prop :=
  (∃ u, url n1 = Some u ∧ url n2 = Some u ∧ u ≠ EmptyString)
  ∨ (url n1 = None ∧ url n2 = None ∧ title n1 = title n2 ∧ source n1 = source n2).

Section HostedDefinitions.
Context {W : Type} `{Host W}.

(** The age of the cache entry under the key of [options], if there is one. *)
Definition liveEntry (options : NewsSearchOptions) (s : State W) (e : CacheEntry) : Prop :=
  newsCache s !! generateCacheKey options = Some e ∧
  dateNow (world s) - timestamp e < 5 * 60 * 1000.

(** The [if (cachedNews)] branch of [searchNews] is taken. *)
Definition servedFromCache (options : NewsSearchOptions) (s : State W) : Prop :=
  ∃ rs, (getCachedNews options s).1 = Normal (Some rs).

(** The url of the candidate is set and the listing, which succeeded,
    holds an entry with that url. *)
Definition foundByUrl (newsItem : NewsItem) (w : W) : Prop :=
  ∃ u rs w',
    url newsItem = Some u ∧ u ≠ EmptyString
    ∧ getKnowledge urlLookupParams w = (Normal rs, w')
    ∧ ∃ item, item ∈ rs ∧ md_url (metadataOf item) = Some u.




End HostedDefinitions.

Module SchedulerSpec.
Import Scheduler.

(** Every handle the service keeps was handed out by [setInterval]. *)
Definition handlesKnown (s : Service) : Prop :=
  ∀ name id, fetchIntervals s !! name = Some id → (id < nextTimerId s)%nat.

End SchedulerSpec.

(** ** Sample data *)

Definition sampleEntry : RAGKnowledgeItem :=
  newsEntry "id-1" "Chip makers rally" "example.com" 1000 ["technology"%string].

(** A news entry whose publishedAt is not a number. *)
Definition undatedEntry : RAGKnowledgeItem :=
  mkItem "id-2" "Undated story"
    (Some (mkMetadata (Some "Undated story"%string) (Some "example.com"%string) None
                      None (Some "news"%string) (Some ["technology"%string])
                      true false))
    None None.



Definition sampleCandidate : NewsItem :=
  mkNewsItem "CHIP MAKERS RALLY" "Shares of chip makers rose." "example.com"
             (Some "https://example.com/chips"%string) (Some (DateAt 2000))
             ["technology"%string].

(** A store of seven entries in no particular order: four technology news
    published at 1000, 100, 3000 and 2000, a note that is not news, and two
    news entries on another topic. *)
Definition chipsA : RAGKnowledgeItem :=
  newsEntry "id-a" "Chips A" "example.com" 1000 ["technology"%string].

Definition chipsB : RAGKnowledgeItem :=
  newsEntry "id-b" "Chips B" "example.com" 3000 ["technology"%string].

Definition chipsC : RAGKnowledgeItem :=
  newsEntry "id-c" "Chips C" "example.com" 2000 ["technology"%string].

Definition oldChips : RAGKnowledgeItem :=
  newsEntry "id-old" "Old chips" "example.com" 100 ["technology"%string].

Definition mixedStore : list RAGKnowledgeItem :=
  [ mkItem "id-note" "A note"
      (Some (mkMetadata (Some "A note"%string) (Some "example.com"%string) None
                        (Some 2500) (Some "note"%string) (Some ["technology"%string])
                        true false))
      None None;
    newsEntry "id-world" "Elections" "example.com" 4000 ["world news"%string];
    chipsA;
    newsEntry "id-summit" "Summit" "example.com" 50 ["world news"%string];
    oldChips;
    chipsB;
    chipsC ].

(** At most two technology news published at or after 500. *)
Definition recentTechnology : NewsSearchOptions :=
  mkOptions None None (Some 2) (Some 500) None None (Some ["technology"%string]).

(** At most two technology news for the query text "chips". *)
Definition technologyQuery : NewsSearchOptions :=
  mkOptions (Some "chips"%string) None (Some 2) None None None
            (Some ["technology"%string]).

(** A manager whose cache holds one entry, stored at [t] under the key of
    [options], looked at when the clock shows [clock]. *)
Definition cachedState (options : NewsSearchOptions) (t clock : Z)
    (rs : list RAGKnowledgeItem) : State MemWorld :=
  mkState (mkMem [] clock false []) []
          {[ generateCacheKey options := mkCacheEntry t rs ]}.

Definition staleEntry (id : string) : RAGKnowledgeItem :=
  newsEntry id "Old story" "example.com" 0 ["technology"%string].

(** One day in milliseconds, and a world whose clock shows day 40. *)
Definition purgeWorld (failing : list UUID) : MemWorld :=
  mkMem [staleEntry "id-1"; staleEntry "id-2"; staleEntry "id-3"]
        (40 * 86400000) false failing.

(** A provider hit with title, content and url but neither a published date
    nor raw content. *)
Definition undatedResult : SearchResult :=
  mkSearchResult "Chip makers rally" (Some "https://example.com/chips"%string)
                 "Shares of chip makers rose." None None None.

(** The same hit with raw content in which no date pattern matches. *)
Definition undatedResultWithRaw : SearchResult :=
  mkSearchResult "Chip makers rally" (Some "https://example.com/chips"%string)
                 "Shares of chip makers rose." (Some "<p>Shares rose.</p>"%string)
                 None None.

(** A provider that answers every query with the given hits, a heuristic
    that finds no date, and the identity for ids and host names. *)
Definition fetchWith (hits : list SearchResult) (topic : string)
    : M MemWorld (list RAGKnowledgeItem) :=
  fetchNewsForTopic (λ x, x) (λ _ _, None) (λ _, InvalidDate) (λ u, Normal u)
                    (λ _ w, (Normal (Some hits), w)) topic.

(** * Further definitions

    The rest of the engine: the runs of a search, the aggregation of
    [fetchNews], configuration parsing, the web search service and the
    display helpers, with the predicates their properties are stated with. *)

(** The store calls issued between two states. *)
Definition newCalls {W} (s s' : State W) : list (StoreCall * Outcome) :=
  drop (length (trace s)) (trace s').

Section SearchRuns.
Context {W : Type} `{Host W}.

(** The ways a search that is not served from the cache can go, with the
    list it returns and the state it leaves. *)
Inductive SearchRun (options : NewsSearchOptions) (s : State W)
    : list RAGKnowledgeItem → State W → Prop :=
| RunListingFailed e w' :
    noQueryNoContext options = true →
    listAllKnowledge (world s) = (Throw e, w') →
    SearchRun options s []
      (mkState w' (trace s ++ [(ListAllKnowledge, Threw)]) (newsCache s))
| RunListed allItems w' :
    noQueryNoContext options = true →
    listAllKnowledge (world s) = (Normal allItems, w') →
    let rs := slice0 (sortBy newestFirst (filterNewsResults allItems options))
                     (desiredCountOf options) in
    SearchRun options s rs
      (setCachedNews options rs
         (mkState w' (trace s ++ [(ListAllKnowledge, Completed)]) (newsCache s))).2
| RunQueryFailed e w1 :
    noQueryNoContext options = false →
    getKnowledge (firstBatchParams options) (world s) = (Throw e, w1) →
    SearchRun options s []
      (mkState w1 (trace s ++ [(GetKnowledge (firstBatchParams options), Threw)])
               (newsCache s))
| RunEmptyBatch w1 :
    noQueryNoContext options = false →
    getKnowledge (firstBatchParams options) (world s) = (Normal [], w1) →
    SearchRun options s []
      (mkState w1 (trace s ++ [(GetKnowledge (firstBatchParams options), Completed)])
               (newsCache s))
| RunEnough batch w1 :
    noQueryNoContext options = false →
    getKnowledge (firstBatchParams options) (world s) = (Normal batch, w1) →
    batch ≠ [] →
    desiredCountOf options ≤ Z.of_nat (length (filterNewsResults batch options)) →
    let rs := slice0 (sortBy newestFirst (filterNewsResults batch options))
                     (desiredCountOf options) in
    SearchRun options s rs
      (setCachedNews options rs
         (mkState w1 (trace s ++ [(GetKnowledge (firstBatchParams options), Completed)])
                  (newsCache s))).2
| RunEscalated batch w1 largerBatch w2 :
    noQueryNoContext options = false →
    getKnowledge (firstBatchParams options) (world s) = (Normal batch, w1) →
    batch ≠ [] →
    Z.of_nat (length (filterNewsResults batch options)) < desiredCountOf options →
    getKnowledge (largerBatchParams options) w1 = (Normal largerBatch, w2) →
    let rs := slice0 (sortBy newestFirst
                        (filterNewsResults batch options ++
                         filterNewsResults largerBatch options))
                     (desiredCountOf options) in
    SearchRun options s rs
      (setCachedNews options rs
         (mkState w2
            (trace s ++ [(GetKnowledge (firstBatchParams options), Completed);
                         (GetKnowledge (largerBatchParams options), Completed)])
            (newsCache s))).2
| RunEscalationFailed batch w1 e w2 :
    noQueryNoContext options = false →
    getKnowledge (firstBatchParams options) (world s) = (Normal batch, w1) →
    batch ≠ [] →
    Z.of_nat (length (filterNewsResults batch options)) < desiredCountOf options →
    getKnowledge (largerBatchParams options) w1 = (Throw e, w2) →
    SearchRun options s []
      (mkState w2
         (trace s ++ [(GetKnowledge (firstBatchParams options), Completed);
                      (GetKnowledge (largerBatchParams options), Threw)])
         (newsCache s)).

End SearchRuns.

(** What the pipeline stored for a hit: the entry went to the store in a
    completed [createKnowledge] call and carries the hit's title, url and
    the topic. *)
Definition storedFor {W} (topic : string) (hits : list SearchResult)
    (s' : State W) (item : RAGKnowledgeItem) : Prop :=
  (CreateKnowledge item, Completed) ∈ trace s'
  ∧ ∃ result, result ∈ hits
      ∧ r_title result ≠ EmptyString
      ∧ r_content result ≠ EmptyString
      ∧ ∃ m, content_metadata item = Some m
          ∧ md_title m = Some (r_title result)
          ∧ md_url m = r_url result
          ∧ md_type m = Some "news"%string
          ∧ md_topics m = Some [topic].

(** ** Configuration ([environment.ts])

    Strings are sequences of code units below 256.  A number read from a
    setting is what [Number.parseInt] returns: an integer-valued double, an
    infinity or NaN. *)

(** The numbers that occur in the configuration.  [Finite n] is the double
    whose value is the integer [n]. *)
Inductive JsNumber :=
| NaN
| NegInfinity
| Finite (n : Z)
| PosInfinity.

(** The Number value for an integer: the nearest double, ties to the even
    significand, and an infinity from 2^1024 - 2^970 on.  Integers below 2^53
    in absolute value are doubles themselves. *)
Definition roundToDouble (n : Z) : JsNumber :=
  let a := Z.abs n in
  if a <? 2 ^ 53 then Finite n
  else
    let e := Z.log2 a - 52 in
    let q := a / 2 ^ e in
    let r := a mod 2 ^ e in
    let q := if (2 ^ (e - 1) <? r) || ((r =? 2 ^ (e - 1)) && Z.odd q)
             then q + 1 else q in
    if 2 ^ 1024 <=? q * 2 ^ e
    then (if n <? 0 then NegInfinity else PosInfinity)
    else Finite (Z.sgn n * (q * 2 ^ e)).

(** [isNaN]. *)
Definition isNaN (x : JsNumber) : bool :=
  match x with
  | NaN => true
  | _ => false
  end.

(** [Math.max] of two numbers. *)
Definition mathMax (a b : JsNumber) : JsNumber :=
  match a, b with
  | NaN, _ | _, NaN => NaN
  | PosInfinity, _ | _, PosInfinity => PosInfinity
  | NegInfinity, x | x, NegInfinity => x
  | Finite x, Finite y => Finite (Z.max x y)
  end.

Definition DEFAULT_SEARCH_LIMIT : Z := 10.
Definition DEFAULT_FETCH_INTERVAL : Z := 60.
Definition DEFAULT_TOPICS : list string :=
  ["world news"; "technology"; "science"]%string.

(** White space and line terminators, as [trim] and [parseInt] skip them. *)
Definition isWhiteSpace (c : ascii) : bool :=
  let n := nat_of_ascii c in
  ((n =? 9) || (n =? 10) || (n =? 11) || (n =? 12) || (n =? 13) ||
   (n =? 32) || (n =? 160))%nat.

Fixpoint trimStart (s : string) : string :=
  match s with
  | EmptyString => EmptyString
  | String c s' => if isWhiteSpace c then trimStart s' else s
  end.

Fixpoint trimEnd (s : string) : string :=
  match s with
  | EmptyString => EmptyString
  | String c s' =>
      match trimEnd s' with
      | EmptyString => if isWhiteSpace c then EmptyString else String c EmptyString
      | t => String c t
      end
  end.

(** [String.prototype.trim]. *)
Definition trim (s : string) : string := trimEnd (trimStart s).

(** [String.prototype.split] with a one-character separator. *)
Fixpoint splitOn (sep : ascii) (s : string) : list string :=
  match s with
  | EmptyString => [EmptyString]
  | String c s' =>
      if bool_decide (c = sep) then EmptyString :: splitOn sep s'
      else match splitOn sep s' with
           | piece :: pieces => String c piece :: pieces
           | [] => [String c EmptyString]
           end
  end.

Definition comma : ascii := ascii_of_nat 44.

Definition parseTopics (topicsStr : option string) : list string :=
  match topicsStr with
  | None => []
  | Some s =>
      if bool_decide (trim s = EmptyString) then []
      else List.filter (λ topic, negb (bool_decide (topic = EmptyString)))
                       (trim <$> splitOn comma s)
  end.

Definition isDigit (c : ascii) : bool :=
  let n := nat_of_ascii c in ((48 <=? n) && (n <=? 57))%nat.

(** The value of the leading decimal digits of [s], after [acc]. *)
Fixpoint leadingDigits (s : string) (acc : Z) : Z :=
  match s with
  | EmptyString => acc
  | String c s' =>
      if isDigit c
      then leadingDigits s' (acc * 10 + (Z.of_nat (nat_of_ascii c) - 48))
      else acc
  end.

(** [Number.parseInt(s, 10)]: leading white space is skipped, then a sign,
    then the decimal digits are read up to the first other character; what
    they denote is rounded to a double.  Without a digit the result is NaN. *)
Definition parseInt (s : string) : JsNumber :=
  let s := trimStart s in
  let '(sign, digits) :=
    match s with
    | String c s' =>
        if bool_decide (c = ascii_of_nat 45) then (-1, s')
        else if bool_decide (c = ascii_of_nat 43) then (1, s')
        else (1, s)
    | EmptyString => (1, s)
    end in
  match digits with
  | String c _ =>
      if isDigit c then roundToDouble (sign * leadingDigits digits 0) else NaN
  | EmptyString => NaN
  end.

Definition safeParseInt (value : option string) (defaultValue : JsNumber) : JsNumber :=
  if negb (truthyStr value) then defaultValue
  else
    let parsed := parseInt (default EmptyString value) in
    if isNaN parsed then defaultValue else mathMax (Finite 1) parsed.

(** Where settings come from: [runtime.getSetting], a call into the host
    that can throw, and [process.env]. *)
Record Settings := mkSettings {
  runtimeSetting : string → Completion (option string);
  processEnv : string → option string
}.

(** [runtime.getSetting(key) || process.env[key]]. *)
Definition settingOf (st : Settings) (key : string) : Completion (option string) :=
  match runtimeSetting st key with
  | Normal v => Normal (if truthyStr v then v else processEnv st key)
  | Throw e => Throw e
  end.

(** A configuration that passed the schema: its numbers are integers. *)
Record NewsConfig := mkNewsConfig {
  NEWS_FETCH_INTERVAL_MINUTES : Z;
  NEWS_TOPICS : list string;
  NEWS_RETENTION_DAYS : Z;
  NEWS_SEARCH_LIMIT : Z
}.

(** The object [validateNewsConfig] hands to the schema. *)
Record NewsConfigInput := mkNewsConfigInput {
  input_TOPICS : list string;
  input_RETENTION_DAYS : JsNumber;
  input_FETCH_INTERVAL_MINUTES : JsNumber;
  input_SEARCH_LIMIT : JsNumber
}.

(** [z.number().int()]: the value is a number that [Number.isInteger]
    accepts, which excludes NaN and the infinities. *)
Definition schemaInt (x : JsNumber) : option Z :=
  match x with
  | Finite n => Some n
  | _ => None
  end.

(** [newsEnvSchema.parse]: returns the validated object or throws a
    ZodError.  The topics are an array of strings by construction. *)
Definition schemaParse (input : NewsConfigInput) : Completion NewsConfig :=
  match schemaInt (input_FETCH_INTERVAL_MINUTES input),
        schemaInt (input_RETENTION_DAYS input),
        schemaInt (input_SEARCH_LIMIT input) with
  | Some interval, Some retention, Some searchLimit =>
      Normal (mkNewsConfig interval (input_TOPICS input) retention searchLimit)
  | _, _, _ => Throw "ZodError"%string
  end.

(** Sequencing of steps that can throw. *)
Definition andThen {A B} (c : Completion A) (f : A → Completion B) : Completion B :=
  match c with
  | Normal a => f a
  | Throw e => Throw e
  end.

(** The configuration returned by the [catch] branch. *)
Definition defaultNewsConfig : NewsConfig :=
  mkNewsConfig DEFAULT_FETCH_INTERVAL DEFAULT_TOPICS DEFAULT_RETENTION_DAYS
               DEFAULT_SEARCH_LIMIT.

(** The [try] block of [validateNewsConfig]: the four settings are read in
    the order of the object literal, then the schema is applied. *)
Definition readNewsConfig (st : Settings) : Completion NewsConfig :=
  andThen (settingOf st "NEWS_TOPICS") (λ topicsStr,
  andThen (settingOf st "NEWS_RETENTION_DAYS") (λ retention,
  andThen (settingOf st "NEWS_FETCH_INTERVAL_MINUTES") (λ interval,
  andThen (settingOf st "NEWS_SEARCH_LIMIT") (λ searchLimit,
    schemaParse
      (mkNewsConfigInput
         (parseTopics topicsStr)
         (safeParseInt retention (Finite DEFAULT_RETENTION_DAYS))
         (safeParseInt interval (Finite DEFAULT_FETCH_INTERVAL))
         (safeParseInt searchLimit (Finite DEFAULT_SEARCH_LIMIT))))))).

(** [validateNewsConfig]: any error, of [getSetting] or of the schema,
    gives the default configuration. *)
Definition validateNewsConfig (st : Settings) : NewsConfig :=
  match readNewsConfig st with
  | Normal config => config
  | Throw _ => defaultNewsConfig
  end.

(** [NewsMemoryService.initializeTopics]: the value of [this.topics].
    [validateNewsConfig] does not throw, so the [catch] branch of
    [initializeTopics] is not taken. *)
Definition initializeTopics (st : Settings) : list TopicConfig :=
  let config := validateNewsConfig st in
  let topicNames :=
    if bool_decide (0 < length (NEWS_TOPICS config))%nat
    then NEWS_TOPICS config else DEFAULT_TOPICS in
  let defaultInterval :=
    if NEWS_FETCH_INTERVAL_MINUTES config =? 0 then DEFAULT_FETCH_INTERVAL
    else NEWS_FETCH_INTERVAL_MINUTES config in
  (λ name, mkTopic name defaultInterval) <$> topicNames.

(** A character occurs in a string. *)
Fixpoint occurs (c : ascii) (s : string) : Prop :=
  match s with
  | EmptyString => False
  | String c' s' => c' = c ∨ occurs c s'
  end.

(** The string is empty or starts with a character that is not white
    space. *)
Definition startsClean (s : string) : Prop :=
  match s with
  | EmptyString => True
  | String c _ => isWhiteSpace c = false
  end.

(** A topic name as [parseTopics] produces them: not empty, without comma,
    without white space at either end. *)
Definition wellFormedTopic (t : string) : Prop :=
  t ≠ EmptyString ∧ ¬ occurs comma t ∧ trim t = t.

(** The string is empty or starts with a character that is not a digit. *)
Definition noLeadingDigit (s : string) : Prop :=
  match s with
  | EmptyString => True
  | String c _ => isDigit c = false
  end.

(** The keys of the three numeric settings. *)
Definition numericSettings : list string :=
  ["NEWS_RETENTION_DAYS"; "NEWS_FETCH_INTERVAL_MINUTES"; "NEWS_SEARCH_LIMIT"]%string.

(** [Array.prototype.join] with a comma. *)
Fixpoint joinComma (ts : list string) : string :=
  match ts with
  | [] => EmptyString
  | [t] => t
  | t :: rest => (t ++ String comma (joinComma rest))%string
  end.

(** ** The web search service ([services/webSearch.ts]) *)
Module WebSearch.

Inductive SearchTopic := News | General.
Inductive SearchDepth := Basic | Advanced.

#[global] Instance SearchTopic_eq_dec : EqDecision SearchTopic.
Proof. solve_decision. Defined.

(** [SearchOptions]: every field is optional. *)
Record SearchOptions := mkSearchOptions {
  so_limit : option Z;
  so_type : option SearchTopic;
  so_includeAnswer : option bool;
  so_searchDepth : option SearchDepth;
  so_includeImages : option bool;
  so_days : option Z
}.

(** The parameters sent to the provider. *)
Record SearchParams := mkSearchParams {
  search_depth : SearchDepth;
  include_answer : bool;
  max_results : Z;
  topic : SearchTopic;
  include_raw_content : bool;
  include_images : bool;
  include_image_descriptions : bool;
  days : Z
}.

Record SearchResponse := mkSearchResponse {
  resp_answer : option string;
  resp_query : string;
  resp_results : option (list SearchResult)
}.

(** The cache key [`websearch:${query}:${paramString}`], where
    [paramString] lists the parameters in sorted key order: the string
    determines the query and the parameters and they determine it, so the key
    is kept as the pair. *)
Definition CacheKey : Type := string * SearchParams.

Definition generateCacheKey (q : string) (searchParams : SearchParams) : CacheKey :=
  (q, searchParams).

Definition DEFAULT_TTL : Z := 1800.
Definition NEWS_TTL : Z := 900.
Definition RECENT_NEWS_TTL : Z := 300.

Definition determineTTL (searchParams : SearchParams) : Z :=
  if bool_decide (topic searchParams = News) && (days searchParams <=? 1)
  then RECENT_NEWS_TTL
  else if bool_decide (topic searchParams = News) then NEWS_TTL
  else DEFAULT_TTL.

(** [runtime.cacheManager], when the runtime has one. *)
Record CacheManager (W : Type) := mkCacheManager {
  cacheGet : CacheKey → W → Completion (option SearchResponse) * W;
  cacheSet : CacheKey → SearchResponse → Z → W → Completion () * W
}.

Arguments cacheGet {W} _ _ _.
Arguments cacheSet {W} _ _ _ _ _.

(** What the service runs on: the runtime's cache manager, the provider
    client and the clock.  The service looks at a value thrown by the cache
    manager in one way only, logging [cacheError.message] in a template
    string: [messageOf] is how that ends for a thrown value.  For an [Error]
    it is its message; for [null] and [undefined], which have no properties,
    the read throws a TypeError. *)
Class SearchRuntime (W : Type) := {
  cacheManager : option (CacheManager W);
  tavilySearch : string → SearchParams → W → Completion SearchResponse * W;
  clockOf : W → Z;
  messageOf : Error → Completion string
}.

Section Service.
Context {W : Type} `{SearchRuntime W}.

Definition searchParamsOf (options : SearchOptions) : SearchParams :=
  mkSearchParams
    (default Basic (so_searchDepth options))
    (default true (so_includeAnswer options))
    (default 5 (so_limit options))
    (default News (so_type options))
    true
    (default false (so_includeImages options))
    (default false (so_includeImages options))
    (default 3 (so_days options)).

(** The [catch] block of both cache accesses:
    [elizaLogger.warn(`... ${cacheError.message}`)].  The search goes on
    unless reading the message throws. *)
Definition logCacheError (cacheError : Error) : Completion () :=
  match messageOf cacheError with
  | Normal _ => Normal ()
  | Throw e => Throw e
  end.

(** The first cache access of [search]: a cached response, if the runtime
    has a cache manager and the lookup finds one. *)
Definition cachedResponse (cacheKey : CacheKey) (w : W)
    : Completion (option SearchResponse) * W :=
  match cacheManager with
  | Some cm =>
      match cacheGet cm cacheKey w with
      | (Normal cachedResult, w1) => (Normal cachedResult, w1)
      | (Throw cacheError, w1) =>
          (match logCacheError cacheError with
           | Normal _ => Normal None
           | Throw e => Throw e
           end, w1)
      end
  | None => (Normal None, w)
  end.

(** The second cache access: storing the response, to expire [ttl] seconds
    from now. *)
Definition storeResponse (cacheKey : CacheKey) (response : SearchResponse)
    (searchParams : SearchParams) (w : W) : Completion () * W :=
  match cacheManager with
  | Some cm =>
      let ttl := determineTTL searchParams in
      match cacheSet cm cacheKey response (clockOf w + ttl * 1000) w with
      | (Normal _, w1) => (Normal (), w1)
      | (Throw cacheError, w1) => (logCacheError cacheError, w1)
      end
  | None => (Normal (), w)
  end.

(** [WebSearchService.search].  [options] is declared optional but read
    without a guard: reading a property of [undefined] throws.  Whatever is
    thrown inside the outer [try] is rethrown by its [catch]. *)
Definition search (q : string) (options : option SearchOptions) (w : W)
    : Completion SearchResponse * W :=
  match options with
  | None => (Throw "TypeError: Cannot read properties of undefined"%string, w)
  | Some options =>
      let searchParams := searchParamsOf options in
      let cacheKey := generateCacheKey q searchParams in
      match cachedResponse cacheKey w with
      | (Normal (Some cached), w1) => (Normal cached, w1)
      | (Normal None, w1) =>
          match tavilySearch q searchParams w1 with
          | (Normal response, w2) =>
              match storeResponse cacheKey response searchParams w2 with
              | (Normal _, w3) => (Normal response, w3)
              | (Throw e, w3) => (Throw e, w3)
              end
          | (Throw e, w2) => (Throw e, w2)
          end
      | (Throw e, w1) => (Throw e, w1)
      end
  end.

(** The call made by [fetchNewsForTopic]:
    [search(searchQuery, { type: "news", limit: 5 })], of which the pipeline
    reads [results]. *)
Definition newsSearch (q : string) (w : W)
    : Completion (option (list SearchResult)) * W :=
  let '(c, w') :=
    search q (Some (mkSearchOptions (Some 5) (Some News) None None None None)) w in
  (match c with
   | Normal response => Normal (resp_results response)
   | Throw e => Throw e
   end, w').

End Service.

Section ServiceSpec.
Context {W : Type} `{SearchRuntime W}.

(** The lookup threw a value whose message cannot be read, which throws
    [e]. *)
Definition lookupFails (cacheKey : CacheKey) (w : W) (e : Error) : Prop :=
  ∃ cm cacheError w1,
    cacheManager = Some cm
    ∧ cacheGet cm cacheKey w = (Throw cacheError, w1)
    ∧ messageOf cacheError = Throw e.

(** The lookup found nothing and left the world [w1]: there is no cache
    manager, or it returned nothing, or it threw a value whose message can
    be read. *)
Definition lookupMisses (cacheKey : CacheKey) (w w1 : W) : Prop :=
  (cacheManager = None ∧ w1 = w)
  ∨ ∃ cm, cacheManager = Some cm
      ∧ (cacheGet cm cacheKey w = (Normal None, w1)
         ∨ ∃ cacheError message,
             cacheGet cm cacheKey w = (Throw cacheError, w1)
             ∧ messageOf cacheError = Normal message).

(** Storing [response] until [expires] threw a value whose message cannot be
    read, which throws [e]. *)
Definition storeFails (cacheKey : CacheKey) (response : SearchResponse)
    (expires : Z) (w : W) (e : Error) : Prop :=
  ∃ cm cacheError w1,
    cacheManager = Some cm
    ∧ cacheSet cm cacheKey response expires w = (Throw cacheError, w1)
    ∧ messageOf cacheError = Throw e.

End ServiceSpec.

(** The time a response is kept, read off the options: [type] defaults to
    news and [days] to 3. *)
Definition ttlSecondsOf (options : SearchOptions) : Z :=
  match so_type options with
  | Some General => 1800
  | _ =>
      match so_days options with
      | Some d => if decide (d ≤ 1) then 300 else 900
      | None => 900
      end
  end.

End WebSearch.

(** A reference runtime for the web search service: the cache is a list of
    stored responses with their expiry, the provider gives a fixed answer,
    and the cache manager can be made to throw. *)
Module MemSearch.
Import WebSearch.

#[global] Instance SearchDepth_eq_dec : EqDecision SearchDepth.
Proof. solve_decision. Defined.

#[global] Instance SearchParams_eq_dec : EqDecision SearchParams.
Proof. solve_decision. Defined.

Record World := mkWorld {
  cached : list (CacheKey * SearchResponse * Z);
  clock : Z;
  provider : Completion SearchResponse;
  lookupFailure : option Error;
  storeFailure : option Error
}.

Definition lookupCached (k : CacheKey) (w : World) : option SearchResponse :=
  (λ entry, entry.1.2) <$>
    head (List.filter (λ entry, bool_decide (entry.1.1 = k)) (cached w)).

(** The thrown value described as "null" is [null]. *)
#[global] Instance runtime : SearchRuntime World := {|
  cacheManager :=
    Some (mkCacheManager World
            (λ k w, match lookupFailure w with
                    | Some e => (Throw e, w)
                    | None => (Normal (lookupCached k w), w)
                    end)
            (λ k response expires w,
               match storeFailure w with
               | Some e => (Throw e, w)
               | None =>
                   (Normal (),
                    mkWorld ((k, response, expires) :: cached w) (clock w)
                            (provider w) (lookupFailure w) (storeFailure w))
               end));
  tavilySearch q params w := (provider w, w);
  clockOf w := clock w;
  messageOf e :=
    if bool_decide (e = "null"%string)
    then Throw "TypeError: Cannot read properties of null (reading 'message')"%string
    else Normal e
|}.

Definition sampleResponse : SearchResponse :=
  mkSearchResponse None "latest news about technology" (Some [undatedResult]).

Definition newsOptions : SearchOptions :=
  mkSearchOptions (Some 5) (Some News) None None None None.

End MemSearch.

(** ** Starting the service

    [NewsMemoryService.initialize(runtime)] first initializes the web search
    service, which needs an API key, then reads the topics from the settings
    and installs the timers. *)

(** [WebSearchService.initialize] of a new service: it throws when
    [getSetting] does or when it returns no key. *)
Definition webSearchInitialize (st : Settings) : Completion () :=
  match runtimeSetting st "TAVILY_API_KEY" with
  | Normal apiKey =>
      if truthyStr apiKey then Normal ()
      else Throw "TAVILY_API_KEY is not set"%string
  | Throw e => Throw e
  end.

(** [x * k] in doubles, for an integer constant [k] above 0: the exact
    product, rounded. *)
Definition timesConstant (x : JsNumber) (k : Z) : JsNumber :=
  match x with
  | Finite n => roundToDouble (n * k)
  | other => other
  end.

(** [topic.interval * 60 * 1000], the delay handed to [setInterval]. *)
Definition delayOf (interval : Z) : JsNumber :=
  timesConstant (timesConstant (Finite interval) 60) 1000.

(** The period Node gives a repeating timer: a delay that is not within
    1 .. 2^31 - 1 is replaced by 1 millisecond. *)
Definition TIMEOUT_MAX : Z := 2 ^ 31 - 1.

Definition nodePeriod (after : JsNumber) : Z :=
  match after with
  | Finite d => if (1 <=? d) && (d <=? TIMEOUT_MAX) then d else 1
  | _ => 1
  end.

Module NewsMemoryService.
Import Scheduler.

(** [initialize(runtime)], as far as timers go.  The constructors of the
    two services complete; the first [fetchNews()] installs no timer and
    does not throw. *)
Definition initialize (st : Settings) (s : Service) : Completion () * Service :=
  if initialized s then (Normal (), s)
  else
    match webSearchInitialize st with
    | Normal _ => (Normal (), Scheduler.initialize (initializeTopics st) s)
    | Throw e => (Throw e, s)
    end.

(** The period of an installed timer. *)
Definition timerPeriod (t : Timer) : Z := nodePeriod (Finite (timer_delay t)).

End NewsMemoryService.

(** Settings with an API key and the given fetch interval, everything else
    left unset. *)
Definition settingsWithInterval (minutes : string) : Settings :=
  mkSettings
    (λ key, if bool_decide (key = "TAVILY_API_KEY"%string)
            then Normal (Some "tvly-key"%string)
            else if bool_decide (key = "NEWS_FETCH_INTERVAL_MINUTES"%string)
            then Normal (Some minutes)
            else Normal None)
    (λ _, None).

(** ** [NewsMemoryService.fetchNews]: collecting the topics' results

    The topics are fetched concurrently and [Promise.all] delivers their
    results in the order of the topics; [fetch i t] is how the fetch of the
    [i]-th topic [t] ended. *)

Record TopicResult := mkTopicResult {
  tr_topic : string;
  tr_items : list RAGKnowledgeItem;
  tr_success : bool
}.

(** The callback mapped over the topics, with its own [try]/[catch]. *)
Definition settle (singleTopic : string) (c : Completion (list RAGKnowledgeItem))
    : TopicResult :=
  match c with
  | Normal items => mkTopicResult singleTopic items true
  | Throw _ => mkTopicResult singleTopic [] false
  end.

(** The plain object that maps topics to items: its own properties, and its
    prototype once that is no longer [Object.prototype]. *)
Record TopicRecord := mkTopicRecord {
  ownItems : gmap string (list RAGKnowledgeItem);
  prototypeItems : option (list RAGKnowledgeItem)
}.

(** [{}]. *)
Definition emptyRecord : TopicRecord := mkTopicRecord ∅ None.

Definition protoKey : string := "__proto__".

(** [acc[key] = items].  Every key but one creates or overwrites an own
    property.  The key [__proto__] names the accessor inherited from
    [Object.prototype]: assigning an array to it makes the array the
    prototype of [acc] and creates no property. *)
Definition assign (key : string) (items : list RAGKnowledgeItem)
    (acc : TopicRecord) : TopicRecord :=
  if bool_decide (key = protoKey)
  then mkTopicRecord (ownItems acc) (Some items)
  else mkTopicRecord (<[key := items]> (ownItems acc)) (prototypeItems acc).

(** [{ [key]: items }]: a computed key in an object literal defines an own
    property, whatever the key. *)
Definition singletonRecord (key : string) (items : list RAGKnowledgeItem)
    : TopicRecord :=
  mkTopicRecord {[ key := items ]} None.

Record FetchSummary := mkFetchSummary {
  byTopic : TopicRecord;
  allItems : list RAGKnowledgeItem
}.

(** [results.reduce(...)] and [results.flatMap(...)]. *)
Definition summarize (rs : list TopicResult) : FetchSummary :=
  mkFetchSummary
    (foldl (λ acc r, assign (tr_topic r) (tr_items r) acc) emptyRecord rs)
    (rs ≫= tr_items).

(** The argument [topic?: string | string[]]. *)
Inductive TopicArg :=
| Unspecified
| OneTopic (t : string)
| Topics (ts : list string).

(** [!topic]: no argument, or the empty string. *)
Definition noTopic (topic : TopicArg) : bool :=
  match topic with
  | Unspecified => true
  | OneTopic t => bool_decide (t = EmptyString)
  | Topics _ => false
  end.

Definition fetchNews (configured : list TopicConfig) (topic : TopicArg)
    (fetch : nat → string → Completion (list RAGKnowledgeItem)) : FetchSummary :=
  if noTopic topic then
    let topics := topic_name <$> configured in
    summarize (imap (λ i singleTopic, settle singleTopic (fetch i singleTopic)) topics)
  else
    match topic with
    | Topics ts =>
        summarize (imap (λ i singleTopic, settle singleTopic (fetch i singleTopic)) ts)
    | OneTopic t =>
        match fetch 0%nat t with
        | Normal items => mkFetchSummary (singletonRecord t items) items
        | Throw _ => mkFetchSummary emptyRecord []
        end
    | Unspecified => mkFetchSummary emptyRecord []
    end.

(** What a topic contributes: its items, or nothing when its fetch threw. *)
Definition contribution (c : Completion (list RAGKnowledgeItem))
    : list RAGKnowledgeItem :=
  match c with
  | Normal items => items
  | Throw _ => []
  end.

(** ** Relative dates for display

    [formatDate] of the actions and [getRelativeTimeString] of the news
    provider, with the current time as an argument. *)

(** [n !== 1 ? 's' : ''] and [n > 1 ? 's' : '']. *)
Definition pluralUnlessOne (n : Z) : string :=
  if n =? 1 then EmptyString else "s"%string.

Definition pluralAboveOne (n : Z) : string :=
  if 1 <? n then "s"%string else EmptyString.

Section Display.
(** [Date.prototype.toLocaleDateString], which depends on the locale. *)
Variable toLocaleDateString : Z → string.

Definition formatDate (now date : Z) : string :=
  let diffMs := now - date in
  let diffMinutes := diffMs / (1000 * 60) in
  if diffMinutes <? 60 then
    (pretty diffMinutes ++ " minute" ++ pluralUnlessOne diffMinutes ++ " ago")%string
  else
    let diffHours := diffMinutes / 60 in
    if diffHours <? 24 then
      (pretty diffHours ++ " hour" ++ pluralUnlessOne diffHours ++ " ago")%string
    else
      let diffDays := diffHours / 24 in
      if diffDays <? 7 then
        (pretty diffDays ++ " day" ++ pluralUnlessOne diffDays ++ " ago")%string
      else toLocaleDateString date.

End Display.

Definition getRelativeTimeString (now date : Z) : string :=
  let diffMs := now - date in
  let diffHours := diffMs / (1000 * 60 * 60) in
  if diffHours <? 1 then "Just now"%string
  else if diffHours <? 24 then
    (pretty diffHours ++ " hour" ++ pluralAboveOne diffHours ++ " ago")%string
  else
    let diffDays := diffHours / 24 in
    (pretty diffDays ++ " day" ++ pluralAboveOne diffDays ++ " ago")%string.

(** * Properties *)

(** ** Facts about the JavaScript helpers *)

Lemma Qltb_daysBetween (from to n : Z) :
  Qltb (daysBetween from to) (inject_Z n) = true ↔ to - from < n * msPerDay.
Proof.
  unfold Qltb, daysBetween. rewrite negb_true_iff.
  rewrite <- not_true_iff_false, Qle_bool_iff.
  unfold Qle, Qdiv, Qmult, Qinv, inject_Z, msPerDay. simpl. lia.
Qed.

Lemma Qltb_daysBetween_false (from to n : Z) :
  Qltb (daysBetween from to) (inject_Z n) = false ↔ n * msPerDay ≤ to - from.
Proof.
  rewrite <- not_true_iff_false, Qltb_daysBetween. lia.
Qed.

Section SortFacts.
Context {A : Type} (key : A → Z) (descending : A → A → Z).

(** The comparator of a newest-first sort. *)
Hypothesis descending_eq : ∀ a b, descending a b = key b - key a.







End SortFacts.

Lemma slice0_take {A} (xs : list A) (n : Z) :
  0 ≤ n → slice0 xs n = take (Z.to_nat n) xs.
Proof. intros Hn. unfold slice0. by destruct (Z.ltb_spec n 0); [lia|]. Qed.

Lemma slice0_length_le {A} (xs : list A) (n : Z) :
  0 ≤ n → Z.of_nat (length (slice0 xs n)) ≤ n.
Proof. intros Hn. rewrite slice0_take, length_take by done. lia. Qed.

(** ** The complexity multiplier *)

(** C5. The complexity multiplier is 1, plus 5, 4 or 3 when both date bounds
    are given and the range spans fewer than 7 days, fewer than 30 days, or
    more, plus 2 when exactly one bound is given, plus 1 for a non-empty
    topics filter, plus 1 for a non-empty sources filter; a 3-day range
    gives 6, a 20-day range 5, and no bounds with topics and sources 3. *)
Theorem estimateFilterComplexity_spec :
  (∀ options,
     estimateFilterComplexity options =
       1 + complexityBonusForDates options
         + (if nonEmptyArr (opt_topics options) then 1 else 0)
         + (if nonEmptyArr (opt_sources options) then 1 else 0))
  ∧ (∀ q c l from,
       estimateFilterComplexity
         (mkOptions q c l (Some from) (Some (from + 3 * msPerDay)) None None) = 6)
  ∧ (∀ q c l from,
       estimateFilterComplexity
         (mkOptions q c l (Some from) (Some (from + 20 * msPerDay)) None None) = 5)
  ∧ (∀ q c l s ss t ts,
       estimateFilterComplexity
         (mkOptions q c l None None (Some (s :: ss)) (Some (t :: ts))) = 3).
Proof.
  assert (Hgen : ∀ options,
     estimateFilterComplexity options =
       1 + complexityBonusForDates options
         + (if nonEmptyArr (opt_topics options) then 1 else 0)
         + (if nonEmptyArr (opt_sources options) then 1 else 0)).
  { intros [q c l from to ss ts].
    unfold estimateFilterComplexity, complexityBonusForDates. simpl.
    destruct from as [from|], to as [to|]; simpl.
    - destruct (Qltb (daysBetween from to) (inject_Z 7)) eqn:H7.
      + apply Qltb_daysBetween in H7. rewrite decide_True by done.
        destruct (nonEmptyArr ts), (nonEmptyArr ss); lia.
      + apply Qltb_daysBetween_false in H7. rewrite decide_False by lia.
        destruct (Qltb (daysBetween from to) (inject_Z 30)) eqn:H30.
        * apply Qltb_daysBetween in H30. rewrite decide_True by done.
          destruct (nonEmptyArr ts), (nonEmptyArr ss); lia.
        * apply Qltb_daysBetween_false in H30. rewrite decide_False by lia.
          destruct (nonEmptyArr ts), (nonEmptyArr ss); lia.
    - destruct (nonEmptyArr ts), (nonEmptyArr ss); lia.
    - destruct (nonEmptyArr ts), (nonEmptyArr ss); lia.
    - destruct (nonEmptyArr ts), (nonEmptyArr ss); lia. }
  split; [exact Hgen|].
  repeat split; intros; rewrite Hgen; unfold complexityBonusForDates; simpl;
    repeat case_decide; unfold msPerDay in *; lia.
Qed.

(** ** The query cache *)

Section CacheFacts.
Context {W : Type} `{Host W}.

Lemma getCachedNews_run (options : NewsSearchOptions) (s : State W) :
  getCachedNews options s =
    (Normal
       match newsCache s !! generateCacheKey options with
       | Some e =>
           if decide (dateNow (world s) - timestamp e < CACHE_TTL)
           then Some (results e) else None
       | None => None
       end, s).
Proof.
  unfold getCachedNews, mbind, M_bind, getCache, now, mret, M_ret. simpl.
  destruct (newsCache s !! generateCacheKey options) as [e|]; [|done].
  destruct (Z.ltb_spec (dateNow (world s) - timestamp e) CACHE_TTL).
  - by rewrite decide_True.
  - by rewrite decide_False by lia.
Qed.

Lemma getCachedNews_live options (s : State W) e :
  liveEntry options s e → getCachedNews options s = (Normal (Some (results e)), s).
Proof.
  intros [Hl Ha]. rewrite getCachedNews_run, Hl. by rewrite decide_True.
Qed.

Lemma getCachedNews_miss options (s : State W) :
  (∀ e, ¬ liveEntry options s e) → getCachedNews options s = (Normal None, s).
Proof.
  intros Hn. rewrite getCachedNews_run.
  destruct (newsCache s !! generateCacheKey options) as [e|] eqn:Hl; [|done].
  case_decide; [|done]. by destruct (Hn e).
Qed.

Lemma servedFromCache_iff_live options (s : State W) :
  servedFromCache options s ↔ ∃ e, liveEntry options s e.
Proof.
  unfold servedFromCache. rewrite getCachedNews_run. simpl. split.
  - intros [rs Hrs].
    destruct (newsCache s !! generateCacheKey options) as [e|] eqn:Hl; [|done].
    case_decide; [|done]. by exists e.
  - intros [e [Hl Ha]]. rewrite Hl. rewrite decide_True by done.
    by exists (results e).
Qed.

Lemma not_served_not_live options (s : State W) :
  ¬ servedFromCache options s → ∀ e, ¬ liveEntry options s e.
Proof.
  intros Hmiss e He. apply Hmiss. apply servedFromCache_iff_live. by exists e.
Qed.

Lemma searchNews_hit options (s : State W) e :
  liveEntry options s e → searchNews options s = (Normal (results e), s).
Proof.
  intros Hlive. unfold searchNews, tryCatch, mbind, M_bind.
  by rewrite (getCachedNews_live _ _ _ Hlive).
Qed.

Lemma setCachedNews_run options rs (s : State W) :
  setCachedNews options rs s =
    (Normal (),
     mkState (world s) (trace s)
       (filter (λ kv, ¬ (CACHE_TTL < dateNow (world s) - timestamp kv.2))
          (<[generateCacheKey options := mkCacheEntry (dateNow (world s)) rs]>
             (newsCache s)))).
Proof. done. Qed.

Lemma setCachedNews_lookup options rs (s : State W) :
  newsCache (setCachedNews options rs s).2 !! generateCacheKey options =
    Some (mkCacheEntry (dateNow (world s)) rs).
Proof.
  rewrite setCachedNews_run. simpl.
  apply map_lookup_filter_Some. split; [apply lookup_insert_eq|].
  simpl. unfold CACHE_TTL. lia.
Qed.

(** After a miss, the outcome of a search does not depend on what the cache
    holds. *)
Lemma searchNews_miss_result options (s s' : State W) :
  world s = world s' →
  (∀ e, ¬ liveEntry options s e) →
  (∀ e, ¬ liveEntry options s' e) →
  (searchNews options s).1 = (searchNews options s').1.
Proof.
  intros Hw Hs Hs'. unfold searchNews, tryCatch, mbind, M_bind.
  rewrite (getCachedNews_miss _ _ Hs), (getCachedNews_miss _ _ Hs').
  destruct (noQueryNoContext options).
  - unfold call. simpl. rewrite <- Hw.
    destruct (listAllKnowledge (world s)) as [[all|err] w1]; done.
  - unfold call. simpl. rewrite <- Hw.
    destruct (getKnowledge (firstBatchParams options) (world s)) as [[batch|err] w1];
      [|done].
    simpl. case_bool_decide; [done|].
    destruct (_ <? _); [|done].
    simpl.
    destruct (getKnowledge (largerBatchParams options) w1) as [[big|err] w2]; done.
Qed.

End CacheFacts.

Section CacheClaims.
Context {W : Type} `{Host W}.

(** C10. The cache key is built from query, fromDate, toDate, sources and
    topics only: options that differ in limit and conversationContext alone
    have equal keys, and once a result list has been cached for the first,
    a search with the second within the TTL returns that list unchanged. *)
Theorem cache_key_ignores_limit_and_context (o1 o2 : NewsSearchOptions) :
  query o1 = query o2 →
  fromDate o1 = fromDate o2 →
  toDate o1 = toDate o2 →
  opt_sources o1 = opt_sources o2 →
  opt_topics o1 = opt_topics o2 →
  generateCacheKey o1 = generateCacheKey o2
  ∧ ∀ (s s' : State W) rs,
      newsCache s' = newsCache (setCachedNews o1 rs s).2 →
      dateNow (world s') - dateNow (world s) < 5 * 60 * 1000 →
      searchNews o2 s' = (Normal rs, s').
Proof.
  intros Hq Hf Ht Hs Htp.
  assert (Hk : generateCacheKey o1 = generateCacheKey o2).
  { unfold generateCacheKey. by rewrite Hq, Hf, Ht, Hs, Htp. }
  split; [exact Hk|].
  intros s s' rs Hc Hage.
  apply (searchNews_hit o2 s' (mkCacheEntry (dateNow (world s)) rs)).
  split; simpl; [|done].
  by rewrite Hc, <- Hk, setCachedNews_lookup.
Qed.

End CacheClaims.

(** Five minutes and one second after it was stored, an entry is not served. *)
Corollary not_served_after_five_minutes_and_a_second
    {W} `{Host W} (options : NewsSearchOptions) (s : State W) (e : CacheEntry) :
  newsCache s !! generateCacheKey options = Some e →
  dateNow (world s) = timestamp e + 5 * 60 * 1000 + 1000 →
  ¬ servedFromCache options s.
Proof.
  intros Hl Hnow. rewrite servedFromCache_iff_live.
  intros (e' & Hl' & Hage). rewrite Hl in Hl'. injection Hl' as <-. lia.
Qed.

(** A search on the list-all path caches what it returns: the same options
    within five minutes, on an unchanged cache, get the same list back. *)
Corollary searchNews_repeat_within_ttl
    {W} `{Host W} (options : NewsSearchOptions) (s s' : State W) allItems w1 :
  ¬ servedFromCache options s →
  noQueryNoContext options = true →
  listAllKnowledge (world s) = (Normal allItems, w1) →
  newsCache s' = newsCache (searchNews options s).2 →
  dateNow (world s') - dateNow w1 < 5 * 60 * 1000 →
  ∃ rs, (searchNews options s).1 = Normal rs
        ∧ searchNews options s' = (Normal rs, s').
Proof.
  intros Hmiss Hpath Hlist Hcache Hage.
  pose proof (not_served_not_live _ _ Hmiss) as Hdead.
  set (rs := slice0 (sortBy newestFirst (filterNewsResults allItems options))
                    (desiredCountOf options)).
  set (s1 := mkState w1 (trace s ++ [(ListAllKnowledge, Completed)]) (newsCache s)).
  assert (Hrun : searchNews options s = (Normal rs, (setCachedNews options rs s1).2)).
  { unfold searchNews, tryCatch, mbind, M_bind.
    rewrite (getCachedNews_miss _ _ Hdead), Hpath.
    unfold call. cbv zeta. by rewrite Hlist. }
  exists rs. split; [by rewrite Hrun|].
  apply (searchNews_hit options s' (mkCacheEntry (dateNow w1) rs)).
  split; [|done]. rewrite Hcache, Hrun. apply (setCachedNews_lookup options rs s1).
Qed.

(** The later call can get more entries than its own limit allows. *)
Example later_call_gets_the_longer_cached_list :
  let s := freshState (mkMem [sampleEntry; undatedEntry] 5000 false []) in
  let s1 := (searchNews noOptions s).2 in
  (searchNews (mkOptions None (Some "chat"%string) (Some 1) None None None None) s1).1
    = Normal [sampleEntry; undatedEntry].
Proof. by vm_compute. Qed.

Lemma cache_key_ignores_limit_and_context_witness :
  let o1 := mkOptions None None None None None None None in
  let o2 := mkOptions None (Some "chat"%string) (Some 1) None None None None in
  let rs := [newsEntry "a" "A" "x.org" 10 []; newsEntry "b" "B" "x.org" 5 []] in
  let s := freshState (mkMem [] 0 false []) in
  generateCacheKey o1 = generateCacheKey o2
  ∧ searchNews o2 (setCachedNews o1 rs s).2 = (Normal rs, (setCachedNews o1 rs s).2).
Proof.
  intros o1 o2 rs s.
  destruct (cache_key_ignores_limit_and_context (W := MemWorld) o1 o2
              eq_refl eq_refl eq_refl eq_refl eq_refl) as [Hk Hserve].
  split; [exact Hk|].
  apply (Hserve s). - done. - simpl. lia.
Defined.

(** ** The post-filter *)

Lemma some_includes (xs ys : list string) :
  some (includes xs) ys = true ↔ ∃ y, y ∈ ys ∧ y ∈ xs.
Proof.
  unfold some, includes. rewrite existsb_exists. split.
  - intros [y [Hin Hy]]. exists y. split; [by apply list_elem_of_In|].
    by apply bool_decide_eq_true in Hy.
  - intros [y [Hin Hy]]. exists y. split; [by apply list_elem_of_In|].
    by apply bool_decide_eq_true.
Qed.

Lemma keepNewsItem_spec (options : NewsSearchOptions) (item : RAGKnowledgeItem) :
  keepNewsItem options item = true ↔ matchesFilters options item.
Proof.
  unfold keepNewsItem, matchesFilters.
  destruct options as [q c l from to srcs tps]. simpl.
  generalize (metadataOf item). intros [ttl src u p ty mine im ish]. simpl.
  case_bool_decide as Hty; simpl; [|split; [done|tauto]].
  assert (Hfrom : (match from, p with
                   | Some f, Some p' => p' <? f | _, _ => false end) = false
                  ↔ ∀ p' f, p = Some p' → from = Some f → f ≤ p').
  { destruct from as [f|], p as [p'|]; try (split; [intros; congruence|done]).
    rewrite Z.ltb_ge. split.
    - intros Hle ? ? [= <-] [= <-]. done.
    - intros Hall. by apply Hall. }
  assert (Hto : (match to, p with
                 | Some t, Some p' => t <? p' | _, _ => false end) = false
                ↔ ∀ p' t, p = Some p' → to = Some t → p' ≤ t).
  { destruct to as [t|], p as [p'|]; try (split; [intros; congruence|done]).
    rewrite Z.ltb_ge. split.
    - intros Hle ? ? [= <-] [= <-]. done.
    - intros Hall. by apply Hall. }
  assert (Hsrc : (nonEmptyArr srcs &&
                  (negb (truthyStr src) ||
                   negb (includes (default [] srcs) (default EmptyString src)))) = false
                 ↔ ∀ ss, srcs = Some ss → ss ≠ [] →
                     ∃ x, src = Some x ∧ x ≠ EmptyString ∧ x ∈ ss).
  { destruct srcs as [[|s0 ss]|]; simpl.
    - split; [intros _ ? [= <-] ?; done|done].
    - unfold includes. destruct src as [x|]; simpl.
      + case_bool_decide as Hx; simpl.
        * subst x. split; [done|]. intros Hall.
          destruct (Hall _ eq_refl) as (x & [= <-] & Hne & _); done.
        * case_bool_decide as Hin; simpl.
          -- split; [|done]. intros _ ? [= <-] _. by exists x.
          -- split; [done|]. intros Hall.
             destruct (Hall _ eq_refl) as (x' & [= <-] & _ & Hin'); done.
      + split; [done|]. intros Hall.
        destruct (Hall _ eq_refl) as (x' & ? & _); done.
    - split; [intros _ ? ?; done|done]. }
  assert (Htp : (nonEmptyArr tps &&
                 (bool_decide (default [] mine = []) ||
                  negb (some (includes (default [] tps)) (default [] mine)))) = false
                ↔ ∀ ts, tps = Some ts → ts ≠ [] →
                    ∃ tp ms, mine = Some ms ∧ tp ∈ ms ∧ tp ∈ ts).
  { destruct tps as [[|t0 ts]|]; simpl.
    - split; [intros _ ? [= <-] ?; done|done].
    - destruct (some (includes (t0 :: ts)) (default [] mine)) eqn:Hsome.
      + apply some_includes in Hsome as (tp & Hin & Hin').
        destruct mine as [ms|]; simpl in *; [|by apply elem_of_nil in Hin].
        case_bool_decide as Hnil; [subst ms; by apply elem_of_nil in Hin|].
        simpl. split; [|done]. intros _ ? [= <-] _. by exists tp, ms.
      + rewrite orb_true_r. split; [done|]. intros Hall.
        destruct (Hall _ eq_refl) as (tp & ms & -> & Hin & Hin'); [done|].
        apply not_true_iff_false in Hsome. destruct Hsome.
        apply some_includes. by exists tp.
    - split; [intros _ ? ?; done|done]. }
  destruct (match from, p with Some f, Some p' => p' <? f | _, _ => false end) eqn:E1.
  { split; [done|]. intros (_ & H1 & _). by apply Hfrom in H1. }
  destruct (match to, p with Some t, Some p' => t <? p' | _, _ => false end) eqn:E2.
  { split; [done|]. intros (_ & _ & H2 & _). by apply Hto in H2. }
  destruct (nonEmptyArr srcs && _) eqn:E3.
  { split; [done|]. intros (_ & _ & _ & H3 & _). by apply Hsrc in H3. }
  destruct (nonEmptyArr tps && _) eqn:E4.
  { split; [done|]. intros (_ & _ & _ & _ & H4). by apply Htp in H4. }
  split; [|done]. intros _.
  split; [done|]. split; [by apply Hfrom|]. split; [by apply Hto|].
  split; [by apply Hsrc|by apply Htp].
Qed.

#[global] Instance matchesFilters_dec options item : Decision (matchesFilters options item).
Proof.
  destruct (keepNewsItem options item) eqn:Hk.
  - left. by apply keepNewsItem_spec.
  - right. rewrite <- keepNewsItem_spec. congruence.
Defined.

Lemma filterNewsResults_spec (rs : list RAGKnowledgeItem) (options : NewsSearchOptions) :
  filterNewsResults rs options = filter (matchesFilters options) rs.
Proof.
  unfold filterNewsResults. induction rs as [|item rs IH]; [done|].
  simpl. rewrite filter_cons, IH.
  destruct (keepNewsItem options item) eqn:Hk.
  - rewrite decide_True; [done|]. by apply keepNewsItem_spec.
  - rewrite decide_False; [done|]. rewrite <- keepNewsItem_spec. congruence.
Qed.

(** ** Search *)

Section SearchClaims.
Context {W : Type} `{Host W}.

Lemma setCachedNews_trace options rs (s : State W) :
  trace (setCachedNews options rs s).2 = trace s.
Proof. by rewrite setCachedNews_run. Qed.


(** Every search that misses the cache is one of the runs of [SearchRun]. *)
Lemma searchNews_miss_run (options : NewsSearchOptions) (s : State W) :
  ¬ servedFromCache options s →
  ∃ rs s', searchNews options s = (Normal rs, s') ∧ SearchRun options s rs s'.
Proof.
  intros Hmiss. pose proof (not_served_not_live _ _ Hmiss) as Hdead.
  unfold searchNews, tryCatch, mbind, M_bind.
  rewrite (getCachedNews_miss _ _ Hdead).
  destruct (noQueryNoContext options) eqn:Hpath; unfold call; cbv zeta.
  - destruct (listAllKnowledge (world s)) as [[allItems|e] w'] eqn:Hlist.
    + eexists _, _. split; [reflexivity|]. by apply RunListed.
    + eexists _, _. split; [reflexivity|]. by eapply RunListingFailed.
  - destruct (getKnowledge (firstBatchParams options) (world s))
      as [[batch|e] w1] eqn:Hfirst; cbv beta iota.
    + case_bool_decide as Hlen.
      * destruct batch; [|done].
        eexists _, _. split; [reflexivity|]. by apply RunEmptyBatch.
      * assert (batch ≠ []) by (by intros ->).
        destruct (Z.ltb_spec (Z.of_nat (length (filterNewsResults batch options)))
                    (desiredCountOf options)) as [Hlt|Hge].
        -- cbn [world trace newsCache].
           destruct (getKnowledge (largerBatchParams options) w1)
             as [[largerBatch|e] w2] eqn:Hsecond; cbv beta iota; cbn [outcomeOf].
           ++ eexists _, _. split; [reflexivity|].
              rewrite <- app_assoc. by eapply RunEscalated.
           ++ eexists _, _. split; [reflexivity|].
              rewrite <- app_assoc. by eapply RunEscalationFailed.
        -- eexists _, _. split; [reflexivity|]. by apply RunEnough.
    + eexists _, _. split; [reflexivity|]. by eapply RunQueryFailed.
Qed.

Lemma setCachedNews_world options rs (s : State W) :
  world (setCachedNews options rs s).2 = world s.
Proof. by rewrite setCachedNews_run. Qed.

Lemma newCalls_app (s s' : State W) calls :
  trace s' = trace s ++ calls → newCalls s s' = calls.
Proof. intros Ht. unfold newCalls. by rewrite Ht, drop_app_length. Qed.

Lemma slice0_prefix {A} (xs : list A) (n : Z) : slice0 xs n `prefix_of` xs.
Proof. unfold slice0. destruct (n <? 0); apply prefix_take. Qed.


(** The limit, the multiplier and the two queries of the specification are
    those the code computes. *)
Lemma desiredCountOf_effectiveLimit (options : NewsSearchOptions) :
  desiredCountOf options = effectiveLimit options.
Proof.
  unfold desiredCountOf, effectiveLimit. destruct (limit options) as [n|]; [|done].
  destruct (Z.eqb_spec n 0); [by rewrite decide_True|by rewrite decide_False].
Qed.

Lemma estimateFilterComplexity_multiplier (options : NewsSearchOptions) :
  estimateFilterComplexity options = complexityMultiplier options.
Proof.
  destruct options as [q c l from to ss ts].
  unfold estimateFilterComplexity, complexityMultiplier, complexityBonusForDates. simpl.
  destruct from as [from|], to as [to|]; simpl;
    try (destruct (nonEmptyArr ts), (nonEmptyArr ss); lia).
  destruct (Qltb (daysBetween from to) (inject_Z 7)) eqn:H7.
  - apply Qltb_daysBetween in H7. rewrite decide_True by done.
    destruct (nonEmptyArr ts), (nonEmptyArr ss); lia.
  - apply Qltb_daysBetween_false in H7. rewrite decide_False by lia.
    destruct (Qltb (daysBetween from to) (inject_Z 30)) eqn:H30.
    + apply Qltb_daysBetween in H30. rewrite decide_True by done.
      destruct (nonEmptyArr ts), (nonEmptyArr ss); lia.
    + apply Qltb_daysBetween_false in H30. rewrite decide_False by lia.
      destruct (nonEmptyArr ts), (nonEmptyArr ss); lia.
Qed.

Lemma queryOrEmpty_default (options : NewsSearchOptions) :
  queryOrEmpty options = default EmptyString (query options).
Proof.
  unfold queryOrEmpty, truthyStr. destruct (query options) as [q|]; [|done].
  case_bool_decide; [by subst|done].
Qed.

Lemma firstBatchParams_firstQuery (options : NewsSearchOptions) :
  firstBatchParams options = firstQuery options.
Proof.
  unfold firstBatchParams, firstQuery.
  by rewrite queryOrEmpty_default, desiredCountOf_effectiveLimit,
    estimateFilterComplexity_multiplier.
Qed.

Lemma largerBatchParams_escalatedQuery (options : NewsSearchOptions) :
  largerBatchParams options = escalatedQuery options.
Proof.
  unfold largerBatchParams, escalatedQuery.
  by rewrite queryOrEmpty_default, desiredCountOf_effectiveLimit,
    estimateFilterComplexity_multiplier.
Qed.





(** C6. On the query path, after a cache miss, the first store query asks
    for limit × complexity entries (limit is [options.limit], or 10 when it
    is absent or 0).  When it returns a batch: an empty batch ends the
    search with an empty result and no further query; a batch with at least
    limit filtered matches is sorted and cut without further query;
    otherwise exactly one more query, for limit × complexity × 10 entries,
    is issued and its filtered matches are appended to those of the first
    batch (if it throws, the result is empty).  No search issues a third
    query. *)
Theorem searchNews_escalates_at_most_once
    (options : NewsSearchOptions) (s : State W) batch w1 :
  ¬ servedFromCache options s →
  noQueryNoContext options = false →
  getKnowledge (firstQuery options) (world s) = (Normal batch, w1) →
  let wanted := effectiveLimit options in
  let matching := filter (matchesFilters options) batch in
  let first := (GetKnowledge (firstQuery options), Completed) in
  let r := searchNews options s in
  (batch = [] → r.1 = Normal [] ∧ trace r.2 = trace s ++ [first])
  ∧ (batch ≠ [] → wanted ≤ Z.of_nat (length matching) →
       r.1 = Normal (slice0 (sortBy newestFirst matching) wanted)
       ∧ trace r.2 = trace s ++ [first])
  ∧ (batch ≠ [] → Z.of_nat (length matching) < wanted →
       ∀ c w2, getKnowledge (escalatedQuery options) w1 = (c, w2) →
         trace r.2 =
           trace s ++ [first; (GetKnowledge (escalatedQuery options), outcomeOf c)]
         ∧ (∀ largerBatch, c = Normal largerBatch →
              r.1 = Normal (slice0 (sortBy newestFirst
                                      (matching ++
                                       filter (matchesFilters options) largerBatch))
                                   wanted))
         ∧ (∀ e, c = Throw e → r.1 = Normal [])).
Proof.
  intros Hmiss Hpath Hfirst wanted matching first r.
  subst wanted matching first.
  rewrite <- !filterNewsResults_spec, <- !desiredCountOf_effectiveLimit.
  rewrite <- !firstBatchParams_firstQuery, <- !largerBatchParams_escalatedQuery.
  rewrite <- firstBatchParams_firstQuery in Hfirst.
  set (desiredCount := desiredCountOf options).
  set (matching := filterNewsResults batch options).
  set (first := (GetKnowledge (firstBatchParams options), Completed)).
  pose proof (not_served_not_live _ _ Hmiss) as Hdead.
  assert (Hr : r =
    let s1 := mkState w1 (trace s ++ [first]) (newsCache s) in
    if bool_decide (length batch = 0%nat) then (Normal [], s1)
    else if Z.of_nat (length matching) <? desiredCount then
      let '(c, w2) := getKnowledge (largerBatchParams options) w1 in
      let s2 := mkState w2 (trace s1 ++ [(GetKnowledge (largerBatchParams options),
                                           outcomeOf c)]) (newsCache s) in
      match c with
      | Normal largerBatch =>
          let _r := slice0 (sortBy newestFirst
                              (matching ++ filterNewsResults largerBatch options))
                           desiredCount in
          (Normal _r, (setCachedNews options _r s2).2)
      | Throw _ => (Normal [], s2)
      end
    else
      let _r := slice0 (sortBy newestFirst matching) desiredCount in
      (Normal _r, (setCachedNews options _r s1).2)).
  { subst r. unfold searchNews, tryCatch, mbind, M_bind.
    rewrite (getCachedNews_miss _ _ Hdead), Hpath.
    unfold call. simpl. rewrite Hfirst. simpl.
    case_bool_decide; [done|].
    fold matching desiredCount.
    destruct (Z.of_nat (length matching) <? desiredCount); [|done].
    simpl. destruct (getKnowledge (largerBatchParams options) w1) as [[big|err] w2]; done. }
  split; [|split].
  - intros ->. by rewrite Hr.
  - intros Hne Hge. rewrite Hr. cbv zeta.
    rewrite bool_decide_false by (by destruct batch).
    destruct (Z.ltb_spec (Z.of_nat (length matching)) desiredCount); [lia|].
    cbn [fst snd]. by rewrite setCachedNews_trace.
  - intros Hne Hlt c w2 Hsecond. rewrite Hr. cbv zeta.
    rewrite bool_decide_false by (by destruct batch).
    destruct (Z.ltb_spec (Z.of_nat (length matching)) desiredCount); [|lia].
    rewrite Hsecond. destruct c as [big|err]; cbn [fst snd].
    + rewrite setCachedNews_trace. cbn [trace]. rewrite <- app_assoc.
      split; [done|]. split; [|by intros ? [=]].
      intros ? [= <-]. by rewrite <- filterNewsResults_spec.
    + cbn [trace]. rewrite <- app_assoc.
      split; [done|]. split; [by intros ? [=]|done].
Qed.

(** C7. A search is served from the cache if and only if the cache holds an
    entry under the normalised key whose age is strictly below five minutes;
    it then returns the stored results unchanged, issuing no store call.  An
    entry aged five minutes or more is treated as absent: the search is not
    served from the cache and returns what it returns without that entry.
    The entry is created by the search that missed: when all its store calls
    completed (and, with query text or context, the first batch was not
    empty) it stores what it returns under the key, stamped with the time of
    storing; a repeat with the same options on that cache less than five
    minutes later gets the same list back, and one five minutes later or
    more is not served from the cache. *)
Theorem search_served_from_cache_iff (options : NewsSearchOptions) (s : State W) :
  (servedFromCache options s ↔ ∃ e, liveEntry options s e)
  ∧ (∀ e, liveEntry options s e → searchNews options s = (Normal (results e), s))
  ∧ (∀ e, newsCache s !! generateCacheKey options = Some e →
          5 * 60 * 1000 ≤ dateNow (world s) - timestamp e →
          ¬ servedFromCache options s ∧
          (searchNews options s).1 =
            (searchNews options
               (mkState (world s) (trace s)
                        (delete (generateCacheKey options) (newsCache s)))).1)
  ∧ (¬ servedFromCache options s →
     ∀ rs s1, searchNews options s = (Normal rs, s1) →
       (∀ c, (c, Threw) ∉ newCalls s s1) →
       (noQueryNoContext options = false →
        ∀ w1, getKnowledge (firstQuery options) (world s) ≠ (Normal [], w1)) →
       newsCache s1 !! generateCacheKey options
         = Some (mkCacheEntry (dateNow (world s1)) rs)
       ∧ ∀ s2 : State W, newsCache s2 = newsCache s1 →
           (dateNow (world s2) - dateNow (world s1) < 5 * 60 * 1000 →
            searchNews options s2 = (Normal rs, s2))
           ∧ (5 * 60 * 1000 ≤ dateNow (world s2) - dateNow (world s1) →
              ¬ servedFromCache options s2)).
Proof.
  pose proof (servedFromCache_iff_live options s) as Hiff.
  split; [exact Hiff|]. split; [|split].
  - intros e He. by apply searchNews_hit.
  - intros e Hl Hage.
    assert (Hdead : ∀ e', ¬ liveEntry options s e').
    { intros e' [Hl' Ha']. rewrite Hl in Hl'. injection Hl' as <-. lia. }
    split.
    + rewrite Hiff. intros [e' He']. by apply (Hdead e').
    + apply searchNews_miss_result; [done|done|].
      intros e' [Hl' _]. simpl in Hl'. by rewrite lookup_delete_eq in Hl'.
  - intros Hmiss rs s1 Hrun Hok Hbatch.
    destruct (searchNews_miss_run options s Hmiss) as (rs' & s' & Hrun' & Hcase).
    rewrite Hrun in Hrun'. injection Hrun' as -> ->.
    assert (Hstored : newsCache s' !! generateCacheKey options
                        = Some (mkCacheEntry (dateNow (world s')) rs')).
    { destruct Hcase;
        try (rewrite setCachedNews_world; apply setCachedNews_lookup);
        exfalso.
      - eapply Hok. unfold newCalls. cbn [trace]. rewrite drop_app_length. by left.
      - eapply Hok. unfold newCalls. cbn [trace]. rewrite drop_app_length. by left.
      - eapply (Hbatch ltac:(assumption)).
        rewrite <- firstBatchParams_firstQuery. eassumption.
      - eapply Hok. unfold newCalls. cbn [trace]. rewrite drop_app_length.
        right. by left. }
    split; [exact Hstored|]. intros s2 Hcache. split.
    + intros Hage.
      apply (searchNews_hit options s2 (mkCacheEntry (dateNow (world s')) rs')).
      split; [by rewrite Hcache|done].
    + intros Hage. rewrite servedFromCache_iff_live.
      intros (e & Hl & Ha). rewrite Hcache, Hstored in Hl. injection Hl as <-.
      simpl in Ha. lia.
Qed.

End SearchClaims.



(** A limit of 0 is replaced by 10, and an empty source never matches a
    sources filter, even one that lists the empty string. *)
Example searchNews_limit_zero_and_empty_source :
  (searchNews (mkOptions None None (Some 0) None None None None)
              (freshState (mkMem [sampleEntry] 5000 false []))).1
    = Normal [sampleEntry]
  ∧ keepNewsItem (mkOptions None None None None None (Some [EmptyString]) None)
                 (newsEntry "id-3" "No source" EmptyString 1000 []) = false.
Proof. by vm_compute. Qed.

Lemma searchNews_escalates_at_most_once_witness :
  let s := freshState (mkMem mixedStore 5000 false []) in
  trace (searchNews technologyQuery s).2 =
    [(GetKnowledge (mkParams (Some "chips"%string) 4 None), Completed);
     (GetKnowledge (mkParams (Some "chips"%string) 40 None), Completed)]
  ∧ (searchNews technologyQuery s).1 = Normal [chipsB; chipsC].
Proof.
  intros s.
  destruct (searchNews_escalates_at_most_once technologyQuery s
              (take 4 mixedStore) (world s))
    as (_ & _ & Hescalate).
  - intros [rs Hrs]. vm_compute in Hrs. discriminate Hrs.
  - reflexivity.
  - reflexivity.
  - destruct (Hescalate ltac:(done) ltac:(vm_compute; reflexivity)
                (Normal mixedStore) (world s) eq_refl) as (Htrace & Hres & _).
    split; [exact Htrace|]. rewrite (Hres _ eq_refl). by vm_compute.
Defined.

Lemma search_served_from_cache_iff_witness :
  let s := freshState (mkMem mixedStore 5000 false []) in
  let s1 := (searchNews recentTechnology s).2 in
  let later (clock : Z) : State MemWorld :=
    mkState (mkMem [] clock false []) (trace s1) (newsCache s1) in
  (searchNews recentTechnology s).1 = Normal [chipsB; chipsC]
  ∧ searchNews recentTechnology (later 304999)
      = (Normal [chipsB; chipsC], later 304999)
  ∧ ¬ servedFromCache recentTechnology (later 306000).
Proof.
  intros s s1 later.
  assert (Hfirst : (searchNews recentTechnology s).1 = Normal [chipsB; chipsC])
    by (by vm_compute).
  assert (Hrun : searchNews recentTechnology s = (Normal [chipsB; chipsC], s1)).
  { subst s1. destruct (searchNews recentTechnology s) as [c st].
    simpl in Hfirst. by rewrite Hfirst. }
  assert (Hcalls : newCalls s s1 = [(ListAllKnowledge, Completed)])
    by (by vm_compute).
  destruct (search_served_from_cache_iff recentTechnology s)
    as (_ & _ & _ & Hstore).
  destruct (Hstore) with (rs := [chipsB; chipsC]) (s1 := s1) as [_ Hlater].
  - intros [rs Hrs]. vm_compute in Hrs. discriminate Hrs.
  - exact Hrun.
  - intros c Hc. rewrite Hcalls in Hc.
    apply elem_of_cons in Hc as [[=]|Hc]. by apply elem_of_nil in Hc.
  - intros Hpath. vm_compute in Hpath. discriminate Hpath.
  - split; [exact Hfirst|]. split.
    + apply (Hlater (later 304999)); [reflexivity|by vm_compute].
    + apply (Hlater (later 306000)); [reflexivity|by vm_compute].
Defined.

(** ** Deduplication *)



(** [toLowerCase] on one code unit, as a number. *)
Lemma lowerAscii_code (c : ascii) :
  nat_of_ascii (lowerAscii c) =
    if isCapital (nat_of_ascii c) then (nat_of_ascii c + 32)%nat else nat_of_ascii c.
Proof.
  unfold lowerAscii. destruct (isCapital (nat_of_ascii c)) eqn:Hc; [|done].
  apply nat_ascii_embedding. unfold isCapital in Hc.
  repeat (apply orb_true_iff in Hc as [Hc|Hc]);
    apply andb_true_iff in Hc as [_ Hc]; apply Nat.leb_le in Hc; lia.
Qed.

Lemma isCapital_spec (n : nat) : isCapital n = true ↔ capital n.
Proof.
  unfold isCapital, capital.
  rewrite !orb_true_iff, !andb_true_iff, !Nat.leb_le. tauto.
Qed.

Lemma lowerAscii_eq_iff (c d : ascii) :
  lowerAscii c = lowerAscii d ↔ sameLetter c d.
Proof.
  assert (Hinj : lowerAscii c = lowerAscii d ↔
                 nat_of_ascii (lowerAscii c) = nat_of_ascii (lowerAscii d)).
  { split; [by intros ->|]. intros Heq.
    rewrite <- (ascii_nat_embedding (lowerAscii c)), Heq.
    apply ascii_nat_embedding. }
  rewrite Hinj, !lowerAscii_code. unfold sameLetter. cbv zeta.
  destruct (isCapital (nat_of_ascii c)) eqn:Hc, (isCapital (nat_of_ascii d)) eqn:Hd.
  - apply isCapital_spec in Hc, Hd. unfold capital in *. lia.
  - apply isCapital_spec in Hc. apply not_true_iff_false in Hd.
    rewrite isCapital_spec in Hd. unfold capital in *. lia.
  - apply isCapital_spec in Hd. apply not_true_iff_false in Hc.
    rewrite isCapital_spec in Hc. unfold capital in *. lia.
  - apply not_true_iff_false in Hc, Hd.
    rewrite isCapital_spec in Hc, Hd. unfold capital in *. lia.
Qed.

(** Two strings have the same lower-case form exactly when they are equal
    case-insensitively. *)
Lemma toLowerCase_eq_iff (a b : string) :
  toLowerCase a = toLowerCase b ↔ equalIgnoringCase a b.
Proof.
  revert b. induction a as [|c a IH]; intros [|d b]; simpl; try done.
  rewrite <- IH, <- lowerAscii_eq_iff. split.
  - intros Heq. by injection Heq.
  - by intros [-> ->].
Qed.



Lemma slice0_nonempty {A} (xs : list A) :
  (0 < length (slice0 xs 10))%nat ↔ ∃ x, x ∈ xs.
Proof.
  unfold slice0. change (10 <? 0) with false. change (Z.to_nat 10) with 10%nat.
  cbv iota. destruct xs as [|x xs]; simpl.
  - split; [lia|]. intros [x Hx]. by apply elem_of_nil in Hx.
  - split; [|lia]. intros _. exists x. by left.
Qed.

Section DedupClaims.
Context {W : Type} `{Host W}.

Lemma searchNewsByMetadata_url_run (u : string) (s : State W) :
  searchNewsByMetadata "url" u 10 s =
    let '(c, w') := getKnowledge urlLookupParams (world s) in
    let s' := mkState w' (trace s ++ [(GetKnowledge urlLookupParams, outcomeOf c)])
                      (newsCache s) in
    match c with
    | Normal rs =>
        (Normal (slice0 (List.filter
                           (λ item, bool_decide (md_url (metadataOf item) = Some u)) rs)
                        10), s')
    | Throw _ => (Normal [], s')
    end.
Proof.
  unfold searchNewsByMetadata, tryCatch, mbind, M_bind, call. cbv zeta.
  fold urlLookupParams.
  destruct (getKnowledge urlLookupParams (world s)) as [[rs|err] w']; done.
Qed.




End DedupClaims.

(** A score of 0.96 flags a result whatever its title, 0.80 does not. *)
Lemma verySimilar_scores (newsItem : NewsItem) (item : RAGKnowledgeItem) :
  (similarity item = Some (96 # 100)%Q → verySimilar newsItem item = true)
  ∧ (similarity item = Some (80 # 100)%Q →
     ¬ equalIgnoringCase (default EmptyString (md_title (metadataOf item)))
                         (title newsItem) →
     verySimilar newsItem item = false).
Proof.
  unfold verySimilar. split.
  - intros ->. by rewrite orb_true_r.
  - intros -> Hne. rewrite bool_decide_false; [done|].
    by rewrite toLowerCase_eq_iff.
Qed.

(** Titles that differ in the case of a Latin-1 letter are the same title:
    "CAFÉ" and "café", where É and é are the code units 201 and 233; the
    multiplication sign (215) and the division sign (247) are not a pair. *)
Example verySimilar_folds_latin1 :
  let letter (n : nat) := String (ascii_of_nat n) EmptyString in
  let upper := ("CAF" ++ letter 201%nat)%string in
  let lower := ("caf" ++ letter 233%nat)%string in
  verySimilar (mkNewsItem upper EmptyString EmptyString None None [])
              (newsEntry "id" lower "example.com" 0 []) = true
  ∧ equalIgnoringCase lower upper
  ∧ ¬ equalIgnoringCase (letter 215%nat) (letter 247%nat)
  ∧ toLowerCase (letter 215%nat) = letter 215%nat.
Proof.
  intros letter upper lower.
  split; [by vm_compute|]. split; [|split; [|by vm_compute]].
  - apply toLowerCase_eq_iff. by vm_compute.
  - rewrite <- toLowerCase_eq_iff. by vm_compute.
Qed.


(** ** Retention purge *)

Lemma isExpired_spec (cutoff : Z) (item : RAGKnowledgeItem) :
  isExpired cutoff item = true ↔ expiredAt cutoff item.
Proof.
  unfold isExpired, expiredAt.
  rewrite andb_true_iff, bool_decide_eq_true.
  destruct (md_publishedAt (metadataOf item)) as [p|].
  - rewrite Z.ltb_lt. split.
    + intros [Ht Hp]. split; [done|]. by exists p.
    + intros [Ht (p' & [= <-] & Hp)]. done.
  - split; [by intros [_ ?]|]. by intros [_ (p' & [=] & _)].
Qed.

#[global] Instance expiredAt_dec cutoff item : Decision (expiredAt cutoff item).
Proof.
  destruct (isExpired cutoff item) eqn:Hk.
  - left. by apply isExpired_spec.
  - right. rewrite <- isExpired_spec. congruence.
Defined.

Lemma filter_isExpired (cutoff : Z) (items : list RAGKnowledgeItem) :
  List.filter (isExpired cutoff) items = filter (expiredAt cutoff) items.
Proof.
  induction items as [|item items IH]; [done|].
  simpl. rewrite filter_cons, IH.
  destruct (isExpired cutoff item) eqn:Hk.
  - rewrite decide_True; [done|]. by apply isExpired_spec.
  - rewrite decide_False; [done|]. rewrite <- isExpired_spec. congruence.
Qed.

Section PurgeClaims.
Context {W : Type} `{Host W}.

Lemma removeEach_run (items : list RAGKnowledgeItem) (n : Z) (s : State W) :
  let r := removeEach items n s in
  (r.1 = Normal (n + Z.of_nat (length items))
   ∧ trace r.2 = trace s ++ deleted items)
  ∨ ∃ k item e,
      items !! k = Some item
      ∧ r.1 = Throw e
      ∧ trace r.2 =
          trace s ++ deleted (take k items)
                  ++ [(RemoveKnowledge (item_id item), Threw)].
Proof.
  revert n s. induction items as [|item items IH]; intros n s; simpl.
  - left. unfold mret, M_ret. simpl. split; [f_equal; lia|by rewrite app_nil_r].
  - unfold mbind, M_bind, call.
    destruct (removeKnowledge (item_id item) (world s)) as [[[]|e] w1] eqn:Hrm.
    + simpl.
      destruct (IH (n + 1)
                  (mkState w1 (trace s ++ [(RemoveKnowledge (item_id item), Completed)])
                           (newsCache s)))
        as [[Hres Htr]|(k & item' & e & Hk & Hres & Htr)].
      * left. split.
        -- rewrite Hres. f_equal. lia.
        -- rewrite Htr. simpl. unfold deleted. simpl. by rewrite <- app_assoc.
      * right. exists (S k), item', e. split; [done|]. split; [done|].
        rewrite Htr. simpl. unfold deleted. simpl. by rewrite <- !app_assoc.
    + right. exists 0%nat, item, e. done.
Qed.

(** C8, amended. The purge lists at most 1000 entries, selects exactly
    those of type news with a numeric publishedAt strictly before
    now − retentionDays days (an entry at the cutoff is kept), deletes them
    one after the other in listing order and returns their number.  A
    deletion that throws ends the loop: the entries after it are not
    deleted, nothing is retried, and the error is caught inside the purge,
    which returns 0 to its caller instead of propagating it. *)
Theorem purgeOldNews_spec (retentionDays : Z) (s : State W) listed w1 :
  getKnowledge purgeListingParams (world s) = (Normal listed, w1) →
  let cutoff := dateNow (world s) - retentionDays * (24 * 60 * 60 * 1000) in
  let selected := filter (expiredAt cutoff) listed in
  let r := purgeOldNews retentionDays s in
  p_limit purgeListingParams = 1000
  ∧ ∃ deletions,
      PurgeRun selected r.1 deletions
      ∧ trace r.2 =
          trace s ++ (GetKnowledge purgeListingParams, Completed) :: deletions.
Proof.
  intros Hlist cutoff selected r. split; [done|].
  pose (s1 := mkState w1 (trace s ++ [(GetKnowledge purgeListingParams, Completed)])
                      (newsCache s)).
  assert (Hr : r = match removeEach selected 0 s1 with
                   | (Normal n, s') => (Normal n, s')
                   | (Throw _, s') => (Normal 0, s')
                   end).
  { subst r. unfold purgeOldNews, tryCatch.
    unfold mbind at 1. unfold M_bind at 1. unfold now at 1. cbv beta iota zeta.
    unfold mbind at 1. unfold M_bind at 1. unfold call at 1.
    fold purgeListingParams. rewrite Hlist. cbv beta iota zeta.
    replace (dateNow (world s) - retentionDays * 24 * 60 * 60 * 1000) with cutoff
      by (subst cutoff; lia).
    rewrite filter_isExpired. done. }
  rewrite Hr.
  destruct (removeEach_run selected 0 s1)
    as [[Hres Htr]|(k & item & e & Hk & Hres & Htr)];
    destruct (removeEach selected 0 s1) as [c s2]; simpl in Hres, Htr; subst c.
  - exists (deleted selected). split; [apply PurgeAll|].
    simpl. rewrite Htr. by rewrite <- app_assoc.
  - exists (deleted (take k selected) ++ [(RemoveKnowledge (item_id item), Threw)]).
    split; [by apply PurgeAborted|].
    simpl. rewrite Htr. by rewrite <- !app_assoc.
Qed.

End PurgeClaims.

Lemma purgeOldNews_spec_witness :
  let s := freshState (purgeWorld []) in
  ∃ deletions,
    PurgeRun (filter (expiredAt (40 * 86400000 - 30 * (24 * 60 * 60 * 1000)))
                     (mem_entries (purgeWorld [])))
             (purgeOldNews 30 s).1 deletions
    ∧ trace (purgeOldNews 30 s).2 =
        trace s ++ (GetKnowledge purgeListingParams, Completed) :: deletions.
Proof.
  intros s.
  exact (proj2 (purgeOldNews_spec 30 s (mem_entries (purgeWorld [])) (purgeWorld [])
                  eq_refl)).
Defined.

(** C8 as stated fails: the second deletion throws, and the purge returns 0
    to its caller, as does the service's purge, instead of throwing. *)
Lemma purgeOldNews_swallows_deletion_error :
  let s := freshState (purgeWorld ["id-2"%string]) in
  let r := purgeOldNews 30 s in
  r.1 = Normal 0
  ∧ trace r.2 = [(GetKnowledge purgeListingParams, Completed);
                 (RemoveKnowledge "id-1", Completed);
                 (RemoveKnowledge "id-2", Threw)]
  ∧ (servicePurgeOldNews 30 s).1 = Normal 0
  ∧ ¬ ∃ e, r.1 = Throw e.
Proof.
  intros s r. split; [by vm_compute|]. split; [by vm_compute|].
  split; [by vm_compute|]. intros [e He]. vm_compute in He. discriminate He.
Qed.

(** ** Stored entry ids *)

Section StoreFacts.
Context {W : Type} `{Host W}.
Variable stringToUuid : string → UUID.

Lemma storeNewsItem_null_date (newsItem : NewsItem) ty (s : State W) :
  publishedAt newsItem = None →
  storeNewsItem stringToUuid newsItem ty s = (Normal None, s).
Proof.
  intros Hnull. unfold storeNewsItem, tryCatch, mbind, M_bind, throw.
  by rewrite Hnull.
Qed.

Lemma storeNewsItem_run (newsItem : NewsItem) ty (s : State W) d :
  publishedAt newsItem = Some d →
  ∃ item c w',
    item_id item = stringToUuid (idBase newsItem)
    ∧ md_publishedAt (metadataOf item) = getTime d
    ∧ createKnowledge item (world s) = (c, w')
    ∧ storeNewsItem stringToUuid newsItem ty s =
        (Normal (match c with Normal _ => Some item | Throw _ => None end),
         mkState w' (trace s ++ [(CreateKnowledge item, outcomeOf c)]) (newsCache s)).
Proof.
  intros Hd. unfold storeNewsItem, tryCatch, mbind, M_bind, now, call.
  rewrite Hd. cbv beta iota zeta. unfold mret at 1. unfold M_ret at 1.
  cbv beta iota zeta. cbn [world trace newsCache].
  match goal with
  | |- context [createKnowledge ?it (world s)] =>
      exists it; destruct (createKnowledge it (world s)) as [c w'] eqn:Hc;
      exists c, w'
  end.
  split; [done|]. split; [done|]. split; [done|].
  by destruct c as [[]|e].
Qed.

End StoreFacts.

(** C3. The id of the stored entry is a function of the news item alone:
    two items with the same non-empty url, or without url and with the same
    title and source, get the same id, in whichever state, at whichever time
    and on whichever host [storeNewsItem] runs; each run sends exactly one
    entry to the store, under that id. *)
Theorem storeNewsItem_id_deterministic
    {W1 W2 : Type} `{Host W1} `{Host W2} (stringToUuid : string → UUID)
    (n1 n2 : NewsItem) (ty1 ty2 : option string) (s1 : State W1) (s2 : State W2) :
  sameArticleKey n1 n2 →
  stringToUuid (idBase n1) = stringToUuid (idBase n2)
  ∧ (publishedAt n1 ≠ None → publishedAt n2 ≠ None →
     ∃ k1 k2 o1 o2,
       trace (storeNewsItem stringToUuid n1 ty1 s1).2 =
         trace s1 ++ [(CreateKnowledge k1, o1)]
       ∧ trace (storeNewsItem stringToUuid n2 ty2 s2).2 =
           trace s2 ++ [(CreateKnowledge k2, o2)]
       ∧ item_id k1 = item_id k2
       ∧ item_id k1 = stringToUuid (idBase n1)
       ∧ (storeNewsItem stringToUuid n1 ty1 s1).1 =
           Normal (if o1 is Completed then Some k1 else None)
       ∧ (storeNewsItem stringToUuid n2 ty2 s2).1 =
           Normal (if o2 is Completed then Some k2 else None)).
Proof.
  intros Hsame.
  assert (Hbase : idBase n1 = idBase n2).
  { unfold idBase.
    destruct Hsame as [(u & -> & -> & Hu)|(-> & -> & -> & ->)]; [|done].
    simpl. by rewrite bool_decide_false. }
  split; [by rewrite Hbase|].
  intros Hd1 Hd2.
  destruct (publishedAt n1) as [d1|] eqn:Hp1; [|done].
  destruct (publishedAt n2) as [d2|] eqn:Hp2; [|done].
  destruct (storeNewsItem_run stringToUuid n1 ty1 s1 d1 Hp1)
    as (k1 & c1 & w1 & Hid1 & _ & _ & Hrun1).
  destruct (storeNewsItem_run stringToUuid n2 ty2 s2 d2 Hp2)
    as (k2 & c2 & w2 & Hid2 & _ & _ & Hrun2).
  exists k1, k2, (outcomeOf c1), (outcomeOf c2).
  rewrite Hrun1, Hrun2. simpl.
  split; [done|]. split; [done|].
  split; [by rewrite Hid1, Hid2, Hbase|]. split; [done|].
  split; [by destruct c1|by destruct c2].
Qed.

Lemma storeNewsItem_id_deterministic_witness :
  let n1 := sampleCandidate in
  let n2 := mkNewsItem "Another headline" "Other body" "mirror.example.org"
              (Some "https://example.com/chips"%string) (Some (DateAt 9000))
              ["science"%string] in
  let s1 := freshState (mkMem [] 100 false []) in
  let s2 := freshState (mkMem [sampleEntry] 99999 false []) in
  ∃ k1 k2,
    (storeNewsItem (λ x, x) n1 None s1).1 = Normal (Some k1)
    ∧ (storeNewsItem (λ x, x) n2 (Some "news"%string) s2).1 = Normal (Some k2)
    ∧ item_id k1 = item_id k2.
Proof.
  intros n1 n2 s1 s2.
  destruct (storeNewsItem_id_deterministic (λ x, x) n1 n2 None (Some "news"%string)
              s1 s2) as [_ Hstored].
  - left. exists "https://example.com/chips"%string. by repeat split.
  - destruct Hstored as (k1 & k2 & o1 & o2 & Ht1 & Ht2 & Hid & _ & Hr1 & Hr2);
      [done|done|].
    exists k1, k2.
    assert (o1 = Completed) as ->.
    { vm_compute in Ht1. by injection Ht1 as _ <-. }
    assert (o2 = Completed) as ->.
    { vm_compute in Ht2. by injection Ht2 as _ <-. }
    by repeat split.
Defined.

(** ** Publication dates in the ingestion pipeline *)

Section IngestionFacts.
Context {W : Type} `{Host W}.
Variable extractDateFromContent : string → Z → option JsDate.
Variable parseDate : string → JsDate.

(** Without a provider date and without raw content, no date is derived:
    the heuristic is not run on the visible content and the current time is
    not substituted. *)
Lemma derivePublishedAt_without_raw_content (result : SearchResult) (s : State W) :
  truthyStr (r_publishedDate result) = false →
  truthyStr (r_rawContent result) = false →
  derivePublishedAt extractDateFromContent parseDate result s = (Normal None, s).
Proof.
  intros Hdate Hraw. unfold derivePublishedAt, tryCatch.
  by rewrite Hdate, Hraw.
Qed.

(** With raw content, a date always comes out: the current time when the
    heuristic finds nothing in the raw and in the visible content. *)
Lemma derivePublishedAt_with_raw_content (result : SearchResult) (s : State W) :
  truthyStr (r_publishedDate result) = false →
  truthyStr (r_rawContent result) = true →
  ∃ d, derivePublishedAt extractDateFromContent parseDate result s = (Normal (Some d), s)
       ∧ (extractDateFromContent (default EmptyString (r_rawContent result))
            (dateNow (world s)) = None →
          extractDateFromContent (r_content result) (dateNow (world s)) = None →
          d = DateAt (dateNow (world s))).
Proof.
  intros Hdate Hraw. unfold derivePublishedAt, tryCatch, mbind, M_bind, now.
  rewrite Hdate, Hraw. simpl.
  destruct (extractDateFromContent (default EmptyString (r_rawContent result)) _) as [d|].
  - exists d. split; [done|]. intros [=].
  - destruct (extractDateFromContent (r_content result) _) as [d|].
    + exists d. split; [done|]. intros _ [=].
    + by eexists.
Qed.

End IngestionFacts.

(** C4, on the code. A hit with title and content but without published
    date and without raw content gets no publication date: [storeNewsItem]
    then fails on the null date, no entry is sent to the store and the fetch
    returns nothing.  The same hit with raw content is stamped with the
    current time and stored. *)
Theorem fetchNewsForTopic_drops_undated_result_without_raw_content :
  let s := freshState (mkMem [] 5000 false []) in
  (derivePublishedAt (λ _ _, None) (λ _, InvalidDate) undatedResult s).1 = Normal None
  ∧ (fetchWith [undatedResult] "technology" s).1 = Normal []
  ∧ mem_entries (world (fetchWith [undatedResult] "technology" s).2) = []
  ∧ (md_publishedAt ∘ metadataOf) <$>
      mem_entries (world (fetchWith [undatedResultWithRaw] "technology" s).2)
    = [Some 5000].
Proof. by vm_compute. Qed.

(** ** The scheduler *)

Module SchedulerFacts.
Import Scheduler SchedulerSpec.

Lemma clearAll_activeTimers (ids : list nat) (s : Service) (t : Timer) :
  t ∈ activeTimers (foldr clearInterval s ids) ↔
  t ∈ activeTimers s ∧ timer_id t ∉ ids.
Proof.
  induction ids as [|id ids IH]; simpl.
  - split; [|by intros [? _]]. intros Ht. split; [done|apply not_elem_of_nil].
  - rewrite list_elem_of_In, filter_In, <- list_elem_of_In, IH.
    rewrite negb_true_iff, bool_decide_eq_false, not_elem_of_cons. tauto.
Qed.

Lemma handle_in_map (m : gmap string nat) (id : nat) :
  id ∈ (map_to_list m).*2 ↔ ∃ name, m !! name = Some id.
Proof.
  rewrite list_elem_of_fmap. split.
  - intros ([name id'] & -> & Hin). exists name. by apply elem_of_map_to_list.
  - intros [name Hname]. exists (name, id). split; [done|].
    by apply elem_of_map_to_list.
Qed.

Lemma stopFetchIntervals_activeTimers (s : Service) (t : Timer) :
  t ∈ activeTimers (stopFetchIntervals s) ↔
  t ∈ activeTimers s ∧ ¬ ∃ name, fetchIntervals s !! name = Some (timer_id t).
Proof.
  unfold stopFetchIntervals. simpl.
  by rewrite clearAll_activeTimers, handle_in_map.
Qed.

Lemma scheduleTopics_spec (ts : list TopicConfig) (s : Service) :
  handlesKnown s →
  handlesKnown (scheduleTopics ts s)
  ∧ (nextTimerId s ≤ nextTimerId (scheduleTopics ts s))%nat
  ∧ ∀ t, t ∈ activeTimers s → t ∈ activeTimers (scheduleTopics ts s).
Proof.
  revert s. induction ts as [|topic ts IH]; intros s Hs; simpl.
  - done.
  - match goal with
    | |- context [scheduleTopics ts ?s2] => destruct (IH s2) as (Hk & Hn & Ha)
    end.
    + intros name id. simpl. rewrite lookup_insert.
      case_decide; [intros [= <-]; lia|].
      intros Hl. apply Hs in Hl. lia.
    + split; [done|]. split; [simpl in Hn; lia|].
      intros t Ht. apply Ha. simpl. apply elem_of_app. by left.
Qed.

Lemma stop_idempotent (s : Service) : stop (stop s) = stop s.
Proof.
  unfold stop, stopFetchIntervals at 1.
  assert (Hempty : fetchIntervals (stopFetchIntervals s) = ∅) by done.
  rewrite Hempty, map_to_list_empty. done.
Qed.

(** After [stop], no timer whose handle the service kept is active. *)
Lemma stop_cancels_registered_timers (s : Service) (t : Timer) (name : string) :
  fetchIntervals s !! name = Some (timer_id t) → t ∉ activeTimers (stop s).
Proof.
  intros Hname [_ Hnot]%stopFetchIntervals_activeTimers. apply Hnot. by exists name.
Qed.

(** C9, on the code. Whatever the configured topics, after [initialize]
    and [stop] the daily purge timer is still active: [stop] clears the
    handles kept in [fetchIntervals] only, and the handle of the purge timer
    was never kept. *)
Theorem stop_leaves_purge_timer_running (configured : list TopicConfig) :
  ∃ t, t ∈ activeTimers (stop (initialize configured newService))
       ∧ timer_callback t = PurgeOldNews
       ∧ timer_delay t = 24 * 60 * 60 * 1000.
Proof.
  unfold initialize. simpl initialized. cbv iota zeta.
  set (s1 := startFetchIntervals (mkService configured _ _ _ _)).
  assert (Hs1 : handlesKnown s1).
  { apply scheduleTopics_spec. intros name id. simpl. by rewrite lookup_empty. }
  exists (mkTimer (nextTimerId s1) PurgeOldNews ONE_DAY).
  split; [|done].
  apply stopFetchIntervals_activeTimers. simpl. split.
  - apply elem_of_app. right. by left.
  - intros [name Hname]. apply Hs1 in Hname. lia.
Qed.

(** With one topic: the fetch timer is cancelled, the purge timer is not;
    stopping again changes nothing. *)
Example stop_one_topic :
  let s := stop (initialize [mkTopic "technology" 60] newService) in
  activeTimers s = [mkTimer 1 PurgeOldNews 86400000]
  ∧ fetchIntervals s = ∅
  ∧ stop s = s.
Proof. by vm_compute. Qed.

(** A topic configured twice: the handle of the first timer is overwritten
    in [fetchIntervals], and that fetch timer survives [stop] as well. *)
Example stop_duplicate_topic :
  activeTimers
    (stop (initialize [mkTopic "technology" 60; mkTopic "technology" 60] newService))
  = [mkTimer 0 (FetchNewsForTopic "technology") 3600000;
     mkTimer 2 PurgeOldNews 86400000].
Proof. by vm_compute. Qed.

End SchedulerFacts.

(** * Further properties *)

(** ** Search, on every path *)

Section SearchRunFacts.
Context {W : Type} `{Host W}.

(** X1. A search never throws.  When a store call throws during a search,
    the search returns the empty list and leaves the cache as it was. *)
Theorem searchNews_never_throws (options : NewsSearchOptions) (s : State W) :
  ∃ rs, (searchNews options s).1 = Normal rs
        ∧ ((∃ c, (c, Threw) ∈ newCalls s (searchNews options s).2) →
           rs = [] ∧ newsCache (searchNews options s).2 = newsCache s).
Proof.
  assert (Hcases : (∃ e, liveEntry options s e) ∨ ¬ servedFromCache options s).
  { rewrite servedFromCache_iff_live. unfold liveEntry.
    destruct (newsCache s !! generateCacheKey options) as [e|]; [|right].
    - destruct (decide (dateNow (world s) - timestamp e < 5 * 60 * 1000));
        [left; by exists e|right].
      intros (e' & [= <-] & ?). done.
    - by intros (e' & [=] & _). }
  destruct Hcases as [[e He]|Hmiss].
  - rewrite (searchNews_hit _ _ _ He). exists (results e). split; [done|].
    intros [c Hc]. unfold newCalls in Hc. simpl in Hc.
    rewrite drop_all in Hc. by apply elem_of_nil in Hc.
  - 
    destruct (searchNews_miss_run options s Hmiss) as (rs & s' & -> & Hrun).
    exists rs. split; [done|]. simpl. intros [c Hc].
    destruct Hrun; try done;
      match type of Hc with
      | _ ∈ newCalls _ ?st =>
          rewrite (newCalls_app s st _ ltac:(first
            [ rewrite setCachedNews_trace; reflexivity | reflexivity ])) in Hc
      end;
      repeat (apply elem_of_cons in Hc as [[=]|Hc]); by apply elem_of_nil in Hc.
Qed.


(** X3. Caching a result stores it under the key of the options with the
    current time, evicts every entry older than five minutes, keeps the
    others, and touches neither the store nor the world. *)
Theorem setCachedNews_evicts_stale_entries
    (options : NewsSearchOptions) (rs : list RAGKnowledgeItem) (s : State W) :
  let s' := (setCachedNews options rs s).2 in
  newsCache s' !! generateCacheKey options = Some (mkCacheEntry (dateNow (world s)) rs)
  ∧ (∀ k e, newsCache s' !! k = Some e →
       dateNow (world s) - timestamp e ≤ 5 * 60 * 1000)
  ∧ (∀ k e, k ≠ generateCacheKey options →
       (newsCache s' !! k = Some e ↔
        newsCache s !! k = Some e ∧ dateNow (world s) - timestamp e ≤ 5 * 60 * 1000))
  ∧ world s' = world s ∧ trace s' = trace s.
Proof.
  intros s'. subst s'. split; [apply setCachedNews_lookup|].
  rewrite setCachedNews_run. simpl. split; [|split; [|done]].
  - intros k e [_ Hage]%map_lookup_filter_Some. simpl in Hage.
    unfold CACHE_TTL in Hage. lia.
  - intros k e Hk. rewrite map_lookup_filter_Some, lookup_insert_ne by done.
    simpl. unfold CACHE_TTL. split; intros [? ?]; (split; [done|lia]).
Qed.

End SearchRunFacts.


(** ** Metadata lookup, storing and purging *)

Section ManagerFacts.
Context {W : Type} `{Host W}.

(** X4. [searchNewsByMetadata] never throws.  With a limit that is not
    negative it returns at most [limit] entries, each taken from the listing
    of [limit * 10] entries it asked the store for and each carrying the
    requested value under the requested key; when the listing throws it
    returns the empty list. *)
Theorem searchNewsByMetadata_spec (key value : string) (limit : Z) (s : State W) :
  0 ≤ limit →
  ∃ rs, (searchNewsByMetadata key value limit s).1 = Normal rs
        ∧ Z.of_nat (length rs) ≤ limit
        ∧ (∀ item, item ∈ rs →
             metadataStringField key (metadataOf item) = Some value
             ∧ ∃ listed w',
                 getKnowledge (mkParams None (limit * 10) None) (world s)
                   = (Normal listed, w')
                 ∧ item ∈ listed)
        ∧ (∀ e w', getKnowledge (mkParams None (limit * 10) None) (world s)
                     = (Throw e, w') → rs = []).
Proof.
  intros Hlimit. unfold searchNewsByMetadata, tryCatch, mbind, M_bind, call.
  cbv zeta.
  destruct (getKnowledge (mkParams None (limit * 10) None) (world s))
    as [[listed|e] w'] eqn:Hget; cbv beta iota.
  - eexists. split; [reflexivity|]. split; [by apply slice0_length_le|].
    split; [|by intros ? ? [=]].
    intros item Hin.
    destruct (slice0_prefix
                (List.filter (λ item, bool_decide
                                (metadataStringField key (metadataOf item) = Some value))
                             listed) limit) as [rest Hrest].
    assert (Hin' : item ∈ List.filter
                     (λ item, bool_decide
                        (metadataStringField key (metadataOf item) = Some value))
                     listed).
    { rewrite Hrest. apply elem_of_app. by left. }
    apply list_elem_of_In, filter_In in Hin' as [Hl Hm].
    split; [by apply bool_decide_eq_true in Hm|].
    exists listed, w'. split; [done|]. by apply list_elem_of_In.
  - exists []. split; [done|]. split; [simpl; lia|].
    split; [|done]. intros item Hin. by apply elem_of_nil in Hin.
Qed.

(** X6. When the listing of the purge throws, the purge returns 0 and
    attempts no deletion. *)
Theorem purgeOldNews_listing_failure (retentionDays : Z) (s : State W) e w1 :
  getKnowledge purgeListingParams (world s) = (Throw e, w1) →
  purgeOldNews retentionDays s =
    (Normal 0,
     mkState w1 (trace s ++ [(GetKnowledge purgeListingParams, Threw)]) (newsCache s)).
Proof.
  intros Hlist. unfold purgeOldNews, tryCatch, mbind, M_bind, now, call.
  cbv zeta. fold purgeListingParams. cbn [world]. by rewrite Hlist.
Qed.

Variable stringToUuid : string → UUID.

Lemma storeNewsItem_run_item (newsItem : NewsItem) (type : option string)
    (s : State W) d :
  publishedAt newsItem = Some d →
  storeNewsItem stringToUuid newsItem type s =
    let item :=
      mkItem (stringToUuid (idBase newsItem))
        (title newsItem ++ newline ++ newline ++ content newsItem)%string
        (Some (mkMetadata (Some (title newsItem)) (Some (source newsItem))
                          (url newsItem) (getTime d)
                          (Some (if truthyStr type then default EmptyString type
                                 else "news"%string))
                          (Some (topics newsItem)) true false))
        None (Some (dateNow (world s))) in
    let '(c, w') := createKnowledge item (world s) in
    (Normal (match c with Normal _ => Some item | Throw _ => None end),
     mkState w' (trace s ++ [(CreateKnowledge item, outcomeOf c)]) (newsCache s)).
Proof.
  intros Hd. unfold storeNewsItem, tryCatch, mbind, M_bind, now, call.
  rewrite Hd. cbv beta iota zeta. unfold mret at 1. unfold M_ret at 1.
  cbv beta iota zeta. cbn [world trace newsCache].
  match goal with
  | |- context [createKnowledge ?it (world s)] =>
      destruct (createKnowledge it (world s)) as [[[]|e] w1]
  end; done.
Qed.

(** X5. [storeNewsItem] never throws, and what it returns is what it sent
    to the store: title, source, url, topics and publication time of the
    news item, creation time now, flagged main and not shared.  Stored
    without a type, the entry is news and is found by an unfiltered search;
    stored under another type, no search returns it and no purge selects
    it. *)
Theorem storeNewsItem_entry (newsItem : NewsItem) (type : option string) (s : State W) :
  (∃ r, (storeNewsItem stringToUuid newsItem type s).1 = Normal r)
  ∧ ∀ item, (storeNewsItem stringToUuid newsItem type s).1 = Normal (Some item) →
      newCalls s (storeNewsItem stringToUuid newsItem type s).2
        = [(CreateKnowledge item, Completed)]
      ∧ content_metadata item =
          Some (mkMetadata (Some (title newsItem)) (Some (source newsItem))
                           (url newsItem)
                           (publishedAt newsItem ≫= getTime)
                           (Some (if truthyStr type then default EmptyString type
                                  else "news"%string))
                           (Some (topics newsItem)) true false)
      ∧ createdAt item = Some (dateNow (world s))
      ∧ (truthyStr type = false → matchesFilters noOptions item)
      ∧ (∀ t, type = Some t → t ≠ EmptyString → t ≠ "news"%string →
           (∀ options, keepNewsItem options item = false)
           ∧ (∀ cutoff, isExpired cutoff item = false)).
Proof.
  destruct (publishedAt newsItem) as [d|] eqn:Hd.
  - rewrite (storeNewsItem_run_item newsItem type s d Hd). cbv zeta.
    match goal with
    | |- context [createKnowledge ?it (world s)] =>
        destruct (createKnowledge it (world s)) as [[[]|e] w1]
    end; cbn [fst snd].
    + split; [by eexists|]. intros item' [= <-].
      split; [by apply newCalls_app|]. split; [done|]. split; [done|].
      split.
      * intros Hty. unfold matchesFilters, metadataOf. simpl. rewrite Hty.
        split; [done|]. repeat split; by intros.
      * intros t -> Hne Hnews. unfold keepNewsItem, isExpired, metadataOf. simpl.
        rewrite (bool_decide_false (t = EmptyString)) by done. simpl.
        rewrite (bool_decide_false (Some t = Some "news"%string)) by congruence.
        done.
    + split; [by eexists|]. by intros item' [=].
  - rewrite (storeNewsItem_null_date stringToUuid newsItem type s Hd).
    split; [by eexists|]. by intros item' [=].
Qed.

End ManagerFacts.

Lemma searchNewsByMetadata_spec_witness :
  let s := freshState (mkMem [sampleEntry; undatedEntry] 5000 false []) in
  ∃ rs, (searchNewsByMetadata "source" "example.com" 1 s).1 = Normal rs
        ∧ Z.of_nat (length rs) ≤ 1.
Proof.
  intros s.
  destruct (searchNewsByMetadata_spec "source" "example.com" 1 s)
    as (rs & Hrs & Hlen & _); [lia|].
  by exists rs.
Defined.

Lemma purgeOldNews_listing_failure_witness :
  let w := mkMem [staleEntry "id-1"] (40 * 86400000) true [] in
  (purgeOldNews 30 (freshState w)).1 = Normal 0.
Proof.
  intros w.
  assert (Hlist : getKnowledge purgeListingParams (world (freshState w))
                  = (Throw "store unavailable"%string, w)) by (by vm_compute).
  by rewrite (purgeOldNews_listing_failure 30 (freshState w) _ w Hlist).
Defined.

(** ** The ingestion pipeline *)

Section PipelineFacts.
Context {W : Type} `{Host W}.
Variable stringToUuid : string → UUID.
Variable extractDateFromContent : string → Z → option JsDate.
Variable parseDate : string → JsDate.
Variable hostname : string → Completion string.
Variable webSearch : string → W → Completion (option (list SearchResult)) * W.

Lemma derivePublishedAt_state (result : SearchResult) (s : State W) :
  ∃ d, derivePublishedAt extractDateFromContent parseDate result s = (Normal d, s).
Proof.
  unfold derivePublishedAt, tryCatch, mbind, M_bind, now.
  destruct (truthyStr (r_publishedDate result)); simpl; [by eexists|].
  destruct (truthyStr (r_rawContent result)); simpl; [|by eexists].
  destruct (extractDateFromContent _ _); [by eexists|].
  destruct (extractDateFromContent _ _); by eexists.
Qed.

(** [checkForDuplicate] with its store calls and the state it leaves. *)
Lemma checkForDuplicate_run_state (newsItem : NewsItem) (s : State W) :
  checkForDuplicate newsItem s =
    let titleQuery (s1 : State W) :=
      let '(c, w2) := getKnowledge (titleQueryParams newsItem) (world s1) in
      (Normal (match c with
               | Normal rs => some (verySimilar newsItem) rs
               | Throw _ => false
               end),
       mkState w2 (trace s1 ++ [(GetKnowledge (titleQueryParams newsItem), outcomeOf c)])
               (newsCache s1)) in
    if truthyStr (url newsItem) then
      let '(c, w1) := getKnowledge urlLookupParams (world s) in
      let s1 := mkState w1 (trace s ++ [(GetKnowledge urlLookupParams, outcomeOf c)])
                        (newsCache s) in
      match c with
      | Normal rs =>
          if bool_decide
               (0 < length
                      (slice0
                         (List.filter
                            (λ item, bool_decide
                               (md_url (metadataOf item) =
                                  Some (default EmptyString (url newsItem))))
                            rs) 10))%nat
          then (Normal true, s1)
          else titleQuery s1
      | Throw _ => titleQuery s1
      end
    else titleQuery s.
Proof.
  unfold checkForDuplicate, tryCatch. cbv zeta.
  unfold mbind at 1. unfold M_bind at 1.
  destruct (truthyStr (url newsItem)).
  - unfold mbind at 1. unfold M_bind at 1.
    rewrite searchNewsByMetadata_url_run.
    destruct (getKnowledge urlLookupParams (world s)) as [[rs|err] w'].
    + unfold mret at 1. unfold M_ret at 1. cbv beta iota zeta.
      case_bool_decide; [done|].
      unfold mbind, M_bind, call, titleQueryParams. cbn [world trace newsCache].
      by destruct (getKnowledge _ w') as [[rs2|err2] w2].
    + unfold mret at 1. unfold M_ret at 1. cbv beta iota zeta.
      rewrite bool_decide_false by (simpl; lia).
      unfold mbind, M_bind, call, titleQueryParams. cbn [world trace newsCache].
      by destruct (getKnowledge _ w') as [[rs2|err2] w2].
  - unfold mret at 1. unfold M_ret at 1. cbv beta iota zeta.
    unfold mbind, M_bind, call, titleQueryParams.
    by destruct (getKnowledge _ (world s)) as [[rs2|err2] w2].
Qed.

Lemma checkForDuplicate_state (newsItem : NewsItem) (s : State W) :
  ∃ b s' calls,
    checkForDuplicate newsItem s = (Normal b, s')
    ∧ newsCache s' = newsCache s
    ∧ trace s' = trace s ++ calls
    ∧ Forall (λ co, ∃ p o, co = (GetKnowledge p, o)) calls.
Proof.
  rewrite checkForDuplicate_run_state. cbv zeta.
  destruct (truthyStr (url newsItem)).
  - destruct (getKnowledge urlLookupParams (world s)) as [[rs|err] w1].
    + case_bool_decide.
      * eexists _, _, _. split; [reflexivity|]. split; [done|]. split; [done|].
        repeat constructor. by eexists _, _.
      * cbn [world trace newsCache].
        destruct (getKnowledge (titleQueryParams newsItem) w1) as [c w2].
        eexists _, _, _. split; [reflexivity|]. split; [done|].
        split; [by rewrite <- app_assoc|].
        repeat constructor; by eexists _, _.
    + cbn [world trace newsCache].
      destruct (getKnowledge (titleQueryParams newsItem) w1) as [c w2].
      eexists _, _, _. split; [reflexivity|]. split; [done|].
      split; [by rewrite <- app_assoc|].
      repeat constructor; by eexists _, _.
  - destruct (getKnowledge (titleQueryParams newsItem) (world s)) as [c w2].
    eexists _, _, _. split; [reflexivity|]. split; [done|]. split; [done|].
    repeat constructor; by eexists _, _.
Qed.

(** X7. A hit without title or without content is skipped: the
    accumulator and the state are unchanged, no store call is made. *)
Theorem ingestResult_skips_incomplete_hit
    (topic : string) (result : SearchResult) acc (s : State W) :
  r_title result = EmptyString ∨ r_content result = EmptyString →
  ingestResult stringToUuid extractDateFromContent parseDate hostname
               topic result acc s = (Normal acc, s).
Proof.
  intros Hempty. unfold ingestResult. simpl.
  destruct Hempty as [-> | ->]; simpl; [done|].
  by rewrite orb_true_r.
Qed.

(** X8. A hit whose url is already in the store's listing is not stored
    again: the pipeline makes the listing call only, sends nothing to the
    store and leaves the accumulator unchanged. *)
Theorem ingestResult_skips_known_url
    (topic : string) (result : SearchResult) acc (s : State W) u listed w' :
  r_title result ≠ EmptyString →
  r_content result ≠ EmptyString →
  r_url result = Some u → u ≠ EmptyString →
  (truthyStr (r_source result) = true ∨ ∃ h, hostname u = Normal h) →
  getKnowledge urlLookupParams (world s) = (Normal listed, w') →
  (∃ item, item ∈ listed ∧ md_url (metadataOf item) = Some u) →
  ingestResult stringToUuid extractDateFromContent parseDate hostname
               topic result acc s
  = (Normal acc,
     mkState w' (trace s ++ [(GetKnowledge urlLookupParams, Completed)]) (newsCache s)).
Proof.
  intros Ht Hc Hu Hne Hsrc Hget (item & Hin & Hitem).
  unfold ingestResult. simpl.
  rewrite (bool_decide_false (r_title result = EmptyString)) by done.
  rewrite (bool_decide_false (r_content result = EmptyString)) by done. simpl.
  unfold mbind at 1. unfold M_bind at 1.
  destruct (derivePublishedAt_state result s) as [d ->].
  assert (Hs : ∃ src,
    (if truthyStr (r_source result)
     then mret (default EmptyString (r_source result))
     else if truthyStr (r_url result)
     then liftCompletion (hostname (default EmptyString (r_url result)))
     else mret "unknown"%string) s = (Normal src, s)).
  { destruct Hsrc as [-> | [h Hh]]; [by eexists|].
    destruct (truthyStr (r_source result)); [by eexists|].
    rewrite Hu. simpl. rewrite bool_decide_false by done. simpl.
    unfold liftCompletion. rewrite Hh. by eexists. }
  destruct Hs as [src Hs].
  unfold mbind at 1. unfold M_bind at 1. rewrite Hs.
  unfold mbind at 1. unfold M_bind at 1.
  match goal with
  | |- context [checkForDuplicate ?n s] =>
      assert (Hdup : checkForDuplicate n s =
        (Normal true,
         mkState w' (trace s ++ [(GetKnowledge urlLookupParams, Completed)])
                 (newsCache s)))
  end.
  { rewrite checkForDuplicate_run_state. cbv zeta. cbn [url].
    rewrite Hu. simpl truthyStr. rewrite bool_decide_false by done. simpl negb.
    cbv iota. rewrite Hget. simpl default.
    rewrite bool_decide_true; [done|].
    apply slice0_nonempty. exists item.
    apply list_elem_of_In, filter_In. split; [by apply list_elem_of_In|].
    by apply bool_decide_eq_true. }
  by rewrite Hdup.
Qed.

(** One iteration of the loop: it throws (only a malformed url can make it),
    leaves the accumulator as it is, or appends one entry it stored. *)
Lemma ingestResult_cases (topic : string) (result : SearchResult) acc (s : State W) :
  let r := ingestResult stringToUuid extractDateFromContent parseDate hostname
                        topic result acc s in
  trace s `prefix_of` trace r.2
  ∧ ((∃ e, r.1 = Throw e)
     ∨ r.1 = Normal acc
     ∨ ∃ item, r.1 = Normal (acc ++ [item]) ∧ storedFor topic [result] r.2 item).
Proof.
  assert (Htruthy : ∀ x, truthyStr (Some x) = negb (bool_decide (x = EmptyString)))
    by done.
  intros r. subst r.
  destruct (ingestResult _ _ _ _ topic result acc s) as [c s'] eqn:Hrun.
  cbn [fst snd]. revert Hrun.
  unfold ingestResult. cbv zeta. rewrite !Htruthy.
  destruct (decide (r_title result = EmptyString)) as [Ht|Ht].
  { rewrite (bool_decide_true _ Ht). simpl. intros [= <- <-].
    split; [done|]. right. by left. }
  destruct (decide (r_content result = EmptyString)) as [Hc|Hc].
  { rewrite (bool_decide_true _ Hc), orb_true_r. simpl. intros [= <- <-].
    split; [done|]. right. by left. }
  rewrite (bool_decide_false _ Ht), (bool_decide_false _ Hc).
  cbn [negb orb]. cbv beta iota.
  unfold mbind at 1. unfold M_bind at 1. cbv beta.
  destruct (derivePublishedAt_state result s) as [d ->].
  assert (Hs : ∃ c0,
    (if truthyStr (r_source result)
     then mret (default EmptyString (r_source result))
     else if truthyStr (r_url result)
     then liftCompletion (hostname (default EmptyString (r_url result)))
     else mret "unknown"%string) s = (c0, s)).
  { destruct (truthyStr (r_source result)); [by eexists|].
    destruct (truthyStr (r_url result)); by eexists. }
  destruct Hs as [[src|e] Hs]; unfold mbind at 1; unfold M_bind at 1; rewrite Hs.
  2:{ intros [= <- <-]. split; [done|]. left. by eexists. }
  unfold mbind at 1. unfold M_bind at 1.
  match goal with
  | |- context [checkForDuplicate ?n s] =>
      destruct (checkForDuplicate_state n s) as (b & s1 & calls & -> & Hcache & Htr & _)
  end.
  destruct b.
  { intros [= <- <-]. split; [rewrite Htr; by apply prefix_app_r|]. right. by left. }
  unfold mbind at 1. unfold M_bind at 1.
  destruct d as [d|].
  - match goal with
    | |- context [storeNewsItem stringToUuid ?n None s1] =>
        rewrite (storeNewsItem_run_item stringToUuid n None s1 d eq_refl)
    end.
    cbv zeta.
    match goal with
    | |- context [createKnowledge ?it (world s1)] =>
        destruct (createKnowledge it (world s1)) as [[[]|e] w2]
    end; intros [= <- <-]; cbn [outcomeOf trace].
    + split; [rewrite Htr, <- app_assoc; by apply prefix_app_r|].
      right. right. eexists. split; [reflexivity|].
      split; [apply elem_of_app; right; by left|].
      exists result. split; [by left|]. split; [done|]. split; [done|].
      eexists. split; [reflexivity|]. done.
    + split; [rewrite Htr, <- app_assoc; by apply prefix_app_r|].
      right. by left.
  - match goal with
    | |- context [storeNewsItem stringToUuid ?n None s1] =>
        rewrite (storeNewsItem_null_date stringToUuid n None s1 eq_refl)
    end.
    intros [= <- <-]. split; [rewrite Htr; by apply prefix_app_r|]. right. by left.
Qed.

Lemma storedFor_mono (topic : string) hits hits' (s1 s2 : State W) item :
  trace s1 `prefix_of` trace s2 →
  (∀ r, r ∈ hits → r ∈ hits') →
  storedFor topic hits s1 item → storedFor topic hits' s2 item.
Proof.
  intros [rest Hrest] Hsub [Hin (r & Hr & Hrest')].
  split; [rewrite Hrest; apply elem_of_app; by left|].
  exists r. split; [by apply Hsub|done].
Qed.

Lemma ingestAll_spec (topic : string) (hits : list SearchResult) acc (s : State W) :
  let r := ingestAll stringToUuid extractDateFromContent parseDate hostname
                     topic hits acc s in
  trace s `prefix_of` trace r.2
  ∧ ∀ out, r.1 = Normal out →
      ∃ new, out = acc ++ new
             ∧ (length new ≤ length hits)%nat
             ∧ Forall (storedFor topic hits r.2) new.
Proof.
  revert acc s. induction hits as [|result hits IH]; intros acc s; simpl.
  - split; [done|]. intros out [= <-]. exists []. by rewrite app_nil_r.
  - unfold mbind, M_bind.
    destruct (ingestResult_cases topic result acc s) as [Hpre Hcases].
    destruct (ingestResult _ _ _ _ topic result acc s) as [[acc'|e] s1] eqn:Hstep;
      simpl in Hpre, Hcases.
    + destruct (IH acc' s1) as [Hpre' Hout].
      split; [by etrans|].
      intros out Hres. destruct (Hout out Hres) as (new & -> & Hlen & Hall).
      assert (Hall' : Forall (storedFor topic (result :: hits)
                      (ingestAll stringToUuid extractDateFromContent parseDate hostname
                                 topic hits acc' s1).2) new).
      { eapply Forall_impl; [exact Hall|]. intros item.
        apply storedFor_mono; [done|]. intros r Hr. by right. }
      destruct Hcases as [[e [=]]|[[= ->]|(item & [= ->] & Hitem)]].
      * exists new. split; [done|]. split; [lia|done].
      * exists (item :: new). split; [by rewrite <- app_assoc|].
        split; [simpl; lia|]. constructor; [|done].
        eapply storedFor_mono; [exact Hpre'| |exact Hitem].
        intros r Hr. apply list_elem_of_singleton in Hr as ->. by left.
    + split; [done|]. by intros out [=].
Qed.

(** X9. Every entry [fetchNewsForTopic] returns was sent to the store in
    a call that completed, comes from a hit with title and content, and is
    stored as news tagged with the one topic; there are no more entries
    than hits.  When the provider's results are not a list, nothing is
    returned. *)
Theorem fetchNewsForTopic_returns_stored_entries
    (topic : string) (s s' : State W) out :
  fetchNewsForTopic stringToUuid extractDateFromContent parseDate hostname
                    webSearch topic s = (Normal out, s') →
  ∃ answer w1,
    webSearch ("latest news about " ++ topic)%string (world s) = (Normal answer, w1)
    ∧ match answer with
      | None => out = []
      | Some hits =>
          (length out ≤ length hits)%nat ∧ Forall (storedFor topic hits s') out
      end.
Proof.
  unfold fetchNewsForTopic, tryCatch, mbind, M_bind, callSearch, throw. cbv zeta.
  destruct (webSearch _ (world s)) as [[answer|e] w1]; [|done].
  cbv beta iota. intros Hrun. exists answer, w1. split; [done|].
  destruct answer as [hits|].
  - match type of Hrun with
    | context [ingestAll _ _ _ _ topic hits [] ?s1] =>
        destruct (ingestAll_spec topic hits [] s1) as [_ Hout];
        destruct (ingestAll stringToUuid extractDateFromContent parseDate hostname
                            topic hits [] s1) as [[out'|e] s2]
    end; [|done].
    injection Hrun as <- <-.
    destruct (Hout out' eq_refl) as (new & -> & Hlen & Hall). done.
  - by injection Hrun as <- _.
Qed.

(** X10. When the provider search throws, [fetchNewsForTopic] throws the
    same error and no store call is made. *)
Theorem fetchNewsForTopic_rethrows_provider_error (topic : string) (s : State W) e w1 :
  webSearch ("latest news about " ++ topic)%string (world s) = (Throw e, w1) →
  fetchNewsForTopic stringToUuid extractDateFromContent parseDate hostname
                    webSearch topic s
  = (Throw e, mkState w1 (trace s) (newsCache s)).
Proof.
  intros Hsearch.
  unfold fetchNewsForTopic, tryCatch, mbind, M_bind, callSearch, throw. cbv zeta.
  by rewrite Hsearch.
Qed.

End PipelineFacts.

Lemma ingestResult_skips_incomplete_hit_witness :
  let s := freshState (mkMem [] 5000 false []) in
  ingestResult (λ x, x) (λ _ _, None) (λ _, InvalidDate) (λ u, Normal u) "technology"
               (mkSearchResult EmptyString None "Body" None None None) [] s
  = (Normal [], s).
Proof.
  intros s. apply ingestResult_skips_incomplete_hit. by left.
Defined.

Lemma ingestResult_skips_known_url_witness :
  let stored :=
    mkItem "https://example.com/chips" "Chip makers rally"
      (Some (mkMetadata (Some "Chip makers rally"%string) (Some "example.com"%string)
                        (Some "https://example.com/chips"%string) (Some 5000)
                        (Some "news"%string) (Some ["technology"%string]) true false))
      None (Some 5000) in
  let s := freshState (mkMem [stored] 6000 false []) in
  (ingestResult (λ x, x) (λ _ _, None) (λ _, InvalidDate) (λ u, Normal u) "technology"
                undatedResultWithRaw [] s).1 = Normal [].
Proof.
  intros stored s.
  by rewrite (ingestResult_skips_known_url (λ x, x) (λ _ _, None) (λ _, InvalidDate)
                (λ u, Normal u) "technology" undatedResultWithRaw [] s
                "https://example.com/chips" [stored] (world s)
                ltac:(done) ltac:(done) eq_refl ltac:(done)
                (or_intror (ex_intro _ _ eq_refl)) eq_refl
                (ex_intro _ stored (conj (list_elem_of_here _ _) eq_refl))).
Defined.

Lemma fetchNewsForTopic_returns_stored_entries_witness :
  let s := freshState (mkMem [] 5000 false []) in
  ∃ out, (fetchWith [undatedResultWithRaw] "technology" s).1 = Normal out
         ∧ (length out ≤ 1)%nat
         ∧ Forall (storedFor "technology" [undatedResultWithRaw]
                     (fetchWith [undatedResultWithRaw] "technology" s).2) out.
Proof.
  intros s.
  destruct (fetchWith [undatedResultWithRaw] "technology" s) as [c s'] eqn:Hrun.
  assert (Hc : ∃ out, c = Normal out).
  { assert (Hfst : (fetchWith [undatedResultWithRaw] "technology" s).1 = c)
      by (by rewrite Hrun).
    vm_compute in Hfst. rewrite <- Hfst. by eexists. }
  destruct Hc as [out ->]. exists out. split; [done|].
  destruct (fetchNewsForTopic_returns_stored_entries _ _ _ _ _ _ _ _ _ Hrun)
    as (answer & w1 & Hanswer & Hspec).
  injection Hanswer as <- _. exact Hspec.
Defined.

Lemma fetchNewsForTopic_rethrows_provider_error_witness :
  let s := freshState (mkMem [] 5000 false []) in
  (fetchNewsForTopic (λ x, x) (λ _ _, None) (λ _, InvalidDate) (λ u, Normal u)
                     (λ _ w, (Throw "provider down"%string, w)) "technology" s).1
  = Throw "provider down"%string.
Proof.
  intros s.
  by rewrite (fetchNewsForTopic_rethrows_provider_error (λ x, x) (λ _ _, None)
                (λ _, InvalidDate) (λ u, Normal u)
                (λ _ w, (Throw "provider down"%string, w)) "technology" s
                "provider down"%string (world s) eq_refl).
Defined.

(** ** Scheduling, with distinct topic names *)

Module SchedulerMoreFacts.
Import Scheduler SchedulerSpec SchedulerFacts.

(** The state of [scheduleTopics] after the timers of [ts] were installed:
    timers are appended in order, with consecutive handles. *)
Lemma scheduleTopics_timers (ts : list TopicConfig) (s : Service) :
  nextTimerId (scheduleTopics ts s) = (nextTimerId s + length ts)%nat
  ∧ activeTimers (scheduleTopics ts s) =
      activeTimers s ++
      imap (λ i topic, mkTimer (nextTimerId s + i)
                               (FetchNewsForTopic (topic_name topic))
                               (topic_interval topic * 60 * 1000)) ts
  ∧ svc_topics (scheduleTopics ts s) = svc_topics s
  ∧ initialized (scheduleTopics ts s) = initialized s.
Proof.
  revert s. induction ts as [|topic ts IH]; intros s; simpl.
  - rewrite Nat.add_0_r, app_nil_r. done.
  - match goal with
    | |- context [scheduleTopics ts ?s2] => destruct (IH s2) as (Hn & Ha & Ht & Hi)
    end.
    rewrite Hn, Ha, Ht, Hi. simpl.
    split; [lia|]. split; [|done].
    rewrite <- app_assoc. simpl. rewrite Nat.add_0_r. do 2 f_equal.
    apply imap_ext. intros i x _. simpl. f_equal. lia.
Qed.

Lemma scheduleTopics_lookup_other (ts : list TopicConfig) (s : Service) (name : string) :
  name ∉ topic_name <$> ts →
  fetchIntervals (scheduleTopics ts s) !! name = fetchIntervals s !! name.
Proof.
  revert s. induction ts as [|topic ts IH]; intros s Hnot; simpl; [done|].
  apply not_elem_of_cons in Hnot as [Hne Hnot].
  rewrite IH by done. simpl. by rewrite lookup_insert_ne.
Qed.

Lemma scheduleTopics_lookup (ts : list TopicConfig) (s : Service) i topic :
  NoDup (topic_name <$> ts) →
  ts !! i = Some topic →
  fetchIntervals (scheduleTopics ts s) !! topic_name topic
    = Some (nextTimerId s + i)%nat.
Proof.
  revert s i. induction ts as [|t0 ts IH]; intros s i Hnd Hi; [done|].
  apply NoDup_cons in Hnd as [Hnotin Hnd]. destruct i as [|i]; simpl in *.
  - injection Hi as ->. rewrite scheduleTopics_lookup_other by done.
    simpl. rewrite lookup_insert_eq. f_equal. lia.
  - rewrite (IH _ i Hnd Hi). simpl. f_equal. lia.
Qed.

Lemma scheduleTopics_dom (ts : list TopicConfig) (s : Service) (name : string) id :
  fetchIntervals (scheduleTopics ts s) !! name = Some id →
  name ∈ topic_name <$> ts ∨ fetchIntervals s !! name = Some id.
Proof.
  revert s. induction ts as [|topic ts IH]; intros s Hl; simpl in *; [by right|].
  apply IH in Hl as [Hin|Hl]; [left; by right|].
  simpl in Hl. destruct (decide (topic_name topic = name)) as [<-|Hne].
  - left. by left.
  - rewrite lookup_insert_ne in Hl by done. by right.
Qed.

(** X11. [startFetchIntervals] installs one repeating timer per topic,
    firing every [interval] minutes, and with distinct topic names it keeps
    the handle of each under the topic's name; nothing else is kept. *)
Theorem startFetchIntervals_registers_each_topic (s : Service) :
  NoDup (topic_name <$> svc_topics s) →
  let s' := startFetchIntervals s in
  (∀ topic, topic ∈ svc_topics s →
     ∃ id, fetchIntervals s' !! topic_name topic = Some id
           ∧ mkTimer id (FetchNewsForTopic (topic_name topic))
                     (topic_interval topic * 60 * 1000) ∈ activeTimers s')
  ∧ (∀ name id, fetchIntervals s' !! name = Some id →
       name ∈ topic_name <$> svc_topics s)
  ∧ length (activeTimers s') =
      (length (activeTimers (stopFetchIntervals s)) + length (svc_topics s))%nat.
Proof.
  intros Hnd s'. subst s'. unfold startFetchIntervals.
  assert (Htopics : svc_topics (stopFetchIntervals s) = svc_topics s).
  { unfold stopFetchIntervals. simpl.
    induction ((map_to_list (fetchIntervals s)).*2) as [|id ids IH]; done. }
  set (s0 := stopFetchIntervals s) in *.
  destruct (scheduleTopics_timers (svc_topics s) s0) as (Hn & Ha & _ & _).
  split; [|split].
  - intros topic Hin. apply list_elem_of_lookup in Hin as [i Hi].
    exists (nextTimerId s0 + i)%nat.
    split; [by apply scheduleTopics_lookup|].
    rewrite Ha. apply elem_of_app. right.
    apply list_elem_of_lookup. exists i. by rewrite list_lookup_imap, Hi.
  - intros name id Hl. apply scheduleTopics_dom in Hl as [Hin|Hl]; [done|].
    subst s0. unfold stopFetchIntervals in Hl. simpl in Hl.
    by rewrite lookup_empty in Hl.
  - by rewrite Ha, length_app, length_imap.
Qed.

(** X12. With distinct topic names, [stop] after [initialize] cancels every
    fetch timer: the one timer left in the timer table is the daily purge
    timer. *)
Theorem stop_cancels_every_fetch_timer (configured : list TopicConfig) (t : Timer) :
  NoDup (topic_name <$> configured) →
  t ∈ activeTimers (stop (initialize configured newService)) ↔
  t = mkTimer (length configured) PurgeOldNews (24 * 60 * 60 * 1000).
Proof.
  intros Hnd. unfold initialize. simpl initialized. cbv iota zeta.
  set (s1 := startFetchIntervals (mkService configured _ _ _ _)).
  assert (Hs1 : handlesKnown s1).
  { apply scheduleTopics_spec. intros name id. simpl. by rewrite lookup_empty. }
  destruct (scheduleTopics_timers configured
              (stopFetchIntervals (mkService configured ∅ false [] 0)))
    as (Hn & Ha & _ & _).
  change (scheduleTopics configured _) with s1 in Hn, Ha.
  assert (Hn0 : nextTimerId s1 = length configured) by (by rewrite Hn).
  assert (Ha0 : activeTimers s1 =
                imap (λ i topic, mkTimer i (FetchNewsForTopic (topic_name topic))
                                         (topic_interval topic * 60 * 1000))
                     configured) by (by rewrite Ha).
  unfold stop. rewrite stopFetchIntervals_activeTimers. simpl.
  rewrite Hn0, Ha0. split.
  - intros [Hin Hnot]. apply elem_of_app in Hin as [Hin|Hin].
    + destruct Hnot.
      apply list_elem_of_lookup in Hin as [i Hi].
      rewrite list_lookup_imap in Hi.
      destruct (configured !! i) as [topic|] eqn:Hti; [|done].
      injection Hi as <-. exists (topic_name topic). simpl.
      pose proof (scheduleTopics_lookup configured
                    (stopFetchIntervals (mkService configured ∅ false [] 0))
                    i topic Hnd Hti) as Hlk.
      change (scheduleTopics configured _) with s1 in Hlk.
      by rewrite Hlk.
    + by apply list_elem_of_singleton in Hin.
  - intros ->. split; [apply elem_of_app; right; by left|].
    intros [name Hname]. apply Hs1 in Hname. simpl in Hname. lia.
Qed.

End SchedulerMoreFacts.

Lemma startFetchIntervals_registers_each_topic_witness :
  let s := Scheduler.mkService [mkTopic "technology" 60; mkTopic "science" 30]
                               ∅ false [] 0 in
  length (Scheduler.activeTimers (Scheduler.startFetchIntervals s)) = 2%nat.
Proof.
  intros s.
  destruct (SchedulerMoreFacts.startFetchIntervals_registers_each_topic s)
    as (_ & _ & Hlen).
  - apply (bool_decide_unpack _). by vm_compute.
  - exact Hlen.
Defined.

Lemma stop_cancels_every_fetch_timer_witness :
  Scheduler.mkTimer 2 Scheduler.PurgeOldNews 86400000
    ∈ Scheduler.activeTimers
        (Scheduler.stop
           (Scheduler.initialize [mkTopic "technology" 60; mkTopic "science" 30]
                                 Scheduler.newService)).
Proof.
  apply (SchedulerMoreFacts.stop_cancels_every_fetch_timer
           [mkTopic "technology" 60; mkTopic "science" 30]).
  - apply (bool_decide_unpack _). by vm_compute.
  - reflexivity.
Defined.

(** ** Configuration *)

Lemma occurs_trimStart (c : ascii) (s : string) :
  occurs c (trimStart s) → occurs c s.
Proof.
  induction s as [|d s IH]; simpl; [done|].
  destruct (isWhiteSpace d); simpl; [|done]. intros Ho. right. by apply IH.
Qed.

Lemma occurs_trimEnd (c : ascii) (s : string) :
  occurs c (trimEnd s) → occurs c s.
Proof.
  induction s as [|d s IH]; simpl; [done|].
  destruct (trimEnd s) as [|e t] eqn:Ht.
  - destruct (isWhiteSpace d); simpl; [done|]. intros [?|[]]. by left.
  - simpl. intros [?|Ho]; [by left|]. right. by apply IH.
Qed.

Lemma trimEnd_idemp (s : string) : trimEnd (trimEnd s) = trimEnd s.
Proof.
  induction s as [|d s IH]; simpl; [done|].
  destruct (trimEnd s) as [|e t] eqn:Ht.
  - destruct (isWhiteSpace d) eqn:Hd; simpl; [done|]. by rewrite Hd.
  - change (trimEnd (String d (String e t))) with
      (match trimEnd (String e t) with
       | EmptyString => if isWhiteSpace d then EmptyString else String d EmptyString
       | u => String d u
       end).
    by rewrite IH.
Qed.

Lemma trimStart_startsClean (s : string) : startsClean (trimStart s).
Proof.
  induction s as [|d s IH]; simpl; [done|].
  by destruct (isWhiteSpace d) eqn:Hd.
Qed.

Lemma trimEnd_startsClean (s : string) : startsClean s → startsClean (trimEnd s).
Proof.
  destruct s as [|d s]; simpl; [done|]. intros Hd.
  destruct (trimEnd s); by rewrite ?Hd.
Qed.

Lemma trimStart_clean (s : string) : startsClean s → trimStart s = s.
Proof. destruct s as [|d s]; simpl; [done|]. by intros ->. Qed.

Lemma trim_idemp (s : string) : trim (trim s) = trim s.
Proof.
  unfold trim. rewrite (trimStart_clean (trimEnd (trimStart s))).
  - apply trimEnd_idemp.
  - apply trimEnd_startsClean, trimStart_startsClean.
Qed.

Lemma splitOn_nonempty (sep : ascii) (s : string) : splitOn sep s ≠ [].
Proof.
  induction s as [|d s IH]; simpl; [done|].
  case_bool_decide; [done|]. by destruct (splitOn sep s).
Qed.

Lemma splitOn_no_separator (sep : ascii) (s piece : string) :
  piece ∈ splitOn sep s → ¬ occurs sep piece.
Proof.
  revert piece. induction s as [|d s IH]; simpl; intros piece Hin.
  - apply list_elem_of_singleton in Hin as ->. simpl. tauto.
  - case_bool_decide as Hd.
    + apply elem_of_cons in Hin as [->|Hin]; [simpl; tauto|by apply IH].
    + destruct (splitOn sep s) as [|p ps] eqn:Hs.
      * apply list_elem_of_singleton in Hin as ->. simpl. by intros [?|[]].
      * apply elem_of_cons in Hin as [->|Hin].
        -- simpl. intros [?|Ho]; [done|]. apply (IH p); [by left|done].
        -- apply IH. by right.
Qed.

Lemma splitOn_clean (sep : ascii) (t : string) :
  ¬ occurs sep t → splitOn sep t = [t].
Proof.
  induction t as [|d t IH]; simpl; [done|]. intros Hno.
  rewrite bool_decide_false by (intros ->; apply Hno; by left).
  rewrite IH; [done|]. intros Ho. apply Hno. by right.
Qed.

Lemma splitOn_app (sep : ascii) (t rest : string) :
  ¬ occurs sep t →
  splitOn sep (t ++ String sep rest) = t :: splitOn sep rest.
Proof.
  induction t as [|d t IH]; simpl; intros Hno.
  - by rewrite bool_decide_true.
  - rewrite bool_decide_false by (intros ->; apply Hno; by left).
    rewrite IH; [done|]. intros Ho. apply Hno. by right.
Qed.

Lemma trimEnd_length (s : string) :
  (String.length (trimEnd s) ≤ String.length s)%nat.
Proof.
  induction s as [|d s IH]; simpl; [done|].
  destruct (trimEnd s) as [|e t]; simpl in *.
  - destruct (isWhiteSpace d); simpl; lia.
  - lia.
Qed.

Lemma trimStart_length (s : string) :
  (String.length (trimStart s) ≤ String.length s)%nat.
Proof.
  induction s as [|d s IH]; simpl; [done|].
  destruct (isWhiteSpace d); simpl; lia.
Qed.

Lemma trim_fixed_startsClean (t : string) : trim t = t → startsClean t.
Proof.
  destruct t as [|d t]; [done|]. simpl. intros Htrim.
  destruct (isWhiteSpace d) eqn:Hd; [|done].
  assert (Hlen : (String.length (trim (String d t)) ≤ String.length t)%nat).
  { unfold trim. simpl. rewrite Hd.
    etrans; [apply trimEnd_length|apply trimStart_length]. }
  rewrite Htrim in Hlen. simpl in Hlen. lia.
Qed.

Lemma trim_nonempty (s : string) :
  startsClean s → s ≠ EmptyString → trim s ≠ EmptyString.
Proof.
  intros Hclean Hne. unfold trim. rewrite trimStart_clean by done.
  destruct s as [|d s]; [done|]. simpl in *.
  destruct (trimEnd s); by rewrite ?Hclean.
Qed.

Lemma parseTopics_Forall (topicsStr : option string) :
  Forall wellFormedTopic (parseTopics topicsStr).
Proof.
  destruct topicsStr as [s|]; simpl; [|constructor].
  case_bool_decide; [constructor|].
  apply Forall_forall. intros t Hin.
  apply list_elem_of_In, filter_In in Hin as [Hin Hne].
  apply negb_true_iff, bool_decide_eq_false in Hne.
  apply list_elem_of_In, list_elem_of_fmap in Hin as (piece & -> & Hpiece).
  split; [done|]. split; [|apply trim_idemp].
  intros Ho. apply (splitOn_no_separator comma s piece Hpiece).
  by apply occurs_trimStart, occurs_trimEnd.
Qed.

(** X13. Every topic [parseTopics] returns is not empty, contains no
    comma and has no white space at either end; a missing or blank setting
    gives no topic. *)
Theorem parseTopics_well_formed (topicsStr : option string) :
  Forall wellFormedTopic (parseTopics topicsStr)
  ∧ (topicsStr = None ∨ (∃ s, topicsStr = Some s ∧ trim s = EmptyString) →
     parseTopics topicsStr = []).
Proof.
  split; [apply parseTopics_Forall|].
  intros [->|(s & -> & Hblank)]; simpl; [done|].
  by rewrite bool_decide_true.
Qed.

Lemma splitOn_joinComma (ts : list string) :
  ts ≠ [] → Forall (λ t, ¬ occurs comma t) ts →
  splitOn comma (joinComma ts) = ts.
Proof.
  induction ts as [|t ts IH]; [done|]. intros _ Hall.
  apply Forall_cons in Hall as [Ht Hall].
  destruct ts as [|t' ts].
  - simpl. by apply splitOn_clean.
  - change (joinComma (t :: t' :: ts))
      with (t ++ String comma (joinComma (t' :: ts)))%string.
    rewrite splitOn_app by done. f_equal. by apply IH.
Qed.

(** X14. Round trip: a list of well-formed topic names joined with commas
    is parsed back to the same list. *)
Theorem parseTopics_joinComma (ts : list string) :
  Forall wellFormedTopic ts → parseTopics (Some (joinComma ts)) = ts.
Proof.
  intros Hall. destruct ts as [|t ts]; [done|].
  assert (Hsplit : splitOn comma (joinComma (t :: ts)) = t :: ts).
  { apply splitOn_joinComma; [done|].
    eapply Forall_impl; [exact Hall|]. by intros ? (_ & ? & _). }
  unfold parseTopics. rewrite Hsplit.
  rewrite bool_decide_false.
  - assert (Htrim : trim <$> (t :: ts) = t :: ts).
    { clear Hsplit. induction Hall as [|x xs (_ & _ & Hx) _ IH]; [done|].
      rewrite fmap_cons, Hx. by f_equal. }
    rewrite Htrim. clear Hsplit Htrim.
    induction Hall as [|x xs (Hx & _) _ IH]; [done|].
    simpl. rewrite bool_decide_false by done. simpl. by f_equal.
  - apply Forall_cons in Hall as [(Hne & _ & Htrim) _].
    apply trim_nonempty.
    + apply trim_fixed_startsClean in Htrim.
      destruct t as [|d t]; [done|]. by destruct ts.
    + destruct t; [done|]. by destruct ts.
Qed.

(** *** Reading numbers *)

Lemma pretty_N_char_digit (d : N) :
  (d < 10)%N →
  isDigit (pretty_N_char d) = true
  ∧ Z.of_nat (nat_of_ascii (pretty_N_char d)) - 48 = Z.of_N d.
Proof.
  intros Hd.
  assert (Hcases : (d = 0 ∨ d = 1 ∨ d = 2 ∨ d = 3 ∨ d = 4 ∨ d = 5 ∨ d = 6
                    ∨ d = 7 ∨ d = 8 ∨ d = 9)%N) by lia.
  repeat (destruct Hcases as [->|Hcases]; [by vm_compute|]).
  subst d. by vm_compute.
Qed.

Lemma isDigit_not_space_or_sign (c : ascii) :
  isDigit c = true →
  isWhiteSpace c = false ∧ c ≠ ascii_of_nat 45 ∧ c ≠ ascii_of_nat 43.
Proof.
  unfold isDigit, isWhiteSpace. cbv zeta.
  intros [H1 H2]%andb_true_iff. apply Nat.leb_le in H1, H2.
  split; [|split].
  - repeat match goal with
           | |- context [(?a =? ?b)%nat] => destruct (Nat.eqb_spec a b); [lia|]
           end. done.
  - intros ->. vm_compute in H1. lia.
  - intros ->. vm_compute in H1. lia.
Qed.

Lemma leadingDigits_noDigit (rest : string) (acc : Z) :
  noLeadingDigit rest → leadingDigits rest acc = acc.
Proof. destruct rest as [|c rest]; [done|]. simpl. by intros ->. Qed.

Lemma pretty_N_go_app (x : N) (s rest : string) :
  (pretty_N_go x s ++ rest)%string = pretty_N_go x (s ++ rest)%string.
Proof.
  revert s. induction (N.lt_wf_0 x) as [x _ IH]. intros s.
  destruct (decide (0 < x)%N) as [Hx|Hx].
  - rewrite (pretty_N_go_step x s), (pretty_N_go_step x (s ++ rest)) by done.
    rewrite IH; [done|]. by apply N.div_lt.
  - assert (x = 0%N) as -> by lia. by rewrite !pretty_N_go_0.
Qed.

(** Reading the digits [pretty] wrote gives the number back. *)
Lemma leadingDigits_pretty_N_go (x : N) (s : string) :
  ∃ k, 0 ≤ k ∧ ∀ acc,
    leadingDigits (pretty_N_go x s) acc = leadingDigits s (acc * 10 ^ k + Z.of_N x).
Proof.
  revert s. induction (N.lt_wf_0 x) as [x _ IH]. intros s.
  destruct (decide (0 < x)%N) as [Hx|Hx].
  - destruct (IH (x `div` 10)%N ltac:(by apply N.div_lt)
                (String (pretty_N_char (x `mod` 10)) s)) as (k & Hk & Heq).
    destruct (pretty_N_char_digit (x `mod` 10)%N) as [Hdigit Hvalue].
    { by apply N.mod_lt. }
    exists (k + 1). split; [lia|]. intros acc.
    rewrite pretty_N_go_step, Heq by done.
    cbn [leadingDigits]. rewrite Hdigit, Hvalue. f_equal.
    rewrite Z.pow_add_r, Z.pow_1_r by lia.
    pose proof (N.div_mod x 10 ltac:(done)) as Hdm.
    assert (Z.of_N x = 10 * Z.of_N (x `div` 10) + Z.of_N (x `mod` 10)) by lia.
    lia.
  - assert (x = 0%N) as -> by lia. exists 0. split; [done|]. intros acc.
    rewrite pretty_N_go_0. f_equal. simpl. lia.
Qed.

Lemma pretty_N_go_head (x : N) (s : string) :
  (0 < x)%N → ∃ c s', pretty_N_go x s = String c s' ∧ isDigit c = true.
Proof.
  revert s. induction (N.lt_wf_0 x) as [x _ IH]. intros s Hx.
  rewrite pretty_N_go_step by done.
  destruct (decide (0 < x `div` 10)%N) as [Hq|Hq].
  - apply IH; [by apply N.div_lt|done].
  - apply N.nlt_ge, N.le_0_r in Hq. rewrite Hq, pretty_N_go_0.
    eexists _, _. split; [done|].
    apply pretty_N_char_digit. by apply N.mod_lt.
Qed.

(** [parseInt] reads back the decimal notation of an integer, whatever
    follows it, and rounds. *)
Lemma parseInt_pretty (n : Z) (rest : string) :
  noLeadingDigit rest → parseInt (pretty n ++ rest) = roundToDouble n.
Proof.
  intros Hrest.
  assert (Hpos : ∀ p,
    leadingDigits (pretty_N_go (Npos p) EmptyString ++ rest)%string 0 = Z.pos p
    ∧ ∃ c s', (pretty_N_go (Npos p) EmptyString ++ rest)%string = String c s'
              ∧ isDigit c = true).
  { intros p. rewrite pretty_N_go_app.
    change (EmptyString ++ rest)%string with rest.
    destruct (leadingDigits_pretty_N_go (Npos p) rest) as (k & Hk & Hread).
    split; [|by apply pretty_N_go_head].
    rewrite Hread, leadingDigits_noDigit by done. simpl. lia. }
  destruct n as [|p|p].
  - change (pretty 0) with "0"%string. unfold parseInt. simpl.
    destruct rest as [|c rest]; simpl; [done|].
    simpl in Hrest. by rewrite Hrest.
  - change (pretty (Z.pos p)) with (pretty_N_go (Npos p) EmptyString).
    destruct (Hpos p) as (Hval & c & s' & Hhead & Hdigit).
    destruct (isDigit_not_space_or_sign c Hdigit) as (Hws & Hminus & Hplus).
    unfold parseInt. rewrite Hhead. cbn [trimStart]. rewrite Hws.
    rewrite !bool_decide_false by done. rewrite Hdigit, <- Hhead, Hval.
    f_equal; lia.
  - change (parseInt (String (ascii_of_nat 45)
                        (pretty_N_go (Npos p) EmptyString ++ rest))
            = roundToDouble (Z.neg p)).
    destruct (Hpos p) as (Hval & c & s' & Hhead & Hdigit).
    unfold parseInt. cbn [trimStart].
    change (isWhiteSpace (ascii_of_nat 45)) with false. cbv iota.
    rewrite bool_decide_true by done.
    rewrite Hhead, Hdigit, <- Hhead, Hval. f_equal; lia.
Qed.

Lemma roundToDouble_small (n : Z) : Z.abs n < 2 ^ 53 → roundToDouble n = Finite n.
Proof.
  intros Hn. unfold roundToDouble. cbv zeta.
  by destruct (Z.ltb_spec (Z.abs n) (2 ^ 53)); [|lia].
Qed.

(** From 2^53 on, rounding gives a nearest double: with [e] the binary
    exponent of [n] less 52, a multiple [q * 2^e] of [2^e] with a significand
    [q] of 53 bits (or [2^53], the next power of two) at a distance of at
    most [2^e / 2] from [n]; or infinity, and then only from 2^1023 on. *)
Lemma roundToDouble_nearest (n : Z) :
  2 ^ 53 ≤ n →
  let e := Z.log2 n - 52 in
  (roundToDouble n = PosInfinity ∧ 2 ^ 1023 ≤ n)
  ∨ ∃ q, 2 ^ 52 ≤ q ≤ 2 ^ 53
         ∧ 2 * Z.abs (q * 2 ^ e - n) ≤ 2 ^ e
         ∧ roundToDouble n = Finite (q * 2 ^ e).
Proof.
  intros Hn e. unfold roundToDouble.
  rewrite Z.abs_eq by lia. cbv zeta.
  destruct (Z.ltb_spec n (2 ^ 53)); [lia|].
  assert (Hlog : 53 ≤ Z.log2 n).
  { change 53 with (Z.log2 (2 ^ 53)). apply Z.log2_le_mono. lia. }
  fold e.
  assert (He : 1 ≤ e) by (subst e; lia).
  destruct (Z.log2_spec n ltac:(lia)) as [Hlow Hhigh].
  set (P := 2 ^ e).
  set (Ph := 2 ^ (e - 1)).
  assert (HP : P = 2 * Ph).
  { subst P Ph. replace e with (1 + (e - 1)) at 1 by lia.
    by rewrite Z.pow_add_r by lia. }
  assert (HPh : 0 < Ph) by (subst Ph; apply Z.pow_pos_nonneg; lia).
  assert (Hlow' : 2 ^ 52 * P ≤ n).
  { subst P. rewrite <- Z.pow_add_r by lia.
    by replace (52 + e) with (Z.log2 n) by (subst e; lia). }
  assert (Hhigh' : n < 2 ^ 53 * P).
  { subst P. rewrite <- Z.pow_add_r by lia.
    by replace (53 + e) with (Z.succ (Z.log2 n)) by (subst e; lia). }
  pose proof (Z.div_mod n P ltac:(lia)) as Hdm.
  pose proof (Z.mod_pos_bound n P ltac:(lia)) as Hr.
  set (q := n / P) in *. set (r := n `mod` P) in *.
  assert (Hq : 2 ^ 52 ≤ q < 2 ^ 53) by nia.
  set (up := (Ph <? r) || ((r =? Ph) && Z.odd q)).
  assert (Hup : if up then Ph ≤ r else r ≤ Ph).
  { subst up. destruct (Z.ltb_spec Ph r); simpl; [lia|].
    destruct (Z.eqb_spec r Ph); simpl; [destruct (Z.odd q); lia|lia]. }
  set (q' := if up then q + 1 else q).
  assert (Hq' : 2 ^ 52 ≤ q' ≤ 2 ^ 53) by (subst q'; destruct up; lia).
  assert (Hdist : 2 * Z.abs (q' * P - n) ≤ P).
  { subst q'. destruct up; nia. }
  destruct (Z.leb_spec (2 ^ 1024) (q' * P)) as [Hover|Hfits].
  - left. destruct (Z.ltb_spec n 0); [lia|]. split; [done|].
    assert (H971 : 2 ^ 971 ≤ P).
    { change (2 ^ 1024) with (2 ^ 53 * 2 ^ 971) in Hover. nia. }
    change (2 ^ 1023) with (2 ^ 52 * 2 ^ 971). nia.
  - right. exists q'. split; [done|]. split; [done|].
    by rewrite Z.sgn_pos, Z.mul_1_l by lia.
Qed.

Lemma roundToDouble_large (n : Z) :
  2 ^ 53 ≤ n →
  roundToDouble n = PosInfinity ∨ ∃ m, roundToDouble n = Finite m ∧ 2 ^ 53 ≤ m.
Proof.
  intros Hn.
  assert (Hlog : 53 ≤ Z.log2 n).
  { change 53 with (Z.log2 (2 ^ 53)). apply Z.log2_le_mono. lia. }
  assert (H2e : 2 ^ 1 ≤ 2 ^ (Z.log2 n - 52)) by (apply Z.pow_le_mono_r; lia).
  destruct (roundToDouble_nearest n Hn) as [[-> _]|(q & Hq & _ & ->)]; [by left|].
  right. eexists. split; [done|]. nia.
Qed.

Lemma roundToDouble_not_NaN (n : Z) : isNaN (roundToDouble n) = false.
Proof.
  unfold roundToDouble. cbv zeta.
  destruct (_ <? _); [done|]. destruct (_ <=? _); [|done].
  by destruct (_ <? _).
Qed.

Lemma safeParseInt_Some (s : string) (defaultValue : JsNumber) :
  s ≠ EmptyString →
  safeParseInt (Some s) defaultValue =
    if isNaN (parseInt s) then defaultValue else mathMax (Finite 1) (parseInt s).
Proof.
  intros Hs. unfold safeParseInt. simpl. by rewrite bool_decide_false.
Qed.

Lemma safeParseInt_cases (value : option string) (defaultValue : JsNumber) :
  safeParseInt value defaultValue = defaultValue
  ∨ safeParseInt value defaultValue = PosInfinity
  ∨ ∃ n, 1 ≤ n ∧ safeParseInt value defaultValue = Finite n.
Proof.
  unfold safeParseInt. destruct (negb (truthyStr value)); [by left|].
  cbv zeta. destruct (parseInt _) as [| |n|]; simpl.
  - by left.
  - right. right. by exists 1.
  - right. right. exists (Z.max 1 n). split; [lia|done].
  - right. by left.
Qed.

(** X15. [safeParseInt] returns the default when the setting is missing or
    empty, or when its first character is neither white space, a sign nor a
    digit.  When it is the decimal notation of an integer [n], followed by
    anything but a digit, it returns the larger of 1 and the double nearest
    to [n]: that is [n] itself, raised to 1, when [n] is below 2^53 in
    absolute value; from 2^53 on it is a multiple of [2^e], for [e] the
    binary exponent of [n] less 52, with a significand of 53 bits and at
    most [2^e / 2] away from [n], or it is infinite, which takes an [n] of
    at least 2^1023. *)
Theorem safeParseInt_spec (defaultValue : JsNumber) :
  safeParseInt None defaultValue = defaultValue
  ∧ safeParseInt (Some EmptyString) defaultValue = defaultValue
  ∧ (∀ c rest, isDigit c = false → isWhiteSpace c = false →
       c ≠ ascii_of_nat 45 → c ≠ ascii_of_nat 43 →
       safeParseInt (Some (String c rest)) defaultValue = defaultValue)
  ∧ (∀ n rest, noLeadingDigit rest →
       safeParseInt (Some (pretty n ++ rest)%string) defaultValue
         = mathMax (Finite 1) (roundToDouble n))
  ∧ (∀ n rest, noLeadingDigit rest → Z.abs n < 2 ^ 53 →
       safeParseInt (Some (pretty n ++ rest)%string) defaultValue
         = Finite (Z.max 1 n))
  ∧ (∀ n rest, noLeadingDigit rest → 2 ^ 53 ≤ n →
       let e := Z.log2 n - 52 in
       (safeParseInt (Some (pretty n ++ rest)%string) defaultValue = PosInfinity
        ∧ 2 ^ 1023 ≤ n)
       ∨ ∃ q, 2 ^ 52 ≤ q ≤ 2 ^ 53
              ∧ 2 * Z.abs (q * 2 ^ e - n) ≤ 2 ^ e
              ∧ safeParseInt (Some (pretty n ++ rest)%string) defaultValue
                  = Finite (q * 2 ^ e)).
Proof.
  assert (Hgen : ∀ n rest, noLeadingDigit rest →
            safeParseInt (Some (pretty n ++ rest)%string) defaultValue
              = mathMax (Finite 1) (roundToDouble n)).
  { intros n rest Hrest.
    assert (Hne : (pretty n ++ rest)%string ≠ EmptyString).
    { intros Hempty. pose proof (parseInt_pretty n rest Hrest) as Hp.
      rewrite Hempty in Hp. change (parseInt EmptyString) with NaN in Hp.
      pose proof (roundToDouble_not_NaN n) as Hnan. by rewrite <- Hp in Hnan. }
    rewrite safeParseInt_Some, (parseInt_pretty n rest Hrest) by done.
    by rewrite roundToDouble_not_NaN. }
  split; [done|]. split; [done|]. split; [|split; [exact Hgen|split]].
  - intros c rest Hdigit Hws Hminus Hplus. rewrite safeParseInt_Some by done.
    unfold parseInt. cbn [trimStart]. rewrite Hws.
    rewrite !bool_decide_false by done. by rewrite Hdigit.
  - intros n rest Hrest Hsmall.
    by rewrite Hgen, roundToDouble_small.
  - intros n rest Hrest Hlarge e. rewrite Hgen by done.
    destruct (roundToDouble_nearest n Hlarge) as [[-> Hn]|(q & Hq & Hdist & ->)].
    + by left.
    + right. exists q. split; [done|]. split; [done|].
      fold e. simpl. f_equal.
      assert (Hlog : 53 ≤ Z.log2 n).
      { change 53 with (Z.log2 (2 ^ 53)). apply Z.log2_le_mono. lia. }
      assert (0 < 2 ^ e) by (apply Z.pow_pos_nonneg; subst e; lia).
      nia.
Qed.

(** A number a thousand digits long is read as infinity, and the odd
    integer next to 2^53 as 2^53. *)
Example parseInt_rounds :
  parseInt "9007199254740993" = Finite 9007199254740992
  ∧ parseInt (pretty (10 ^ 400)) = PosInfinity
  ∧ safeParseInt (Some "40000 minutes"%string) (Finite 60) = Finite 40000
  ∧ safeParseInt (Some "-5"%string) (Finite 60) = Finite 1
  ∧ safeParseInt (Some "every hour"%string) (Finite 60) = Finite 60.
Proof. by vm_compute. Qed.

Lemma wellFormed_defaults : Forall wellFormedTopic DEFAULT_TOPICS.
Proof.
  repeat constructor; try done; simpl; intros Ho;
    repeat (destruct Ho as [Ho|Ho]; [by vm_compute in Ho|]); done.
Qed.

(** *** The validated configuration *)

(** What [validateNewsConfig] returns: the defaults, or the settings as read,
    none of which threw, with numbers that are integers of at least 1. *)
Lemma validateNewsConfig_cases (st : Settings) :
  validateNewsConfig st = defaultNewsConfig
  ∨ ∃ topicsStr retention interval searchLimit,
      settingOf st "NEWS_TOPICS" = Normal topicsStr
      ∧ settingOf st "NEWS_RETENTION_DAYS" = Normal retention
      ∧ settingOf st "NEWS_FETCH_INTERVAL_MINUTES" = Normal interval
      ∧ settingOf st "NEWS_SEARCH_LIMIT" = Normal searchLimit
      ∧ NEWS_TOPICS (validateNewsConfig st) = parseTopics topicsStr
      ∧ safeParseInt retention (Finite DEFAULT_RETENTION_DAYS)
          = Finite (NEWS_RETENTION_DAYS (validateNewsConfig st))
      ∧ safeParseInt interval (Finite DEFAULT_FETCH_INTERVAL)
          = Finite (NEWS_FETCH_INTERVAL_MINUTES (validateNewsConfig st))
      ∧ safeParseInt searchLimit (Finite DEFAULT_SEARCH_LIMIT)
          = Finite (NEWS_SEARCH_LIMIT (validateNewsConfig st)).
Proof.
  unfold validateNewsConfig, readNewsConfig, andThen.
  destruct (settingOf st "NEWS_TOPICS") as [topicsStr|e]; [|by left].
  destruct (settingOf st "NEWS_RETENTION_DAYS") as [retention|e]; [|by left].
  destruct (settingOf st "NEWS_FETCH_INTERVAL_MINUTES") as [interval|e]; [|by left].
  destruct (settingOf st "NEWS_SEARCH_LIMIT") as [searchLimit|e]; [|by left].
  unfold schemaParse. cbn [input_TOPICS input_RETENTION_DAYS
                           input_FETCH_INTERVAL_MINUTES input_SEARCH_LIMIT].
  destruct (safeParseInt interval _) as [| |i|] eqn:Hi; cbn [schemaInt]; try by left.
  destruct (safeParseInt retention _) as [| |r|] eqn:Hr; cbn [schemaInt]; try by left.
  destruct (safeParseInt searchLimit _) as [| |l|] eqn:Hl; cbn [schemaInt]; try by left.
  right. by exists topicsStr, retention, interval, searchLimit.
Qed.

Lemma safeParseInt_Finite (value : option string) (d n : Z) :
  1 ≤ d → safeParseInt value (Finite d) = Finite n → 1 ≤ n.
Proof.
  intros Hd Heq.
  destruct (safeParseInt_cases value (Finite d)) as [H1|[H1|(m & Hm & H1)]];
    rewrite H1 in Heq; try done; injection Heq as <-; done.
Qed.

Lemma validateNewsConfig_numbers (st : Settings) :
  1 ≤ NEWS_FETCH_INTERVAL_MINUTES (validateNewsConfig st)
  ∧ 1 ≤ NEWS_RETENTION_DAYS (validateNewsConfig st)
  ∧ 1 ≤ NEWS_SEARCH_LIMIT (validateNewsConfig st)
  ∧ Forall wellFormedTopic (NEWS_TOPICS (validateNewsConfig st)).
Proof.
  destruct (validateNewsConfig_cases st)
    as [->|(tp & r & i & l & _ & _ & _ & _ & Htp & Hr & Hi & Hl)].
  - repeat split; try done. apply wellFormed_defaults.
  - split; [by eapply safeParseInt_Finite; [|exact Hi]|].
    split; [by eapply safeParseInt_Finite; [|exact Hr]|].
    split; [by eapply safeParseInt_Finite; [|exact Hl]|].
    rewrite Htp. apply parseTopics_Forall.
Qed.

Lemma initializeTopics_intervals (st : Settings) :
  initializeTopics st ≠ []
  ∧ Forall (λ topic, wellFormedTopic (topic_name topic) ∧ 1 ≤ topic_interval topic)
           (initializeTopics st).
Proof.
  destruct (validateNewsConfig_numbers st) as (Hint & _ & _ & Htopics).
  split.
  - unfold initializeTopics. cbv zeta. case_bool_decide as Hlen.
    + destruct (NEWS_TOPICS (validateNewsConfig st)); [simpl in Hlen; lia|done].
    + done.
  - unfold initializeTopics. cbv zeta.
    set (interval := if NEWS_FETCH_INTERVAL_MINUTES (validateNewsConfig st) =? 0
                     then DEFAULT_FETCH_INTERVAL
                     else NEWS_FETCH_INTERVAL_MINUTES (validateNewsConfig st)).
    assert (Hi : 1 ≤ interval).
    { subst interval.
      destruct (NEWS_FETCH_INTERVAL_MINUTES (validateNewsConfig st) =? 0); [done|lia]. }
    apply Forall_fmap. simpl.
    case_bool_decide.
    + eapply Forall_impl; [exact Htopics|]. done.
    + eapply Forall_impl; [apply wellFormed_defaults|]. done.
Qed.

Lemma settingOf_throws (st : Settings) (key : string) e :
  runtimeSetting st key = Throw e → settingOf st key = Throw e.
Proof. unfold settingOf. by intros ->. Qed.

(** X16. Whatever the settings, the engine starts with at least one topic;
    every topic name is well formed, every fetch interval is at least one
    minute, and the three numbers of the configuration are integers of at
    least 1.  When reading one of the four settings throws, or when a
    numeric setting is so long a number that it is read as infinity, the
    whole configuration is the default one, with the three default topics
    fetched every 60 minutes. *)
Theorem initializeTopics_spec (st : Settings) :
  initializeTopics st ≠ []
  ∧ Forall (λ topic, wellFormedTopic (topic_name topic) ∧ 1 ≤ topic_interval topic)
           (initializeTopics st)
  ∧ 1 ≤ NEWS_FETCH_INTERVAL_MINUTES (validateNewsConfig st)
  ∧ 1 ≤ NEWS_RETENTION_DAYS (validateNewsConfig st)
  ∧ 1 ≤ NEWS_SEARCH_LIMIT (validateNewsConfig st)
  ∧ (∀ key e, key ∈ "NEWS_TOPICS"%string :: numericSettings →
       runtimeSetting st key = Throw e →
       validateNewsConfig st = defaultNewsConfig)
  ∧ (∀ key s, key ∈ numericSettings →
       settingOf st key = Normal (Some s) → parseInt s = PosInfinity →
       validateNewsConfig st = defaultNewsConfig)
  ∧ (validateNewsConfig st = defaultNewsConfig →
     initializeTopics st =
       [mkTopic "world news" 60; mkTopic "technology" 60; mkTopic "science" 60])
  ∧ (∀ topicsStr retention interval searchLimit r i l,
       settingOf st "NEWS_TOPICS" = Normal topicsStr →
       settingOf st "NEWS_RETENTION_DAYS" = Normal retention →
       settingOf st "NEWS_FETCH_INTERVAL_MINUTES" = Normal interval →
       settingOf st "NEWS_SEARCH_LIMIT" = Normal searchLimit →
       safeParseInt retention (Finite 30) = Finite r →
       safeParseInt interval (Finite 60) = Finite i →
       safeParseInt searchLimit (Finite 10) = Finite l →
       validateNewsConfig st = mkNewsConfig i (parseTopics topicsStr) r l
       ∧ initializeTopics st =
           (λ name, mkTopic name i)
             <$> (if decide (parseTopics topicsStr = []) then DEFAULT_TOPICS
                  else parseTopics topicsStr)).
Proof.
  destruct (initializeTopics_intervals st) as [Hne Hall].
  destruct (validateNewsConfig_numbers st) as (Hi & Hr & Hl & _).
  split; [done|]. split; [done|]. split; [done|]. split; [done|]. split; [done|].
  split; [|split; [|split]].
  - intros key e Hkey Hthrow. apply settingOf_throws in Hthrow.
    destruct (validateNewsConfig_cases st)
      as [->|(tp & r & i & l & Htp & Hrd & Hid & Hld & _)]; [done|].
    unfold numericSettings in Hkey.
    repeat (apply elem_of_cons in Hkey as [->|Hkey]; [congruence|]).
    by apply elem_of_nil in Hkey.
  - intros key s Hkey Hset Hinf.
    assert (Hparsed : ∀ d, safeParseInt (Some s) d = PosInfinity).
    { intros d. rewrite safeParseInt_Some by (by intros ->). by rewrite Hinf. }
    destruct (validateNewsConfig_cases st)
      as [->|(tp & r & i & l & Htp & Hrd & Hid & Hld & _ & Hrv & Hiv & Hlv)]; [done|].
    unfold numericSettings in Hkey.
    repeat (apply elem_of_cons in Hkey as [->|Hkey];
            [rewrite Hset in *;
             repeat match goal with
                    | H : Normal _ = Normal _ |- _ => injection H as <-
                    end;
             rewrite Hparsed in *; discriminate|]).
    by apply elem_of_nil in Hkey.
  - intros Hdefault. unfold initializeTopics. by rewrite Hdefault.
  - intros topicsStr retention interval searchLimit r i l Htp Hrd Hid Hld Hrv Hiv Hlv.
    assert (Hconfig : validateNewsConfig st = mkNewsConfig i (parseTopics topicsStr) r l).
    { unfold validateNewsConfig, readNewsConfig, andThen.
      rewrite Htp, Hrd, Hid, Hld. unfold schemaParse.
      cbn [input_TOPICS input_RETENTION_DAYS input_FETCH_INTERVAL_MINUTES
           input_SEARCH_LIMIT].
      change (Finite DEFAULT_RETENTION_DAYS) with (Finite 30).
      change (Finite DEFAULT_FETCH_INTERVAL) with (Finite 60).
      change (Finite DEFAULT_SEARCH_LIMIT) with (Finite 10).
      by rewrite Hrv, Hiv, Hlv. }
    split; [exact Hconfig|].
    assert (1 ≤ i) by (by eapply safeParseInt_Finite; [|exact Hiv]).
    unfold initializeTopics. rewrite Hconfig. cbv zeta. simpl.
    destruct (Z.eqb_spec i 0); [lia|].
    by destruct (parseTopics topicsStr) as [|topic topics].
Qed.

Lemma parseTopics_joinComma_witness :
  parseTopics (Some (joinComma ["world news"; "ai"]%string))
    = ["world news"; "ai"]%string.
Proof.
  apply parseTopics_joinComma.
  repeat constructor; try done; simpl; intros Ho;
    repeat (destruct Ho as [Ho|Ho]; [by vm_compute in Ho|]); done.
Defined.

(** *** Timer periods *)

(** The delay the engine computes in doubles gives a timer the same period
    as the exact product. *)
Lemma nodePeriod_delayOf (interval : Z) :
  1 ≤ interval →
  nodePeriod (delayOf interval) = nodePeriod (Finite (interval * 60 * 1000)).
Proof.
  intros Hi. unfold delayOf, timesConstant.
  assert (Hbig : ∀ x, TIMEOUT_MAX < x → nodePeriod (roundToDouble x) = 1).
  { intros x Hx. unfold TIMEOUT_MAX in Hx.
    destruct (decide (x < 2 ^ 53)) as [Hsmall|Hlarge].
    - rewrite roundToDouble_small by lia. unfold nodePeriod, TIMEOUT_MAX.
      destruct (Z.leb_spec x (2 ^ 31 - 1)); [lia|]. by rewrite andb_false_r.
    - destruct (roundToDouble_large x ltac:(lia)) as [->|(m & -> & Hm)]; [done|].
      unfold nodePeriod, TIMEOUT_MAX.
      destruct (Z.leb_spec m (2 ^ 31 - 1)); [lia|]. by rewrite andb_false_r. }
  destruct (decide (interval * 60 < 2 ^ 53)) as [Hsmall|Hlarge].
  - rewrite (roundToDouble_small (interval * 60)) by lia.
    destruct (decide (interval * 60 * 1000 ≤ TIMEOUT_MAX)) as [Hfits|Hover].
    + unfold TIMEOUT_MAX in Hfits. by rewrite roundToDouble_small by lia.
    + rewrite Hbig by lia. unfold nodePeriod.
      destruct (Z.leb_spec (interval * 60 * 1000) TIMEOUT_MAX); [lia|].
      by rewrite andb_false_r.
  - assert (Hrhs : nodePeriod (Finite (interval * 60 * 1000)) = 1).
    { unfold nodePeriod, TIMEOUT_MAX.
      destruct (Z.leb_spec (interval * 60 * 1000) (2 ^ 31 - 1)); [lia|].
      by rewrite andb_false_r. }
    rewrite Hrhs.
    destruct (roundToDouble_large (interval * 60) ltac:(lia)) as [->|(m & -> & Hm)];
      [done|].
    apply Hbig. unfold TIMEOUT_MAX. lia.
Qed.

Module SchedulerConfigFacts.
Import Scheduler SchedulerSpec SchedulerFacts SchedulerMoreFacts.

Lemma initialize_timers (configured : list TopicConfig) :
  activeTimers (Scheduler.initialize configured newService) =
    imap (λ i topic, mkTimer i (FetchNewsForTopic (topic_name topic))
                             (topic_interval topic * 60 * 1000)) configured
    ++ [mkTimer (length configured) PurgeOldNews ONE_DAY].
Proof.
  unfold Scheduler.initialize. simpl initialized. cbv iota zeta. simpl.
  unfold startFetchIntervals. simpl svc_topics.
  destruct (scheduleTopics_timers configured
              (stopFetchIntervals (mkService configured ∅ false [] 0)))
    as (Hn & Ha & _ & _).
  rewrite Hn, Ha. done.
Qed.

(** X17. Starting the service throws, and installs no timer, exactly when
    the runtime has no (non-empty) TAVILY_API_KEY or reading it throws.
    Otherwise, whatever the other settings, one fetch timer per topic (at
    least one) and the purge timer are installed, and every delay handed to
    [setInterval] is at least one minute.  A timer whose delay is at most
    2^31 - 1 ms fires with that period; a fetch timer with a larger delay
    (an interval above 35791 minutes) fires every millisecond.  Computing
    the delay in doubles changes none of these periods. *)
Theorem initialize_timer_delays (st : Settings) :
  let r := NewsMemoryService.initialize st newService in
  (webSearchInitialize st = Normal () ↔
     ∃ apiKey, runtimeSetting st "TAVILY_API_KEY" = Normal (Some apiKey)
               ∧ apiKey ≠ EmptyString)
  ∧ (∀ e, webSearchInitialize st = Throw e → r = (Throw e, newService))
  ∧ (webSearchInitialize st = Normal () →
     r.1 = Normal ()
     ∧ length (activeTimers r.2) = S (length (initializeTopics st))
     ∧ (∃ t topic, t ∈ activeTimers r.2 ∧ timer_callback t = FetchNewsForTopic topic)
     ∧ ∀ t, t ∈ activeTimers r.2 →
         60 * 1000 ≤ timer_delay t
         ∧ (timer_delay t ≤ 2 ^ 31 - 1 →
            NewsMemoryService.timerPeriod t = timer_delay t)
         ∧ (2 ^ 31 - 1 < timer_delay t → NewsMemoryService.timerPeriod t = 1)
         ∧ (∀ topic, timer_callback t = FetchNewsForTopic topic →
              ∃ interval, 1 ≤ interval
                ∧ timer_delay t = interval * 60 * 1000
                ∧ NewsMemoryService.timerPeriod t = nodePeriod (delayOf interval)
                ∧ (NewsMemoryService.timerPeriod t = 1 ↔ 35791 < interval))).
Proof.
  intros r. subst r. unfold NewsMemoryService.initialize. simpl initialized.
  cbv iota.
  split; [|split].
  - unfold webSearchInitialize.
    destruct (runtimeSetting st "TAVILY_API_KEY") as [[k|]|e]; simpl.
    + case_bool_decide as Hk; simpl.
      * split; [done|]. intros (k' & [= <-] & Hne). done.
      * split; [|done]. intros _. by exists k.
    + split; [done|]. by intros (k' & [=] & _).
    + split; [done|]. by intros (k' & [=] & _).
  - by intros e ->.
  - intros ->. cbn [fst snd]. rewrite initialize_timers.
    destruct (initializeTopics_intervals st) as (Hne & Hall).
    assert (Hperiod : ∀ d, 1 ≤ d →
              (d ≤ 2 ^ 31 - 1 → nodePeriod (Finite d) = d)
              ∧ (2 ^ 31 - 1 < d → nodePeriod (Finite d) = 1)).
    { intros d Hd. unfold nodePeriod, TIMEOUT_MAX.
      destruct (Z.leb_spec 1 d); [|lia].
      destruct (Z.leb_spec d (2 ^ 31 - 1)); simpl; split; intros; lia. }
    split; [done|]. split; [|split].
    + rewrite length_app, length_imap. simpl. lia.
    + destruct (initializeTopics st) as [|topic ts]; [done|].
      eexists _, (topic_name topic). split; [by left|done].
    + intros t [Hin|Hin]%elem_of_app.
      * apply list_elem_of_lookup in Hin as [i Hi].
        rewrite list_lookup_imap in Hi.
        destruct (initializeTopics st !! i) as [topic|] eqn:Hti; [|done].
        injection Hi as <-. unfold NewsMemoryService.timerPeriod.
        cbn [timer_delay timer_callback].
        apply list_elem_of_lookup_2 in Hti.
        rewrite Forall_forall in Hall. destruct (Hall topic Hti) as [_ Hint].
        destruct (Hperiod (topic_interval topic * 60 * 1000) ltac:(lia))
          as [Hfits Hover].
        split; [lia|]. split; [done|]. split; [done|].
        intros _ _. exists (topic_interval topic). split; [done|]. split; [done|].
        split; [by rewrite nodePeriod_delayOf|].
        destruct (decide (topic_interval topic * 60 * 1000 ≤ 2 ^ 31 - 1)).
        -- rewrite Hfits by done. lia.
        -- rewrite Hover by lia. lia.
      * apply list_elem_of_singleton in Hin as ->.
        unfold NewsMemoryService.timerPeriod. cbn [timer_delay timer_callback].
        destruct (Hperiod ONE_DAY ltac:(unfold ONE_DAY; lia)) as [Hfits Hover].
        unfold ONE_DAY in *.
        split; [lia|]. split; [done|]. split; [done|]. by intros ? [=].
Qed.

(** With an interval of 40000 minutes the fetch timers fire every
    millisecond; without an API key nothing is installed. *)
Example initialize_with_long_interval :
  NewsMemoryService.timerPeriod
    <$> activeTimers (NewsMemoryService.initialize
                        (settingsWithInterval "40000") newService).2
    = [1; 1; 1; 86400000]
  ∧ NewsMemoryService.timerPeriod
      <$> activeTimers (NewsMemoryService.initialize
                          (settingsWithInterval "30") newService).2
      = [1800000; 1800000; 1800000; 86400000]
  ∧ NewsMemoryService.initialize (mkSettings (λ _, Normal None) (λ _, None)) newService
    = (Throw "TAVILY_API_KEY is not set"%string, newService).
Proof. by vm_compute. Qed.

End SchedulerConfigFacts.

(** ** The web search service *)

Module WebSearchFacts.
Import WebSearch.

Section ServiceFacts.
Context {W : Type} `{SearchRuntime W}.

(** X18. A cached response is returned as it is: the provider is not
    asked and nothing is written to the cache. *)
Theorem search_cache_hit (q : string) (options : SearchOptions) (w w1 : W)
    (cm : CacheManager W) (cached : SearchResponse) :
  cacheManager = Some cm →
  cacheGet cm (generateCacheKey q (searchParamsOf options)) w
    = (Normal (Some cached), w1) →
  search q (Some options) w = (Normal cached, w1).
Proof.
  intros Hcm Hget. unfold search, cachedResponse. by rewrite Hcm, Hget.
Qed.

Lemma cachedResponse_cases (key : CacheKey) (w : W) :
  (∃ e, (cachedResponse key w).1 = Throw e ∧ lookupFails key w e)
  ∨ (∃ w1, cachedResponse key w = (Normal None, w1) ∧ lookupMisses key w w1)
  ∨ (∃ cm cached w1, cacheManager = Some cm
       ∧ cacheGet cm key w = (Normal (Some cached), w1)
       ∧ cachedResponse key w = (Normal (Some cached), w1)).
Proof.
  unfold cachedResponse, lookupFails, lookupMisses, logCacheError.
  destruct cacheManager as [cm|]; [|right; left; exists w; by split; [|left]].
  destruct (cacheGet cm key w) as [[[cached|]|cacheError] w1] eqn:Hget.
  - right. right. by exists cm, cached, w1.
  - right. left. exists w1. split; [done|]. right. exists cm. split; [done|]. by left.
  - destruct (messageOf cacheError) as [message|e] eqn:Hm.
    + right. left. exists w1. split; [done|]. right. exists cm. split; [done|].
      right. by exists cacheError, message.
    + left. exists e. split; [done|]. by exists cm, cacheError, w1.
Qed.

Lemma lookupMisses_run (key : CacheKey) (w w1 : W) :
  lookupMisses key w w1 → cachedResponse key w = (Normal None, w1).
Proof.
  unfold cachedResponse, lookupMisses, logCacheError.
  intros [[-> ->]|(cm & -> & [->|(cacheError & message & -> & ->)])]; done.
Qed.

Lemma lookupFails_run (key : CacheKey) (w : W) e :
  lookupFails key w e → (cachedResponse key w).1 = Throw e.
Proof.
  unfold cachedResponse, lookupFails, logCacheError.
  by intros (cm & cacheError & w1 & -> & -> & ->).
Qed.

Lemma determineTTL_ttlSecondsOf (options : SearchOptions) :
  determineTTL (searchParamsOf options) = ttlSecondsOf options.
Proof.
  unfold determineTTL, ttlSecondsOf, searchParamsOf. simpl.
  destruct (so_type options) as [[]|], (so_days options) as [d|]; simpl; try done;
    destruct (Z.leb_spec d 1); case_decide; (done || lia).
Qed.

Lemma storeResponse_throws (key : CacheKey) (response : SearchResponse)
    (options : SearchOptions) (w : W) e :
  (storeResponse key response (searchParamsOf options) w).1 = Throw e
  ↔ storeFails key response (clockOf w + ttlSecondsOf options * 1000) w e.
Proof.
  unfold storeResponse, storeFails, logCacheError. cbv zeta.
  rewrite determineTTL_ttlSecondsOf.
  destruct cacheManager as [cm|].
  - destruct (cacheSet cm key response _ w) as [[[]|cacheError] w1] eqn:Hset;
      cbn [fst].
    + split; [done|]. intros (cm' & ce & w' & [= <-] & Hset' & _).
      by rewrite Hset in Hset'.
    + destruct (messageOf cacheError) as [message|e'] eqn:Hm.
      * split; [done|].
        intros (cm' & ce & w' & [= <-] & Hset' & Hm').
        rewrite Hset in Hset'. injection Hset' as <- <-. by rewrite Hm in Hm'.
      * split.
        -- intros [= ->]. by exists cm, cacheError, w1.
        -- intros (cm' & ce & w' & [= <-] & Hset' & Hm').
           rewrite Hset in Hset'. injection Hset' as <- <-.
           rewrite Hm in Hm'. by injection Hm' as ->.
  - cbn [fst]. split; [done|]. by intros (cm' & ce & w' & [=] & _).
Qed.

(** X19. [search] throws [e] in exactly these cases: it was called without
    options (a TypeError); the cache lookup threw a value whose message
    cannot be read, such as [null] or [undefined], and reading it threw [e];
    no cached response was found and the provider threw [e]; or the provider
    answered and storing the answer threw a value whose message cannot be
    read, and reading it threw [e].  A cache manager that throws an [Error]
    never makes a search fail. *)
Theorem search_throws_iff (q : string) (options : option SearchOptions) (w : W) e :
  (search q options w).1 = Throw e ↔
    (options = None ∧ e = "TypeError: Cannot read properties of undefined"%string)
    ∨ ∃ o, options = Some o
        ∧ let params := searchParamsOf o in
          let key := generateCacheKey q params in
          lookupFails key w e
          ∨ ∃ w1, lookupMisses key w w1
              ∧ ((tavilySearch q params w1).1 = Throw e
                 ∨ ∃ response w2,
                     tavilySearch q params w1 = (Normal response, w2)
                     ∧ storeFails key response
                         (clockOf w2 + ttlSecondsOf o * 1000) w2 e).
Proof.
  unfold search. destruct options as [o|]; cycle 1.
  { cbn [fst]. split.
    - intros [= <-]. by left.
    - intros [[_ ->]|(o' & [=] & _)]. done. }
  cbv zeta.
  assert (Hstore_iff' : ∀ response w2 e,
    (storeResponse (generateCacheKey q (searchParamsOf o)) response
                   (searchParamsOf o) w2).1 = Throw e
    ↔ storeFails (generateCacheKey q (searchParamsOf o)) response
                 (clockOf w2 + ttlSecondsOf o * 1000) w2 e)
    by (intros; apply storeResponse_throws).
  set (params := searchParamsOf o) in *.
  set (key := generateCacheKey q params) in *.
  split.
  - intros Hthrow. right. exists o. split; [done|]. cbv zeta. fold params key.
    destruct (cachedResponse_cases key w)
      as [(e' & He' & Hfails)|[(w1 & Hmiss & Hm)|(cm & cached & w1 & _ & _ & Hhit)]].
    + left. destruct (cachedResponse key w) as [c w1].
      cbn [fst] in He'. subst c. cbn [fst] in Hthrow. by injection Hthrow as <-.
    + right. exists w1. split; [done|]. rewrite Hmiss in Hthrow.
      destruct (tavilySearch q params w1) as [[response|e'] w2] eqn:Hp.
      * right. exists response, w2. split; [done|].
        apply Hstore_iff'.
        destruct (storeResponse key response params w2) as [[[]|e'] w3];
          cbn [fst] in *; [done|]. injection Hthrow as ->. done.
      * left. cbn [fst] in *. by injection Hthrow as <-.
    + by rewrite Hhit in Hthrow.
  - intros [[[=] _]|(o' & [= <-] & Hcases)].
    cbv zeta in Hcases. fold params key in Hcases.
    destruct Hcases as [Hfails|(w1 & Hmiss & Hrest)].
    + apply lookupFails_run in Hfails.
      destruct (cachedResponse key w) as [c w1]. cbn [fst] in Hfails. by subst c.
    + rewrite (lookupMisses_run _ _ _ Hmiss).
      destruct Hrest as [Hp|(response & w2 & Hp & Hstore)].
      * destruct (tavilySearch q params w1) as [c w2]. cbn [fst] in Hp. by subst c.
      * rewrite Hp. apply Hstore_iff' in Hstore.
        destruct (storeResponse key response params w2) as [c w3].
        cbn [fst] in Hstore. by subst c.
Qed.

(** X20. After a miss, the provider's response is handed to the cache
    manager under the key of the query and parameters, to expire 5 minutes
    from now for a news search over at most one day, 15 minutes for any
    other news search (the default type) and 30 minutes for a general
    search.  The response is then returned, also when storing throws an
    [Error]; when storing throws a value whose message cannot be read, such
    as [null], the search throws what reading it throws, although the
    provider answered. *)
Theorem search_miss_stores_response (q : string) (options : SearchOptions)
    (w w1 w2 : W) (cm : CacheManager W) (response : SearchResponse) :
  cacheManager = Some cm →
  let key := generateCacheKey q (searchParamsOf options) in
  lookupMisses key w w1 →
  tavilySearch q (searchParamsOf options) w1 = (Normal response, w2) →
  let stored :=
    cacheSet cm key response (clockOf w2 + ttlSecondsOf options * 1000) w2 in
  search q (Some options) w =
    (match stored.1 with
     | Normal _ => Normal response
     | Throw cacheError =>
         match messageOf cacheError with
         | Normal _ => Normal response
         | Throw e => Throw e
         end
     end, stored.2).
Proof.
  intros Hcm key Hmiss Hprov stored. unfold search. fold key.
  rewrite (lookupMisses_run _ _ _ Hmiss), Hprov.
  unfold storeResponse, logCacheError. rewrite Hcm. cbv zeta.
  rewrite determineTTL_ttlSecondsOf. fold stored.
  destruct stored as [[[]|cacheError] w3]; cbn [fst snd]; [done|].
  by destruct (messageOf cacheError).
Qed.

End ServiceFacts.

End WebSearchFacts.

Lemma search_cache_hit_witness :
  let w := MemSearch.mkWorld
             [(("q"%string, WebSearch.searchParamsOf MemSearch.newsOptions),
               MemSearch.sampleResponse, 900000)]
             1000 (Throw "provider down"%string) None None in
  WebSearch.search "q" (Some MemSearch.newsOptions) w
    = (Normal MemSearch.sampleResponse, w).
Proof.
  intros w.
  eapply (WebSearchFacts.search_cache_hit "q" MemSearch.newsOptions w w).
  - reflexivity.
  - by vm_compute.
Defined.

Lemma search_miss_stores_response_witness :
  (let w := MemSearch.mkWorld [] 1000 (Normal MemSearch.sampleResponse) None None in
   WebSearch.search "q" (Some MemSearch.newsOptions) w
     = (Normal MemSearch.sampleResponse,
        MemSearch.mkWorld
          [(("q"%string, WebSearch.searchParamsOf MemSearch.newsOptions),
            MemSearch.sampleResponse, 901000)]
          1000 (Normal MemSearch.sampleResponse) None None))
  ∧ (let w := MemSearch.mkWorld [] 1000 (Normal MemSearch.sampleResponse)
                None (Some "null"%string) in
     WebSearch.search "q" (Some MemSearch.newsOptions) w
       = (Throw "TypeError: Cannot read properties of null (reading 'message')"%string,
          w)).
Proof.
  split; intros w.
  - eapply eq_trans.
    + eapply (WebSearchFacts.search_miss_stores_response
                "q" MemSearch.newsOptions w w w).
      * reflexivity.
      * right. eexists. split; [reflexivity|]. left. by vm_compute.
      * by vm_compute.
    + by vm_compute.
  - eapply eq_trans.
    + eapply (WebSearchFacts.search_miss_stores_response
                "q" MemSearch.newsOptions w w w).
      * reflexivity.
      * right. eexists. split; [reflexivity|]. left. by vm_compute.
      * by vm_compute.
    + by vm_compute.
Defined.

(** A cache manager that rejects with [null]: on lookup the search throws
    before the provider is asked; with an [Error] it goes on. *)
Example search_with_failing_cache :
  (let w := MemSearch.mkWorld [] 1000 (Normal MemSearch.sampleResponse)
              (Some "null"%string) None in
   (WebSearch.search "q" (Some MemSearch.newsOptions) w).1
     = Throw "TypeError: Cannot read properties of null (reading 'message')"%string)
  ∧ (let w := MemSearch.mkWorld [] 1000 (Normal MemSearch.sampleResponse)
                (Some "cache down"%string) (Some "cache down"%string) in
     WebSearch.search "q" (Some MemSearch.newsOptions) w
       = (Normal MemSearch.sampleResponse, w)).
Proof. by vm_compute. Qed.

(** ** Collecting the results of several topics *)

Lemma foldl_assign_other (rs : list TopicResult) (acc : TopicRecord) (k : string) :
  k ∉ tr_topic <$> rs →
  ownItems (foldl (λ acc r, assign (tr_topic r) (tr_items r) acc) acc rs) !! k
    = ownItems acc !! k.
Proof.
  revert acc. induction rs as [|r rs IH]; intros acc Hnot; simpl; [done|].
  apply not_elem_of_cons in Hnot as [Hne Hnot].
  rewrite IH by done. unfold assign. case_bool_decide; simpl; [done|].
  by rewrite lookup_insert_ne.
Qed.

Lemma foldl_assign_lookup (rs : list TopicResult) (acc : TopicRecord)
    (i : nat) (r : TopicResult) :
  NoDup (tr_topic <$> rs) → rs !! i = Some r → tr_topic r ≠ protoKey →
  ownItems (foldl (λ acc r, assign (tr_topic r) (tr_items r) acc) acc rs)
    !! tr_topic r = Some (tr_items r).
Proof.
  revert acc i. induction rs as [|r0 rs IH]; intros acc i Hnd Hi Hkey; [done|].
  apply NoDup_cons in Hnd as [Hnotin Hnd]. destruct i as [|i]; simpl in *.
  - injection Hi as ->. rewrite foldl_assign_other by done.
    unfold assign. rewrite bool_decide_false by done. apply lookup_insert_eq.
  - by apply (IH _ i).
Qed.

Lemma foldl_assign_is_Some (rs : list TopicResult) (acc : TopicRecord) (k : string) :
  k ∈ tr_topic <$> rs → k ≠ protoKey →
  is_Some (ownItems (foldl (λ acc r, assign (tr_topic r) (tr_items r) acc) acc rs)
             !! k).
Proof.
  revert acc. induction rs as [|r rs IH]; intros acc Hin Hkey; simpl.
  - by apply elem_of_nil in Hin.
  - destruct (decide (k ∈ tr_topic <$> rs)) as [Hrest|Hrest]; [by apply IH|].
    apply elem_of_cons in Hin as [->|Hin]; [|done].
    rewrite foldl_assign_other by done.
    unfold assign. rewrite bool_decide_false by done. simpl.
    rewrite lookup_insert_eq. by eexists.
Qed.

Lemma foldl_assign_dom (rs : list TopicResult) (acc : TopicRecord) (k : string) :
  is_Some (ownItems (foldl (λ acc r, assign (tr_topic r) (tr_items r) acc) acc rs)
             !! k) →
  (k ∈ tr_topic <$> rs ∧ k ≠ protoKey) ∨ is_Some (ownItems acc !! k).
Proof.
  revert acc. induction rs as [|r rs IH]; intros acc Hs; simpl in *; [by right|].
  apply IH in Hs as [[Hin Hkey]|Hs]; [left; split; [by right|done]|].
  unfold assign in Hs. case_bool_decide as Hproto; simpl in Hs; [by right|].
  destruct (decide (tr_topic r = k)) as [<-|Hne]; [left; split; [by left|done]|].
  rewrite lookup_insert_ne in Hs by done. by right.
Qed.

Lemma foldl_assign_prototype_other (rs : list TopicResult) (acc : TopicRecord) :
  protoKey ∉ tr_topic <$> rs →
  prototypeItems (foldl (λ acc r, assign (tr_topic r) (tr_items r) acc) acc rs)
    = prototypeItems acc.
Proof.
  revert acc. induction rs as [|r rs IH]; intros acc Hnot; simpl; [done|].
  apply not_elem_of_cons in Hnot as [Hne Hnot].
  rewrite IH by done. unfold assign. by rewrite bool_decide_false.
Qed.

Lemma foldl_assign_prototype (rs : list TopicResult) (acc : TopicRecord)
    (i : nat) (r : TopicResult) :
  NoDup (tr_topic <$> rs) → rs !! i = Some r → tr_topic r = protoKey →
  prototypeItems (foldl (λ acc r, assign (tr_topic r) (tr_items r) acc) acc rs)
    = Some (tr_items r).
Proof.
  revert acc i. induction rs as [|r0 rs IH]; intros acc i Hnd Hi Hkey; [done|].
  apply NoDup_cons in Hnd as [Hnotin Hnd]. destruct i as [|i]; simpl in *.
  - injection Hi as ->. rewrite Hkey in Hnotin.
    rewrite foldl_assign_prototype_other by done.
    unfold assign. by rewrite bool_decide_true.
  - by apply (IH _ i).
Qed.

Lemma settled_topics (ts : list string)
    (fetch : nat → string → Completion (list RAGKnowledgeItem)) :
  tr_topic <$> imap (λ i t, settle t (fetch i t)) ts = ts.
Proof.
  apply list_eq. intros i. rewrite list_lookup_fmap, list_lookup_imap.
  destruct (ts !! i) as [t|]; simpl; [|done]. by destruct (fetch i t).
Qed.

Lemma settled_items (ts : list string)
    (fetch : nat → string → Completion (list RAGKnowledgeItem)) :
  imap (λ i t, settle t (fetch i t)) ts ≫= tr_items
    = mjoin (imap (λ i t, contribution (fetch i t)) ts).
Proof.
  revert fetch. induction ts as [|t ts IH]; intros fetch; [done|].
  pose proof (IH (λ i, fetch (S i))) as IH'. cbv beta in IH'.
  rewrite !imap_cons. unfold compose. cbv beta.
  rewrite bind_cons, IH'. simpl. by destruct (fetch 0%nat t).
Qed.

(** X21. Fetching several topics never fails as a whole.  The combined
    list is the concatenation, in the order of the topics, of what the
    topics whose fetch completed returned; a topic whose fetch threw
    contributes nothing.  The own keys of the per-topic object are the
    requested topics other than [__proto__], and with distinct topics each
    is mapped to its own items, the empty list if its fetch threw.  A
    requested topic named [__proto__] gets no key: its items become the
    prototype of the object; otherwise the prototype is left alone.  A
    single topic, fetched on its own, is always a key, and when its fetch
    throws the result is empty. *)
Theorem fetchNews_isolates_failing_topics (configured : list TopicConfig)
    (ts : list string) (fetch : nat → string → Completion (list RAGKnowledgeItem)) :
  let summary := fetchNews configured (Topics ts) fetch in
  allItems summary = mjoin (imap (λ i t, contribution (fetch i t)) ts)
  ∧ (∀ t, is_Some (ownItems (byTopic summary) !! t) ↔ t ∈ ts ∧ t ≠ protoKey)
  ∧ (NoDup ts → ∀ i t, ts !! i = Some t → t ≠ protoKey →
       ownItems (byTopic summary) !! t = Some (contribution (fetch i t)))
  ∧ (NoDup ts → ∀ i, ts !! i = Some protoKey →
       prototypeItems (byTopic summary) = Some (contribution (fetch i protoKey)))
  ∧ (protoKey ∉ ts → prototypeItems (byTopic summary) = None)
  ∧ fetchNews configured Unspecified fetch
      = fetchNews configured (Topics (topic_name <$> configured)) fetch
  ∧ fetchNews configured (OneTopic EmptyString) fetch
      = fetchNews configured Unspecified fetch
  ∧ (∀ t, t ≠ EmptyString →
       fetchNews configured (OneTopic t) fetch =
         match fetch 0%nat t with
         | Normal items => mkFetchSummary (mkTopicRecord {[ t := items ]} None) items
         | Throw _ => mkFetchSummary (mkTopicRecord ∅ None) []
         end).
Proof.
  intros summary. subst summary. unfold fetchNews. simpl.
  split; [apply settled_items|].
  split; [|split; [|split; [|split; [|split; [done|split; [done|]]]]]].
  - intros t. split.
    + intros Hs. apply foldl_assign_dom in Hs as [[Hin Hkey]|Hs].
      * by rewrite settled_topics in Hin.
      * simpl in Hs. rewrite lookup_empty in Hs. by destruct Hs.
    + intros [Hin Hkey]. apply foldl_assign_is_Some; [|done].
      by rewrite settled_topics.
  - intros Hnd i t Hi Hkey.
    pose proof (foldl_assign_lookup
                  (imap (λ i t, settle t (fetch i t)) ts) emptyRecord i
                  (settle t (fetch i t))) as Hl.
    rewrite settled_topics in Hl. specialize (Hl Hnd).
    rewrite list_lookup_imap, Hi in Hl. specialize (Hl eq_refl).
    destruct (fetch i t); by apply Hl.
  - intros Hnd i Hi.
    pose proof (foldl_assign_prototype
                  (imap (λ i t, settle t (fetch i t)) ts) emptyRecord i
                  (settle protoKey (fetch i protoKey))) as Hl.
    rewrite settled_topics in Hl. specialize (Hl Hnd).
    rewrite list_lookup_imap, Hi in Hl. specialize (Hl eq_refl).
    destruct (fetch i protoKey); by apply Hl.
  - intros Hnot. rewrite foldl_assign_prototype_other; [done|].
    by rewrite settled_topics.
  - intros t Ht. rewrite bool_decide_false by done. done.
Qed.

(** Two topics, one of them named [__proto__]: the object has one key. *)
Example fetchNews_proto_topic :
  let summary :=
    fetchNews [] (Topics ["technology"%string; protoKey])
              (λ _ _, Normal [sampleEntry]) in
  map_to_list (ownItems (byTopic summary)) = [("technology"%string, [sampleEntry])]
  ∧ prototypeItems (byTopic summary) = Some [sampleEntry]
  ∧ allItems summary = [sampleEntry; sampleEntry].
Proof. by vm_compute. Qed.

(** ** Relative dates *)

Section DisplayFacts.
Variable toLocaleDateString : Z → string.

(** X22. [formatDate] counts whole minutes below one hour, whole hours
    below one day and whole days below one week, writes the singular for a
    count of 1 only, and falls back to the locale's date from one week on.  A
    date in the future is shown with a negative count of minutes. *)
Theorem formatDate_units (now date : Z) :
  let diff := now - date in
  (diff < 3600000 →
   formatDate toLocaleDateString now date =
     (pretty (diff / 60000) ++ " minute" ++ pluralUnlessOne (diff / 60000) ++ " ago")%string
   ∧ diff / 60000 < 60 ∧ (0 ≤ diff ↔ 0 ≤ diff / 60000))
  ∧ (3600000 ≤ diff < 86400000 →
     formatDate toLocaleDateString now date =
       (pretty (diff / 3600000) ++ " hour" ++ pluralUnlessOne (diff / 3600000)
        ++ " ago")%string
     ∧ 1 ≤ diff / 3600000 < 24)
  ∧ (86400000 ≤ diff < 604800000 →
     formatDate toLocaleDateString now date =
       (pretty (diff / 86400000) ++ " day" ++ pluralUnlessOne (diff / 86400000)
        ++ " ago")%string
     ∧ 1 ≤ diff / 86400000 < 7)
  ∧ (604800000 ≤ diff →
     formatDate toLocaleDateString now date = toLocaleDateString date).
Proof.
  intros diff. unfold formatDate. fold diff.
  change (1000 * 60) with 60000.
  assert (Hh : diff / 60000 / 60 = diff / 3600000)
    by (rewrite Z.div_div by lia; done).
  assert (Hd : diff / 60000 / 60 / 24 = diff / 86400000)
    by (rewrite !Z.div_div by lia; done).
  rewrite Hd, Hh.
  pose proof (Z.div_lt_upper_bound diff 60000 60 ltac:(lia)) as Hm1.
  pose proof (Z.div_le_lower_bound diff 60000 60 ltac:(lia)) as Hm2.
  pose proof (Z.div_lt_upper_bound diff 3600000 24 ltac:(lia)) as Hh1.
  pose proof (Z.div_le_lower_bound diff 3600000 24 ltac:(lia)) as Hh2.
  pose proof (Z.div_le_lower_bound diff 3600000 1 ltac:(lia)) as Hh3.
  pose proof (Z.div_lt_upper_bound diff 86400000 7 ltac:(lia)) as Hd1.
  pose proof (Z.div_le_lower_bound diff 86400000 7 ltac:(lia)) as Hd2.
  pose proof (Z.div_le_lower_bound diff 86400000 1 ltac:(lia)) as Hd3.
  repeat split.
  - destruct (Z.ltb_spec (diff / 60000) 60); [done|lia].
  - lia.
  - intros. apply Z.div_pos; lia.
  - intros Hq. destruct (Z.lt_ge_cases diff 0) as [Hneg|]; [|done].
    pose proof (Z.div_lt_upper_bound diff 60000 0 ltac:(lia) ltac:(lia)). lia.
  - destruct (Z.ltb_spec (diff / 60000) 60); [lia|].
    destruct (Z.ltb_spec (diff / 3600000) 24); [done|lia].
  - lia.
  - lia.
  - destruct (Z.ltb_spec (diff / 60000) 60); [lia|].
    destruct (Z.ltb_spec (diff / 3600000) 24); [lia|].
    destruct (Z.ltb_spec (diff / 86400000) 7); [done|lia].
  - lia.
  - lia.
  - destruct (Z.ltb_spec (diff / 60000) 60); [lia|].
    destruct (Z.ltb_spec (diff / 3600000) 24); [lia|].
    destruct (Z.ltb_spec (diff / 86400000) 7); [lia|done].
Qed.

End DisplayFacts.

(** X23. [getRelativeTimeString] says "Just now" for everything less than
    an hour old, dates in the future included, counts whole hours below one
    day and whole days from then on without an upper limit, with the plural
    for counts above 1. *)
Theorem getRelativeTimeString_units (now date : Z) :
  let diff := now - date in
  (diff < 3600000 → getRelativeTimeString now date = "Just now"%string)
  ∧ (3600000 ≤ diff < 86400000 →
     getRelativeTimeString now date =
       (pretty (diff / 3600000) ++ " hour" ++ pluralAboveOne (diff / 3600000)
        ++ " ago")%string
     ∧ 1 ≤ diff / 3600000 < 24)
  ∧ (86400000 ≤ diff →
     getRelativeTimeString now date =
       (pretty (diff / 86400000) ++ " day" ++ pluralAboveOne (diff / 86400000)
        ++ " ago")%string
     ∧ 1 ≤ diff / 86400000).
Proof.
  intros diff. unfold getRelativeTimeString. fold diff.
  change (1000 * 60 * 60) with 3600000.
  assert (Hd : diff / 3600000 / 24 = diff / 86400000)
    by (rewrite Z.div_div by lia; done).
  rewrite Hd.
  pose proof (Z.div_lt_upper_bound diff 3600000 1 ltac:(lia)) as Hh0.
  pose proof (Z.div_lt_upper_bound diff 3600000 24 ltac:(lia)) as Hh1.
  pose proof (Z.div_le_lower_bound diff 3600000 24 ltac:(lia)) as Hh2.
  pose proof (Z.div_le_lower_bound diff 3600000 1 ltac:(lia)) as Hh3.
  pose proof (Z.div_le_lower_bound diff 86400000 1 ltac:(lia)) as Hd3.
  split; [|split].
  - intros Hlt. destruct (Z.ltb_spec (diff / 3600000) 1); [done|lia].
  - intros [Hlo Hhi].
    destruct (Z.ltb_spec (diff / 3600000) 1); [lia|].
    destruct (Z.ltb_spec (diff / 3600000) 24); [|lia]. split; [done|lia].
  - intros Hlo.
    destruct (Z.ltb_spec (diff / 3600000) 1); [lia|].
    destruct (Z.ltb_spec (diff / 3600000) 24); [lia|]. split; [done|lia].
Qed.

Lemma derivePublishedAt_with_raw_content_witness :
  let s := freshState (mkMem [] 5000 false []) in
  derivePublishedAt (λ _ _, None) (λ _, InvalidDate) undatedResultWithRaw s
    = (Normal (Some (DateAt 5000)), s).
Proof.
  intros s.
  destruct (derivePublishedAt_with_raw_content (λ _ _, None) (λ _, InvalidDate)
              undatedResultWithRaw s eq_refl eq_refl) as (d & Hd & Hnow).
  rewrite Hd. by rewrite (Hnow eq_refl eq_refl).
Defined.
